(** * Football-trivia game: the server actions over the games, players and
      play_calls tables

    A shallow embedding of [src/app/actions/game.ts] and
    [src/app/actions/lobby.ts].  The hosted database is an explicit record of
    tables that every handler receives and returns; [Math.random] is a tape of
    draws handed to the handler. *)

From Stdlib Require Import ZArith List String Ascii Bool Lia.
Import ListNotations.
Local Open Scope string_scope.
Local Open Scope Z_scope.

(** ** JavaScript primitives used by the handlers *)

Module JS.

(** [x ?? d] *)
Definition nullish {A : Type} (x : option A) (d : A) : A :=
  match x with Some v => v | None => d end.

Definition lower_char (c : ascii) : ascii :=
  let n := nat_of_ascii c in
  if (Nat.leb 65 n && Nat.leb n 90)%bool then ascii_of_nat (n + 32) else c.

Definition upper_char (c : ascii) : ascii :=
  let n := nat_of_ascii c in
  if (Nat.leb 97 n && Nat.leb n 122)%bool then ascii_of_nat (n - 32) else c.

Fixpoint map_chars (f : ascii -> ascii) (s : string) : string :=
  match s with
  | EmptyString => EmptyString
  | String c rest => String (f c) (map_chars f rest)
  end.

(** [s.toLowerCase()] and [s.toUpperCase()] on the ASCII letters. *)
Definition toLowerCase : string -> string := map_chars lower_char.
Definition toUpperCase : string -> string := map_chars upper_char.

(** [s.includes(sub)] *)
Fixpoint includes (s sub : string) : bool :=
  match s with
  | EmptyString => String.prefix sub EmptyString
  | String _ rest => String.prefix sub s || includes rest sub
  end.

Definition is_space (c : ascii) : bool :=
  let n := nat_of_ascii c in
  (Nat.eqb n 32 || (Nat.leb 9 n && Nat.leb n 13))%bool.

Fixpoint trimStart (s : string) : string :=
  match s with
  | EmptyString => EmptyString
  | String c rest => if is_space c then trimStart rest else s
  end.

(** Drops the trailing white space: a character stays when something that
    is not white space follows it or it is not white space itself. *)
Fixpoint trimEnd (s : string) : string :=
  match s with
  | EmptyString => EmptyString
  | String c rest =>
      match trimEnd rest with
      | EmptyString => if is_space c then EmptyString else String c EmptyString
      | kept => String c kept
      end
  end.

Definition trim (s : string) : string := trimEnd (trimStart s).

(** Truthiness of a string: [!s] holds for the empty string. *)
Definition is_empty (s : string) : bool :=
  match s with EmptyString => true | _ => false end.

Definition max (a b : Z) : Z := Z.max a b.
Definition min (a b : Z) : Z := Z.min a b.

End JS.

(** ** Randomness

    One call of [Math.random()] consumes one entry of the tape.  An entry [k]
    stands for the double [(k mod 2^53) / 2^53], which lies in [0, 1).  An
    exhausted tape keeps answering 0. *)

Definition Rand (A : Type) : Type := list Z -> A * list Z.

Definition ret {A : Type} (a : A) : Rand A := fun tape => (a, tape).

Definition bind {A B : Type} (m : Rand A) (k : A -> Rand B) : Rand B :=
  fun tape => let (a, tape') := m tape in k a tape'.

Notation "x <- m ;; k" := (bind m (fun x => k))
  (at level 61, m at next level, right associativity).

Definition two53 : Z := 2 ^ 53.

(** The numerator of the next draw. *)
Definition Math_random : Rand Z :=
  fun tape =>
    match tape with
    | [] => (0, [])
    | k :: rest => (k mod two53, rest)
    end.

(** [const randomInt = (min, max) =>
      Math.floor(Math.random() * (max - min + 1)) + min] *)
Definition randomInt (min max : Z) : Rand Z :=
  u <- Math_random ;;
  ret ((u * (max - min + 1)) / two53 + min).

(** [Math.random() < 0.5] *)
Definition coinFlip : Rand bool :=
  u <- Math_random ;;
  ret (2 * u <? two53).

(** ** Column types *)

Definition uuid : Type := nat.
Bind Scope nat_scope with uuid.

Module Side.
Inductive t : Set := home | away.
Definition eq_dec (a b : t) : {a = b} + {a <> b}.
Proof. decide equality. Defined.
Definition other (s : t) : t := match s with home => away | away => home end.
End Side.

Module Phase.
Inductive t : Set := lobby | coin_toss | coin_toss_choice | kickoff | drive | finished.
Definition eq_dec (a b : t) : {a = b} + {a <> b}.
Proof. decide equality. Defined.
End Phase.

Module Sub.
Inductive t : Set := play_call | question | rolls | rolls_done.
Definition eq_dec (a b : t) : {a = b} + {a <> b}.
Proof. decide equality. Defined.
End Sub.

Module Status.
Inductive t : Set := lobby_open | in_progress | completed.
Definition eq_dec (a b : t) : {a = b} + {a <> b}.
Proof. decide equality. Defined.
End Status.

Module Role.
Inductive t : Set := ref | host | player.
Definition eq_dec (a b : t) : {a = b} + {a <> b}.
Proof. decide equality. Defined.
End Role.

Module PlayRole.
Inductive t : Set := offense | defense.
Definition eq_dec (a b : t) : {a = b} + {a <> b}.
Proof. decide equality. Defined.
End PlayRole.

Module Coin.
Inductive t : Set := heads | tails.
Definition eq_dec (a b : t) : {a = b} + {a <> b}.
Proof. decide equality. Defined.
End Coin.

Module Toss.
Inductive t : Set := receive | kick | defer.
Definition eq_dec (a b : t) : {a = b} + {a <> b}.
Proof. decide equality. Defined.
End Toss.

Definition option_eq_dec {A : Type} (dec : forall a b : A, {a = b} + {a <> b})
  (x y : option A) : {x = y} + {x <> y}.
Proof. decide equality. Defined.

(** [a === b] on nullable sides. *)
Definition side_is (x : option Side.t) (s : Side.t) : bool :=
  if option_eq_dec Side.eq_dec x (Some s) then true else false.

Module Mode.
Inductive t : Set := football | trivia.
Definition eq_dec (a b : t) : {a = b} + {a <> b}.
Proof. decide equality. Defined.
End Mode.

(** ** Rows

    [games]: the columns of [GameState] that the handlers read or write (team
    names, the quarter and the trivia columns are left out). *)

Module Game.

Record t : Type := mk {
  id : uuid;
  code : string;
  status : Status.t;
  mode : Mode.t;
  phase : Phase.t;
  play_subphase : option Sub.t;
  clock_seconds : Z;
  play_clock_seconds : Z;
  possession_side : option Side.t;
  offense_side : option Side.t;
  defense_side : option Side.t;
  down : Z;
  distance : Z;
  yard_line : Z;
  score_home : Z;
  score_away : Z;
  lobby_locked : option bool;
  host_player_id : option uuid;
  toss_result : option Coin.t;
  toss_winner_side : option Side.t;
  toss_choice : option Toss.t;
  second_half_kickoff_side : option Side.t;
  current_play_seq : option Z
}.

(** One setter per column that some handler writes. *)
Definition set_status (v : Status.t) (g : t) : t :=
  {| id := id g; code := code g; status := v; mode := mode g; phase := phase g;
     play_subphase := play_subphase g; clock_seconds := clock_seconds g;
     play_clock_seconds := play_clock_seconds g; possession_side := possession_side g;
     offense_side := offense_side g; defense_side := defense_side g; down := down g;
     distance := distance g; yard_line := yard_line g; score_home := score_home g;
     score_away := score_away g; lobby_locked := lobby_locked g;
     host_player_id := host_player_id g; toss_result := toss_result g;
     toss_winner_side := toss_winner_side g; toss_choice := toss_choice g;
     second_half_kickoff_side := second_half_kickoff_side g;
     current_play_seq := current_play_seq g |}.

Definition set_phase (v : Phase.t) (g : t) : t :=
  {| id := id g; code := code g; status := status g; mode := mode g; phase := v;
     play_subphase := play_subphase g; clock_seconds := clock_seconds g;
     play_clock_seconds := play_clock_seconds g; possession_side := possession_side g;
     offense_side := offense_side g; defense_side := defense_side g; down := down g;
     distance := distance g; yard_line := yard_line g; score_home := score_home g;
     score_away := score_away g; lobby_locked := lobby_locked g;
     host_player_id := host_player_id g; toss_result := toss_result g;
     toss_winner_side := toss_winner_side g; toss_choice := toss_choice g;
     second_half_kickoff_side := second_half_kickoff_side g;
     current_play_seq := current_play_seq g |}.

Definition set_play_subphase (v : option Sub.t) (g : t) : t :=
  {| id := id g; code := code g; status := status g; mode := mode g; phase := phase g;
     play_subphase := v; clock_seconds := clock_seconds g;
     play_clock_seconds := play_clock_seconds g; possession_side := possession_side g;
     offense_side := offense_side g; defense_side := defense_side g; down := down g;
     distance := distance g; yard_line := yard_line g; score_home := score_home g;
     score_away := score_away g; lobby_locked := lobby_locked g;
     host_player_id := host_player_id g; toss_result := toss_result g;
     toss_winner_side := toss_winner_side g; toss_choice := toss_choice g;
     second_half_kickoff_side := second_half_kickoff_side g;
     current_play_seq := current_play_seq g |}.

Definition set_clock_seconds (v : Z) (g : t) : t :=
  {| id := id g; code := code g; status := status g; mode := mode g; phase := phase g;
     play_subphase := play_subphase g; clock_seconds := v;
     play_clock_seconds := play_clock_seconds g; possession_side := possession_side g;
     offense_side := offense_side g; defense_side := defense_side g; down := down g;
     distance := distance g; yard_line := yard_line g; score_home := score_home g;
     score_away := score_away g; lobby_locked := lobby_locked g;
     host_player_id := host_player_id g; toss_result := toss_result g;
     toss_winner_side := toss_winner_side g; toss_choice := toss_choice g;
     second_half_kickoff_side := second_half_kickoff_side g;
     current_play_seq := current_play_seq g |}.

Definition set_play_clock_seconds (v : Z) (g : t) : t :=
  {| id := id g; code := code g; status := status g; mode := mode g; phase := phase g;
     play_subphase := play_subphase g; clock_seconds := clock_seconds g;
     play_clock_seconds := v; possession_side := possession_side g;
     offense_side := offense_side g; defense_side := defense_side g; down := down g;
     distance := distance g; yard_line := yard_line g; score_home := score_home g;
     score_away := score_away g; lobby_locked := lobby_locked g;
     host_player_id := host_player_id g; toss_result := toss_result g;
     toss_winner_side := toss_winner_side g; toss_choice := toss_choice g;
     second_half_kickoff_side := second_half_kickoff_side g;
     current_play_seq := current_play_seq g |}.

Definition set_possession_side (v : option Side.t) (g : t) : t :=
  {| id := id g; code := code g; status := status g; mode := mode g; phase := phase g;
     play_subphase := play_subphase g; clock_seconds := clock_seconds g;
     play_clock_seconds := play_clock_seconds g; possession_side := v;
     offense_side := offense_side g; defense_side := defense_side g; down := down g;
     distance := distance g; yard_line := yard_line g; score_home := score_home g;
     score_away := score_away g; lobby_locked := lobby_locked g;
     host_player_id := host_player_id g; toss_result := toss_result g;
     toss_winner_side := toss_winner_side g; toss_choice := toss_choice g;
     second_half_kickoff_side := second_half_kickoff_side g;
     current_play_seq := current_play_seq g |}.

Definition set_offense_side (v : option Side.t) (g : t) : t :=
  {| id := id g; code := code g; status := status g; mode := mode g; phase := phase g;
     play_subphase := play_subphase g; clock_seconds := clock_seconds g;
     play_clock_seconds := play_clock_seconds g; possession_side := possession_side g;
     offense_side := v; defense_side := defense_side g; down := down g;
     distance := distance g; yard_line := yard_line g; score_home := score_home g;
     score_away := score_away g; lobby_locked := lobby_locked g;
     host_player_id := host_player_id g; toss_result := toss_result g;
     toss_winner_side := toss_winner_side g; toss_choice := toss_choice g;
     second_half_kickoff_side := second_half_kickoff_side g;
     current_play_seq := current_play_seq g |}.

Definition set_defense_side (v : option Side.t) (g : t) : t :=
  {| id := id g; code := code g; status := status g; mode := mode g; phase := phase g;
     play_subphase := play_subphase g; clock_seconds := clock_seconds g;
     play_clock_seconds := play_clock_seconds g; possession_side := possession_side g;
     offense_side := offense_side g; defense_side := v; down := down g;
     distance := distance g; yard_line := yard_line g; score_home := score_home g;
     score_away := score_away g; lobby_locked := lobby_locked g;
     host_player_id := host_player_id g; toss_result := toss_result g;
     toss_winner_side := toss_winner_side g; toss_choice := toss_choice g;
     second_half_kickoff_side := second_half_kickoff_side g;
     current_play_seq := current_play_seq g |}.

Definition set_down (v : Z) (g : t) : t :=
  {| id := id g; code := code g; status := status g; mode := mode g; phase := phase g;
     play_subphase := play_subphase g; clock_seconds := clock_seconds g;
     play_clock_seconds := play_clock_seconds g; possession_side := possession_side g;
     offense_side := offense_side g; defense_side := defense_side g; down := v;
     distance := distance g; yard_line := yard_line g; score_home := score_home g;
     score_away := score_away g; lobby_locked := lobby_locked g;
     host_player_id := host_player_id g; toss_result := toss_result g;
     toss_winner_side := toss_winner_side g; toss_choice := toss_choice g;
     second_half_kickoff_side := second_half_kickoff_side g;
     current_play_seq := current_play_seq g |}.

Definition set_distance (v : Z) (g : t) : t :=
  {| id := id g; code := code g; status := status g; mode := mode g; phase := phase g;
     play_subphase := play_subphase g; clock_seconds := clock_seconds g;
     play_clock_seconds := play_clock_seconds g; possession_side := possession_side g;
     offense_side := offense_side g; defense_side := defense_side g; down := down g;
     distance := v; yard_line := yard_line g; score_home := score_home g;
     score_away := score_away g; lobby_locked := lobby_locked g;
     host_player_id := host_player_id g; toss_result := toss_result g;
     toss_winner_side := toss_winner_side g; toss_choice := toss_choice g;
     second_half_kickoff_side := second_half_kickoff_side g;
     current_play_seq := current_play_seq g |}.

Definition set_yard_line (v : Z) (g : t) : t :=
  {| id := id g; code := code g; status := status g; mode := mode g; phase := phase g;
     play_subphase := play_subphase g; clock_seconds := clock_seconds g;
     play_clock_seconds := play_clock_seconds g; possession_side := possession_side g;
     offense_side := offense_side g; defense_side := defense_side g; down := down g;
     distance := distance g; yard_line := v; score_home := score_home g;
     score_away := score_away g; lobby_locked := lobby_locked g;
     host_player_id := host_player_id g; toss_result := toss_result g;
     toss_winner_side := toss_winner_side g; toss_choice := toss_choice g;
     second_half_kickoff_side := second_half_kickoff_side g;
     current_play_seq := current_play_seq g |}.

Definition set_score_home (v : Z) (g : t) : t :=
  {| id := id g; code := code g; status := status g; mode := mode g; phase := phase g;
     play_subphase := play_subphase g; clock_seconds := clock_seconds g;
     play_clock_seconds := play_clock_seconds g; possession_side := possession_side g;
     offense_side := offense_side g; defense_side := defense_side g; down := down g;
     distance := distance g; yard_line := yard_line g; score_home := v;
     score_away := score_away g; lobby_locked := lobby_locked g;
     host_player_id := host_player_id g; toss_result := toss_result g;
     toss_winner_side := toss_winner_side g; toss_choice := toss_choice g;
     second_half_kickoff_side := second_half_kickoff_side g;
     current_play_seq := current_play_seq g |}.

Definition set_score_away (v : Z) (g : t) : t :=
  {| id := id g; code := code g; status := status g; mode := mode g; phase := phase g;
     play_subphase := play_subphase g; clock_seconds := clock_seconds g;
     play_clock_seconds := play_clock_seconds g; possession_side := possession_side g;
     offense_side := offense_side g; defense_side := defense_side g; down := down g;
     distance := distance g; yard_line := yard_line g; score_home := score_home g;
     score_away := v; lobby_locked := lobby_locked g;
     host_player_id := host_player_id g; toss_result := toss_result g;
     toss_winner_side := toss_winner_side g; toss_choice := toss_choice g;
     second_half_kickoff_side := second_half_kickoff_side g;
     current_play_seq := current_play_seq g |}.

Definition set_lobby_locked (v : option bool) (g : t) : t :=
  {| id := id g; code := code g; status := status g; mode := mode g; phase := phase g;
     play_subphase := play_subphase g; clock_seconds := clock_seconds g;
     play_clock_seconds := play_clock_seconds g; possession_side := possession_side g;
     offense_side := offense_side g; defense_side := defense_side g; down := down g;
     distance := distance g; yard_line := yard_line g; score_home := score_home g;
     score_away := score_away g; lobby_locked := v;
     host_player_id := host_player_id g; toss_result := toss_result g;
     toss_winner_side := toss_winner_side g; toss_choice := toss_choice g;
     second_half_kickoff_side := second_half_kickoff_side g;
     current_play_seq := current_play_seq g |}.

Definition set_host_player_id (v : option uuid) (g : t) : t :=
  {| id := id g; code := code g; status := status g; mode := mode g; phase := phase g;
     play_subphase := play_subphase g; clock_seconds := clock_seconds g;
     play_clock_seconds := play_clock_seconds g; possession_side := possession_side g;
     offense_side := offense_side g; defense_side := defense_side g; down := down g;
     distance := distance g; yard_line := yard_line g; score_home := score_home g;
     score_away := score_away g; lobby_locked := lobby_locked g; host_player_id := v;
     toss_result := toss_result g; toss_winner_side := toss_winner_side g;
     toss_choice := toss_choice g;
     second_half_kickoff_side := second_half_kickoff_side g;
     current_play_seq := current_play_seq g |}.

Definition set_toss_result (v : option Coin.t) (g : t) : t :=
  {| id := id g; code := code g; status := status g; mode := mode g; phase := phase g;
     play_subphase := play_subphase g; clock_seconds := clock_seconds g;
     play_clock_seconds := play_clock_seconds g; possession_side := possession_side g;
     offense_side := offense_side g; defense_side := defense_side g; down := down g;
     distance := distance g; yard_line := yard_line g; score_home := score_home g;
     score_away := score_away g; lobby_locked := lobby_locked g;
     host_player_id := host_player_id g; toss_result := v;
     toss_winner_side := toss_winner_side g; toss_choice := toss_choice g;
     second_half_kickoff_side := second_half_kickoff_side g;
     current_play_seq := current_play_seq g |}.

Definition set_toss_winner_side (v : option Side.t) (g : t) : t :=
  {| id := id g; code := code g; status := status g; mode := mode g; phase := phase g;
     play_subphase := play_subphase g; clock_seconds := clock_seconds g;
     play_clock_seconds := play_clock_seconds g; possession_side := possession_side g;
     offense_side := offense_side g; defense_side := defense_side g; down := down g;
     distance := distance g; yard_line := yard_line g; score_home := score_home g;
     score_away := score_away g; lobby_locked := lobby_locked g;
     host_player_id := host_player_id g; toss_result := toss_result g;
     toss_winner_side := v; toss_choice := toss_choice g;
     second_half_kickoff_side := second_half_kickoff_side g;
     current_play_seq := current_play_seq g |}.

Definition set_toss_choice (v : option Toss.t) (g : t) : t :=
  {| id := id g; code := code g; status := status g; mode := mode g; phase := phase g;
     play_subphase := play_subphase g; clock_seconds := clock_seconds g;
     play_clock_seconds := play_clock_seconds g; possession_side := possession_side g;
     offense_side := offense_side g; defense_side := defense_side g; down := down g;
     distance := distance g; yard_line := yard_line g; score_home := score_home g;
     score_away := score_away g; lobby_locked := lobby_locked g;
     host_player_id := host_player_id g; toss_result := toss_result g;
     toss_winner_side := toss_winner_side g; toss_choice := v;
     second_half_kickoff_side := second_half_kickoff_side g;
     current_play_seq := current_play_seq g |}.

Definition set_second_half_kickoff_side (v : option Side.t) (g : t) : t :=
  {| id := id g; code := code g; status := status g; mode := mode g; phase := phase g;
     play_subphase := play_subphase g; clock_seconds := clock_seconds g;
     play_clock_seconds := play_clock_seconds g; possession_side := possession_side g;
     offense_side := offense_side g; defense_side := defense_side g; down := down g;
     distance := distance g; yard_line := yard_line g; score_home := score_home g;
     score_away := score_away g; lobby_locked := lobby_locked g;
     host_player_id := host_player_id g; toss_result := toss_result g;
     toss_winner_side := toss_winner_side g; toss_choice := toss_choice g;
     second_half_kickoff_side := v; current_play_seq := current_play_seq g |}.

Definition set_current_play_seq (v : option Z) (g : t) : t :=
  {| id := id g; code := code g; status := status g; mode := mode g; phase := phase g;
     play_subphase := play_subphase g; clock_seconds := clock_seconds g;
     play_clock_seconds := play_clock_seconds g; possession_side := possession_side g;
     offense_side := offense_side g; defense_side := defense_side g; down := down g;
     distance := distance g; yard_line := yard_line g; score_home := score_home g;
     score_away := score_away g; lobby_locked := lobby_locked g;
     host_player_id := host_player_id g; toss_result := toss_result g;
     toss_winner_side := toss_winner_side g; toss_choice := toss_choice g;
     second_half_kickoff_side := second_half_kickoff_side g; current_play_seq := v |}.

(** [.update({ ... })] on one row: the assignments of the object, in order. *)
Definition update (cols : list (t -> t)) (g : t) : t :=
  fold_left (fun row col => col row) cols g.

(** A freshly inserted row: the schema's column defaults. *)
Definition fresh (i : uuid) (c : string) (st : Status.t) (m : Mode.t) : t :=
  {| id := i; code := c; status := st; mode := m; phase := Phase.lobby;
     play_subphase := None; clock_seconds := 900; play_clock_seconds := 40;
     possession_side := None; offense_side := None; defense_side := None;
     down := 1; distance := 10; yard_line := 25; score_home := 0; score_away := 0;
     lobby_locked := Some false; host_player_id := None;
     toss_result := None; toss_winner_side := None; toss_choice := None;
     second_half_kickoff_side := None; current_play_seq := Some 1 |}.

End Game.

(** [players] *)
Module Player.

Record t : Type := mk {
  id : uuid;
  game_id : uuid;
  display_name : string;
  role : Role.t;
  side : option Side.t;
  ready : bool
}.

Definition set_role (v : Role.t) (p : t) : t :=
  {| id := id p; game_id := game_id p; display_name := display_name p;
     role := v; side := side p; ready := ready p |}.

Definition set_side (v : option Side.t) (p : t) : t :=
  {| id := id p; game_id := game_id p; display_name := display_name p;
     role := role p; side := v; ready := ready p |}.

Definition set_ready (v : bool) (p : t) : t :=
  {| id := id p; game_id := game_id p; display_name := display_name p;
     role := role p; side := side p; ready := v |}.

End Player.

(** [play_calls]: one row per player and play sequence.  The generated [id]
    and [created_at] columns are never read and are left out. *)
Module PlayCall.

Record t : Type := mk {
  game_id : uuid;
  player_id : uuid;
  side : option Side.t;
  role : PlayRole.t;
  play_call : option string;
  difficulty : option string;
  seq : Z;
  answer : option bool;
  roll : option Z;
  ready_after_roll : bool
}.

Definition set_ready_after_roll (v : bool) (c : t) : t :=
  {| game_id := game_id c; player_id := player_id c; side := side c; role := role c;
     play_call := play_call c; difficulty := difficulty c; seq := seq c;
     answer := answer c; roll := roll c; ready_after_roll := v |}.

(** The columns of the unique constraint [unique_play_call_seq]. *)
Definition key (c : t) : uuid * uuid * Z := (game_id c, player_id c, seq c).

End PlayCall.

(** [plays]: the log of resolved plays ([result_text] is left out). *)
Module Play.

Record t : Type := mk {
  game_id : uuid;
  seq : Z;
  offense_side : option Side.t;
  defense_side : option Side.t;
  call_offense : string;
  call_defense : string;
  difficulty : string;
  offense_roll : Z;
  defense_roll : Z;
  offense_correct : bool;
  defense_correct : bool;
  yards : Z;
  turnover : bool
}.

End Play.

(** [game_events]: the timeline; the JSON payload is left out. *)
Module GameEvent.

Record t : Type := mk {
  game_id : uuid;
  type : string
}.

End GameEvent.

(** ** The database *)

Record DB : Type := mkDB {
  games : list Game.t;
  players : list Player.t;
  play_calls : list PlayCall.t;
  plays : list Play.t;
  game_events : list GameEvent.t;
  next_uuid : uuid
}.

Definition empty_db : DB :=
  {| games := []; players := []; play_calls := []; plays := [];
     game_events := []; next_uuid := 1%nat |}.

Definition with_games (v : list Game.t) (db : DB) : DB :=
  {| games := v; players := players db; play_calls := play_calls db;
     plays := plays db; game_events := game_events db; next_uuid := next_uuid db |}.

Definition with_players (v : list Player.t) (db : DB) : DB :=
  {| games := games db; players := v; play_calls := play_calls db;
     plays := plays db; game_events := game_events db; next_uuid := next_uuid db |}.

Definition with_play_calls (v : list PlayCall.t) (db : DB) : DB :=
  {| games := games db; players := players db; play_calls := v;
     plays := plays db; game_events := game_events db; next_uuid := next_uuid db |}.

Definition with_plays (v : list Play.t) (db : DB) : DB :=
  {| games := games db; players := players db; play_calls := play_calls db;
     plays := v; game_events := game_events db; next_uuid := next_uuid db |}.

Definition with_game_events (v : list GameEvent.t) (db : DB) : DB :=
  {| games := games db; players := players db; play_calls := play_calls db;
     plays := plays db; game_events := v; next_uuid := next_uuid db |}.

Definition with_next_uuid (v : uuid) (db : DB) : DB :=
  {| games := games db; players := players db; play_calls := play_calls db;
     plays := plays db; game_events := game_events db; next_uuid := v |}.

(** *** The query builder *)

(** [.single()] and [.maybeSingle()]: the row when the query has exactly one;
    with no row or several the handler sees [data: null]. *)
Definition single {A : Type} (rows : list A) : option A :=
  match rows with
  | [r] => Some r
  | _ => None
  end.

Definition uuid_eqb (a b : uuid) : bool := Nat.eqb a b.

(** [from("games").select(...).eq("id", gameId)] *)
Definition games_by_id (gameId : uuid) (db : DB) : list Game.t :=
  filter (fun g => uuid_eqb (Game.id g) gameId) (games db).

(** [from("games").update(cols).eq("id", gameId)] *)
Definition update_game (gameId : uuid) (cols : list (Game.t -> Game.t)) (db : DB) : DB :=
  with_games
    (map (fun g => if uuid_eqb (Game.id g) gameId then Game.update cols g else g)
       (games db))
    db.

(** [from("players").select(...).eq("id", playerId).eq("game_id", gameId)] *)
Definition players_by_id (playerId gameId : uuid) (db : DB) : list Player.t :=
  filter
    (fun p => uuid_eqb (Player.id p) playerId && uuid_eqb (Player.game_id p) gameId)
    (players db).

(** [from("play_calls").select(...).eq("game_id", gameId).eq("seq", seq)], in
    the order of the table. *)
Definition calls_of (gameId : uuid) (seq : Z) (db : DB) : list PlayCall.t :=
  filter
    (fun c => uuid_eqb (PlayCall.game_id c) gameId && (PlayCall.seq c =? seq))
    (play_calls db).

Definition role_is (r : PlayRole.t) (c : PlayCall.t) : bool :=
  if PlayRole.eq_dec (PlayCall.role c) r then true else false.

Definition game_exists (gameId : uuid) (db : DB) : bool :=
  existsb (fun g => uuid_eqb (Game.id g) gameId) (games db).

(** [logGameEvent(gameId, type, payload)] of [events.ts].  The timeline has a
    foreign key to [games]: an event for a game that does not exist is refused
    by the database, and [logGameEvent] ignores the error. *)
Definition logGameEvent (gameId : uuid) (type : string) (db : DB) : DB :=
  if game_exists gameId db
  then
    with_game_events
      (game_events db ++ [ {| GameEvent.game_id := gameId; GameEvent.type := type |} ])
      db
  else db.

(** [from("play_calls").upsert(object, { onConflict: "game_id,player_id,seq" })]:
    the object of an upsert.  [progress] holds [answer], [roll] and
    [ready_after_roll] for the two handlers whose object names them. *)
Module Upsert.

Record t : Type := mk {
  game_id : uuid;
  player_id : uuid;
  side : option Side.t;
  role : PlayRole.t;
  play_call : string;
  difficulty : string;
  seq : Z;
  progress : option (option bool * option Z * bool)
}.

Definition conflicts (u : t) (c : PlayCall.t) : bool :=
  uuid_eqb (PlayCall.game_id c) (game_id u)
  && uuid_eqb (PlayCall.player_id c) (player_id u)
  && (PlayCall.seq c =? seq u).

(** ON CONFLICT DO UPDATE: the columns of the object replace the row's, the
    others stay. *)
Definition overwrite (u : t) (c : PlayCall.t) : PlayCall.t :=
  {| PlayCall.game_id := game_id u;
     PlayCall.player_id := player_id u;
     PlayCall.side := side u;
     PlayCall.role := role u;
     PlayCall.play_call := Some (play_call u);
     PlayCall.difficulty := Some (difficulty u);
     PlayCall.seq := seq u;
     PlayCall.answer :=
       match progress u with Some (a, _, _) => a | None => PlayCall.answer c end;
     PlayCall.roll :=
       match progress u with Some (_, r, _) => r | None => PlayCall.roll c end;
     PlayCall.ready_after_roll :=
       match progress u with
       | Some (_, _, b) => b
       | None => PlayCall.ready_after_roll c
       end |}.

(** The inserted row: the columns the object leaves out take their defaults. *)
Definition inserted (u : t) : PlayCall.t :=
  {| PlayCall.game_id := game_id u;
     PlayCall.player_id := player_id u;
     PlayCall.side := side u;
     PlayCall.role := role u;
     PlayCall.play_call := Some (play_call u);
     PlayCall.difficulty := Some (difficulty u);
     PlayCall.seq := seq u;
     PlayCall.answer := match progress u with Some (a, _, _) => a | None => None end;
     PlayCall.roll := match progress u with Some (_, r, _) => r | None => None end;
     PlayCall.ready_after_roll :=
       match progress u with Some (_, _, b) => b | None => false end |}.

Definition run (u : t) (table : list PlayCall.t) : list PlayCall.t :=
  if existsb (conflicts u) table
  then map (fun c => if conflicts u c then overwrite u c else c) table
  else table ++ [inserted u].

End Upsert.

Definition upsert_play_call (u : Upsert.t) (db : DB) : DB :=
  with_play_calls (Upsert.run u (play_calls db)) db.

(** ** What a handler returns *)

Inductive ActionResult (A : Type) : Type :=
| Success (payload : A)
| Failure (error : string).

Arguments Success {A} payload.
Arguments Failure {A} error.

Definition succeeded {A : Type} (r : ActionResult A) : bool :=
  match r with Success _ => true | Failure _ => false end.

(** The payload of the play handlers: [message] and [game]. *)
Record Outcome : Type := mkOutcome {
  message : option string;
  game : option Game.t
}.

(** ** game.ts: coin toss and kickoff *)

Definition startCoinToss (gameId : uuid) (db : DB) : bool * DB :=
  let db1 :=
    update_game gameId
      [ Game.set_phase Phase.coin_toss;
        Game.set_clock_seconds 900;
        Game.set_play_clock_seconds 40;
        Game.set_down 1;
        Game.set_distance 10;
        Game.set_yard_line 25;
        Game.set_possession_side None;
        Game.set_offense_side None;
        Game.set_defense_side None;
        Game.set_play_subphase None;
        Game.set_toss_result None;
        Game.set_toss_winner_side None;
        Game.set_toss_choice None ] db in
  (true, logGameEvent gameId "coin_toss_started" db1).

(** The possession after the winner's choice: [defer] and [kick] both hand the
    ball to the other side. *)
Definition toss_possession (winner : Side.t) (choice : Toss.t) : Side.t :=
  let other := match winner with Side.home => Side.away | Side.away => Side.home end in
  match choice with
  | Toss.receive => winner
  | Toss.kick => other
  | Toss.defer => other
  end.

Definition toss_second_half (winner : Side.t) (choice : Toss.t) : Side.t :=
  let other := match winner with Side.home => Side.away | Side.away => Side.home end in
  match choice with
  | Toss.defer => winner
  | _ => other
  end.

(** [offense_side === "home" ? "away" : "home"] *)
Definition opposite (offense : Side.t) : Side.t :=
  match offense with Side.home => Side.away | Side.away => Side.home end.

Definition toss_coin (tape : list Z) : Coin.t :=
  if fst (coinFlip tape) then Coin.heads else Coin.tails.

Definition toss_winner (coin awayCall : Coin.t) : Side.t :=
  if Coin.eq_dec coin awayCall then Side.away else Side.home.

Definition resolveCoinTossAction (gameId : uuid) (awayCall : Coin.t)
  (winnerChoice : Toss.t) (tape : list Z) (db : DB)
  : ActionResult (Coin.t * Side.t * Toss.t) * DB :=
  let coin := toss_coin tape in
  let winner := toss_winner coin awayCall in
  let possession := toss_possession winner winnerChoice in
  let offense_side := possession in
  let defense_side := opposite offense_side in
  let second_half_kickoff_side := toss_second_half winner winnerChoice in
  let db1 :=
    update_game gameId
      [ Game.set_toss_result (Some coin);
        Game.set_toss_winner_side (Some winner);
        Game.set_toss_choice (Some winnerChoice);
        Game.set_possession_side (Some possession);
        Game.set_offense_side (Some offense_side);
        Game.set_defense_side (Some defense_side);
        Game.set_phase Phase.kickoff;
        Game.set_down 1;
        Game.set_distance 10;
        Game.set_yard_line 25;
        Game.set_clock_seconds 900;
        Game.set_play_clock_seconds 40;
        Game.set_play_subphase None;
        Game.set_second_half_kickoff_side (Some second_half_kickoff_side) ] db in
  (Success (coin, winner, winnerChoice), logGameEvent gameId "coin_toss_result" db1).

Definition is_ref (p : Player.t) : bool :=
  if Role.eq_dec (Player.role p) Role.ref then true else false.

Definition flipCoinAction (gameId requesterId : uuid) (awayCall : Coin.t)
  (tape : list Z) (db : DB) : ActionResult (Coin.t * Side.t) * DB :=
  match single (players_by_id requesterId gameId db) with
  | None => (Failure "Player not found.", db)
  | Some requester =>
      let isAllowed := side_is (Player.side requester) Side.away || is_ref requester in
      if negb isAllowed
      then (Failure "Only away side (or ref) can call the toss.", db)
      else
        let coin := toss_coin tape in
        let winner := toss_winner coin awayCall in
        let db1 :=
          update_game gameId
            [ Game.set_toss_result (Some coin);
              Game.set_toss_winner_side (Some winner);
              Game.set_toss_choice None;
              Game.set_phase Phase.coin_toss_choice ] db in
        (Success (coin, winner), logGameEvent gameId "coin_toss_flipped" db1)
  end.

Definition chooseTossOptionAction (gameId requesterId : uuid) (choice : Toss.t)
  (db : DB) : ActionResult unit * DB :=
  match option_map Game.toss_winner_side (single (games_by_id gameId db)) with
  | None | Some None => (Failure "Toss not resolved yet.", db)
  | Some (Some winner) =>
      match single (players_by_id requesterId gameId db) with
      | None => (Failure "Player not found.", db)
      | Some requester =>
          let isAllowed := is_ref requester || side_is (Player.side requester) winner in
          if negb isAllowed
          then (Failure "Only the toss winner (or ref) can choose.", db)
          else
            let possession := toss_possession winner choice in
            let offense_side := possession in
            let defense_side := opposite offense_side in
            let second_half_kickoff_side := toss_second_half winner choice in
            let db1 :=
              update_game gameId
                [ Game.set_toss_choice (Some choice);
                  Game.set_possession_side (Some possession);
                  Game.set_offense_side (Some offense_side);
                  Game.set_defense_side (Some defense_side);
                  Game.set_second_half_kickoff_side (Some second_half_kickoff_side);
                  Game.set_phase Phase.kickoff;
                  Game.set_down 1;
                  Game.set_distance 10;
                  Game.set_yard_line 25;
                  Game.set_clock_seconds 900;
                  Game.set_play_clock_seconds 40;
                  Game.set_play_subphase None ] db in
            (Success tt, logGameEvent gameId "coin_toss_choice" db1)
      end
  end.

Definition phase_is (g : Game.t) (p : Phase.t) : bool :=
  if Phase.eq_dec (Game.phase g) p then true else false.

Definition subphase_is (g : Game.t) (s : Sub.t) : bool :=
  if option_eq_dec Sub.eq_dec (Game.play_subphase g) (Some s) then true else false.

(** The message of the error [.single()] reports when the query does not have
    exactly one row; [gameError?.message || ...] passes it on. *)
Definition single_row_message : string :=
  "JSON object requested, multiple (or no) rows returned".

Definition resolveKickoffTouchbackAction (gameId : uuid) (db : DB)
  : ActionResult unit * DB :=
  match single (games_by_id gameId db) with
  | None => (Failure single_row_message, db)
  | Some g =>
      if negb (phase_is g Phase.kickoff)
      then (Failure "Not in kickoff phase.", db)
      else
        let possession := JS.nullish (Game.possession_side g) Side.home in
        let offense_side := possession in
        let defense_side := opposite offense_side in
        let db1 :=
          update_game gameId
            [ Game.set_phase Phase.drive;
              Game.set_offense_side (Some offense_side);
              Game.set_defense_side (Some defense_side);
              Game.set_down 1;
              Game.set_distance 10;
              Game.set_yard_line 25;
              Game.set_play_subphase (Some Sub.play_call) ] db in
        (Success tt, logGameEvent gameId "kickoff_touchback" db1)
  end.

(** [opts?.possession ?? game?.possession_side ?? "home"] *)
Definition reset_possession (optsPossession : option Side.t) (g : option Game.t)
  : Side.t :=
  match optsPossession with
  | Some s => s
  | None =>
      match g with
      | Some row => JS.nullish (Game.possession_side row) Side.home
      | None => Side.home
      end
  end.

(** The columns [yard_line] and [roll] are declared [int] in [schema.sql]: a
    write of a number outside the 32-bit range is refused by the database and
    changes no row.  Numbers are the integers here; a fraction, which an [int]
    column refuses in the same way, is outside this type. *)
Definition int4 (v : Z) : bool := (-2147483648 <=? v) && (v <=? 2147483647).

(** What the database reports for such a number.  The real text also quotes
    the value; the handlers pass it on unread. *)
Definition out_of_range_message : string := "value is out of range for type integer".

(** [from("play_calls").delete().eq("game_id", gameId)] *)
Definition delete_calls_of_game (gameId : uuid) (db : DB) : DB :=
  with_play_calls
    (filter (fun c => negb (uuid_eqb (PlayCall.game_id c) gameId)) (play_calls db))
    db.

Definition resetDriveAction (gameId requesterId : uuid)
  (optsPossession : option Side.t) (optsYardLine : option Z) (db : DB)
  : ActionResult (option Game.t) * DB :=
  match single (players_by_id requesterId gameId db) with
  | None => (Failure "Only the ref can reset the drive.", db)
  | Some requester =>
      if negb (is_ref requester)
      then (Failure "Only the ref can reset the drive.", db)
      else
        let g := single (games_by_id gameId db) in
        let possession := reset_possession optsPossession g in
        let offense_side := possession in
        let defense_side := opposite offense_side in
        let yard_line := JS.nullish optsYardLine 25 in
        (* if (error) return { success: false, error: error.message } *)
        if negb (int4 yard_line)
        then (Failure out_of_range_message, db)
        else
          let db1 :=
            update_game gameId
              [ Game.set_phase Phase.drive;
                Game.set_play_subphase (Some Sub.play_call);
                Game.set_down 1;
                Game.set_distance 10;
                Game.set_yard_line yard_line;
                Game.set_possession_side (Some possession);
                Game.set_offense_side (Some offense_side);
                Game.set_defense_side (Some defense_side);
                Game.set_current_play_seq (Some 1) ] db in
          let db2 := delete_calls_of_game gameId db1 in
          let db3 := logGameEvent gameId "drive_reset" db2 in
          (Success (single (games_by_id gameId db3)), db3)
  end.

(** ** game.ts: the play *)

Definition rollByDifficulty (difficulty : string) : Rand Z :=
  if String.eqb difficulty "easy" then randomInt 1 4
  else if String.eqb difficulty "medium" then
    a <- randomInt 1 4 ;; b <- randomInt 1 4 ;; ret (a + b)
  else if String.eqb difficulty "hard" then randomInt 1 10
  else if String.eqb difficulty "hail_mary" then randomInt 1 20
  else randomInt 1 4.

(** The matchup modifier and the [turnoverChance] flag. *)
Definition matchupMod (offense defense : string) (offenseCorrect : bool)
  : Rand (Z * bool) :=
  let o := JS.toLowerCase offense in
  let d := JS.toLowerCase defense in
  if JS.includes o "run" then
    if JS.includes d "run stop" then m <- randomInt (-3) (-1) ;; ret (m, false)
    else if JS.includes d "pass" then m <- randomInt 2 4 ;; ret (m, false)
    else if JS.includes d "blitz" then
      m <- (if offenseCorrect then randomInt 3 5 else randomInt (-3) (-1)) ;;
      ret (m, false)
    else ret (0, false)
  else if JS.includes o "screen" then
    if JS.includes d "blitz" then
      m <- (if offenseCorrect then randomInt 4 6 else randomInt (-2) 0) ;;
      ret (m, false)
    else m <- randomInt 0 2 ;; ret (m, false)
  else if JS.includes o "deep" || JS.includes o "hail" then
    if JS.includes d "pass" then m <- randomInt (-5) (-2) ;; ret (m, true)
    else if JS.includes d "blitz" then
      m <- (if offenseCorrect then randomInt 4 7 else randomInt (-6) (-3)) ;;
      ret (m, true)
    else ret (0, true)
  else if JS.includes o "pass" then
    if JS.includes d "pass" then m <- randomInt (-3) (-1) ;; ret (m, false)
    else if JS.includes d "run" then m <- randomInt 2 4 ;; ret (m, false)
    else if JS.includes d "blitz" then
      m <- (if offenseCorrect then randomInt 3 5 else randomInt (-4) (-2)) ;;
      ret (m, false)
    else ret (0, false)
  else if JS.includes o "trick" then m <- randomInt (-2) 6 ;; ret (m, false)
  else ret (0, false).

(** [["play_call", "question", null].includes(game.play_subphase ?? "")]:
    a null subphase becomes the empty string, which the array does not hold. *)
Definition accepts_play_calls (s : option Sub.t) : bool :=
  match s with
  | Some Sub.play_call | Some Sub.question => true
  | _ => false
  end.

Definition side_eqb (a b : option Side.t) : bool :=
  if option_eq_dec Side.eq_dec a b then true else false.

(** The object [submitPlayCallAction] upserts. *)
Definition call_object (gameId playerId : uuid) (p : Player.t) (role : PlayRole.t)
  (playCall difficulty : string) (seq : Z) : Upsert.t :=
  {| Upsert.game_id := gameId;
     Upsert.player_id := playerId;
     Upsert.side := Player.side p;
     Upsert.role := role;
     Upsert.play_call := playCall;
     Upsert.difficulty := difficulty;
     Upsert.seq := seq;
     Upsert.progress := None |}.

Definition submitPlayCallAction (gameId playerId : uuid) (role : PlayRole.t)
  (playCall difficulty : string) (db : DB) : ActionResult Outcome * DB :=
  match single (games_by_id gameId db) with
  | None => (Failure "Game not found.", db)
  | Some g =>
      if negb (phase_is g Phase.drive) || negb (accepts_play_calls (Game.play_subphase g))
      then (Failure "Not accepting play calls right now.", db)
      else
        match single (players_by_id playerId gameId db) with
        | None => (Failure "Player not found.", db)
        | Some p =>
            let expectedSide :=
              match role with
              | PlayRole.offense => Game.offense_side g
              | PlayRole.defense => Game.defense_side g
              end in
            if negb (side_eqb (Player.side p) expectedSide)
            then (Failure "You are not on this side for the current play.", db)
            else
              let currentSeq := JS.nullish (Game.current_play_seq g) 1 in
              let db1 :=
                upsert_play_call
                  (call_object gameId playerId p role playCall difficulty currentSeq)
                  db in
              let calls := calls_of gameId currentSeq db1 in
              let offenseDone := existsb (role_is PlayRole.offense) calls in
              let defenseDone := existsb (role_is PlayRole.defense) calls in
              if offenseDone && defenseDone
              then
                let db2 :=
                  update_game gameId [ Game.set_play_subphase (Some Sub.question) ] db1 in
                let updatedGame := single (games_by_id gameId db2) in
                let db3 := logGameEvent gameId "play_calls_locked" db2 in
                (Success {| message := None; game := updatedGame |}, db3)
              else
                let db2 := logGameEvent gameId "play_call_submitted" db1 in
                let db3 :=
                  update_game gameId [ Game.set_play_subphase (Some Sub.play_call) ] db2 in
                let updatedGame := single (games_by_id gameId db3) in
                (Success {| message := None; game := updatedGame |}, db3)
        end
  end.

(** [forSide ?? (player.side === game.offense_side ? "offense"
       : player.side === game.defense_side ? "defense" : "offense")] *)
Definition targetRoleOf (forSide : option PlayRole.t) (p : Player.t) (g : Game.t)
  : PlayRole.t :=
  match forSide with
  | Some r => r
  | None =>
      if side_eqb (Player.side p) (Game.offense_side g) then PlayRole.offense
      else if side_eqb (Player.side p) (Game.defense_side g) then PlayRole.defense
      else PlayRole.offense
  end.

(** [call?.column ?? fallback] on an optional row with a nullable column. *)
Definition column_or {A : Type} (row : option PlayCall.t)
  (column : PlayCall.t -> option A) (fallback : A) : A :=
  match row with
  | Some c => JS.nullish (column c) fallback
  | None => fallback
  end.

(** The object both [submitQuestionAnswerAction] and [submitRollAction]
    upsert, up to the answer and the roll they store. *)
Definition progress_object (gameId playerId : uuid) (p : Player.t)
  (targetRole : PlayRole.t) (offenseCall defenseCall : option PlayCall.t)
  (seq : Z) (answer : option bool) (roll : option Z) (ready : bool) : Upsert.t :=
  let offensePlay := column_or offenseCall PlayCall.play_call "Run" in
  let offenseDiff := column_or offenseCall PlayCall.difficulty "easy" in
  let defensePlay := column_or defenseCall PlayCall.play_call "Pass D" in
  {| Upsert.game_id := gameId;
     Upsert.player_id := playerId;
     Upsert.side := Player.side p;
     Upsert.role := targetRole;
     Upsert.play_call :=
       match targetRole with
       | PlayRole.offense => offensePlay
       | PlayRole.defense => defensePlay
       end;
     Upsert.difficulty :=
       match targetRole with
       | PlayRole.offense => offenseDiff
       | PlayRole.defense => "n/a"
       end;
     Upsert.seq := seq;
     Upsert.progress := Some (answer, roll, ready) |}.

Definition submitQuestionAnswerAction (gameId playerId : uuid) (isCorrect : bool)
  (forSide : option PlayRole.t) (manualRoll : option Z) (db : DB)
  : ActionResult Outcome * DB :=
  match single (games_by_id gameId db) with
  | None => (Failure "Game not found.", db)
  | Some g =>
      if negb (phase_is g Phase.drive) || negb (subphase_is g Sub.question)
      then (Failure "Not accepting answers right now.", db)
      else
        match single (players_by_id playerId gameId db) with
        | None => (Failure "Player not found.", db)
        | Some p =>
            if negb (is_ref p)
               && negb (side_eqb (Player.side p) (Game.offense_side g))
               && negb (side_eqb (Player.side p) (Game.defense_side g))
            then (Failure "Not part of this play.", db)
            else
              let seq := JS.nullish (Game.current_play_seq g) 1 in
              let calls := calls_of gameId seq db in
              let offenseCall := find (role_is PlayRole.offense) calls in
              let defenseCall := find (role_is PlayRole.defense) calls in
              let targetRole := targetRoleOf forSide p g in
              let existing := find (role_is targetRole) calls in
              let db1 :=
                upsert_play_call
                  (progress_object gameId playerId p targetRole offenseCall defenseCall
                     seq (Some isCorrect)
                     (match existing with Some c => PlayCall.roll c | None => None end)
                     (match existing with
                      | Some c => PlayCall.ready_after_roll c
                      | None => false
                      end)) db in
              let answers := calls_of gameId seq db1 in
              let offenseAnswer := find (role_is PlayRole.offense) answers in
              let defenseAnswer := find (role_is PlayRole.defense) answers in
              match
                option_map PlayCall.answer offenseAnswer,
                option_map PlayCall.answer defenseAnswer
              with
              | Some (Some _), Some (Some _) =>
                  let db2 :=
                    update_game gameId [ Game.set_play_subphase (Some Sub.rolls) ] db1 in
                  let db3 := logGameEvent gameId "rolls_started" db2 in
                  (Success
                     {| message := Some "Answers locked. Proceed to roll.";
                        game := None |}, db3)
              | _, _ =>
                  let db2 := logGameEvent gameId "answer_submitted" db1 in
                  (Success
                     {| message := Some "Answer recorded. Waiting for other side.";
                        game := None |}, db2)
              end
        end
  end.

Definition submitRollAction (gameId playerId : uuid) (manualRoll : option Z)
  (forSide : option PlayRole.t) (tape : list Z) (db : DB)
  : ActionResult Outcome * DB :=
  match single (games_by_id gameId db) with
  | None => (Failure "Game not found.", db)
  | Some g =>
      if negb (phase_is g Phase.drive) || negb (subphase_is g Sub.rolls)
      then (Failure "Not accepting rolls right now.", db)
      else
        match single (players_by_id playerId gameId db) with
        | None => (Failure "Player not found.", db)
        | Some p =>
            let seq := JS.nullish (Game.current_play_seq g) 1 in
            let calls := calls_of gameId seq db in
            let offenseCall := find (role_is PlayRole.offense) calls in
            let defenseCall := find (role_is PlayRole.defense) calls in
            let targetRole := targetRoleOf forSide p g in
            let existing := find (role_is targetRole) calls in
            match existing with
            | Some {| PlayCall.roll := Some _ |} =>
                (Failure "Roll already submitted for this side.", db)
            | _ =>
                let offenseDiff := column_or offenseCall PlayCall.difficulty "easy" in
                let rollVal :=
                  match manualRoll with
                  | Some r => r
                  | None =>
                      match targetRole with
                      | PlayRole.offense => fst (rollByDifficulty offenseDiff tape)
                      | PlayRole.defense => fst (randomInt 1 4 tape)
                      end
                  end in
                (* the result of the upsert is not read: a roll the column
                   refuses is dropped, and the handler goes on *)
                let db1 :=
                  if int4 rollVal
                  then
                    upsert_play_call
                      (progress_object gameId playerId p targetRole offenseCall
                         defenseCall seq
                         (match existing with
                          | Some c => PlayCall.answer c
                          | None => None
                          end)
                         (Some rollVal)
                         (match existing with
                          | Some c => PlayCall.ready_after_roll c
                          | None => false
                          end)) db
                  else db in
                let updatedCalls := calls_of gameId seq db1 in
                let offenseRoll :=
                  match find (role_is PlayRole.offense) updatedCalls with
                  | Some c => PlayCall.roll c
                  | None => None
                  end in
                let defenseRoll :=
                  match find (role_is PlayRole.defense) updatedCalls with
                  | Some c => PlayCall.roll c
                  | None => None
                  end in
                let db2 := logGameEvent gameId "roll_submitted" db1 in
                let db3 :=
                  match offenseRoll, defenseRoll with
                  | Some _, Some _ =>
                      logGameEvent gameId "rolls_completed"
                        (update_game gameId
                           [ Game.set_play_subphase (Some Sub.rolls_done) ] db2)
                  | _, _ => db2
                  end in
                (Success {| message := Some "Roll recorded."; game := None |}, db3)
            end
        end
  end.

(** *** [finalizePlayResolution]

    The body is cut in two: [resolveYards] is the dice and yardage part (up to
    the clamp [yards = Math.max(-20, Math.min(60, yards))]), [advance] is the
    down, possession and scoring part that follows it. *)

Record Resolved : Type := mkResolved {
  offensePlay : string;
  defensePlay : string;
  offenseDiff : string;
  dieOffense : Z;
  dieDefense : Z;
  finalOffenseCorrect : bool;
  finalDefenseCorrect : bool;
  yards : Z
}.

(** The yardage before the matchup modifier. *)
Definition baseYards (playLower offenseDiff : string) (isHail isPassLike : bool)
  (finalOffenseCorrect : bool) (dieOffense : Z) : Rand Z :=
  if isHail then
    if finalOffenseCorrect
    then if dieOffense >=? 17 then randomInt 30 50 else randomInt 12 24
    else ret 0
  else if isPassLike then
    if finalOffenseCorrect
    then ret (dieOffense + (if String.eqb offenseDiff "hard" then 3 else 1))
    else ret 0
  else if JS.includes playLower "run" then
    if finalOffenseCorrect then ret (dieOffense + 1)
    else r <- randomInt 1 3 ;; ret (- r)
  else
    if finalOffenseCorrect then ret dieOffense
    else r <- randomInt 1 2 ;; ret (- r).

(** The defense's share: a correct defense halves the gain and, against a wrong
    offense, adds a loss; a correct offense alone adds two yards. *)
Definition defenseAdjust (isPassLike finalOffenseCorrect finalDefenseCorrect : bool)
  (rollDiff yards : Z) : Rand Z :=
  if finalDefenseCorrect then
    let halved := yards / 2 in
    if negb finalOffenseCorrect then
      r <- randomInt 1 3 ;;
      let y := halved - r in
      if isPassLike && (rollDiff >? 2)
      then s <- randomInt 0 2 ;; ret (y - s)
      else ret y
    else ret halved
  else if finalOffenseCorrect then ret (yards + 2)
  else ret yards.

Definition resolveYards (offense defense : PlayCall.t) : Rand Resolved :=
  let offensePlay := JS.nullish (PlayCall.play_call offense) "Run" in
  let offenseDiff := JS.nullish (PlayCall.difficulty offense) "easy" in
  let defensePlay := JS.nullish (PlayCall.play_call defense) "Pass D" in
  dieOffense <-
    match PlayCall.roll offense with
    | Some r => ret r
    | None => rollByDifficulty offenseDiff
    end ;;
  dieDefense <-
    match PlayCall.roll defense with
    | Some r => ret r
    | None => randomInt 1 4
    end ;;
  let finalOffenseCorrect := JS.nullish (PlayCall.answer offense) false in
  let finalDefenseCorrect := JS.nullish (PlayCall.answer defense) false in
  let playLower := JS.toLowerCase offensePlay in
  let isPassLike :=
    JS.includes playLower "pass" || JS.includes playLower "screen"
    || JS.includes playLower "hail" in
  let isHail := JS.includes playLower "hail" in
  let rollDiff := dieDefense - dieOffense in
  yards0 <- baseYards playLower offenseDiff isHail isPassLike finalOffenseCorrect
              dieOffense ;;
  mt <- matchupMod offensePlay defensePlay finalOffenseCorrect ;;
  let mod_ := fst mt in
  let turnoverChance := snd mt in
  let appliedMod :=
    if isPassLike && negb finalOffenseCorrect && negb finalDefenseCorrect
    then JS.max 0 mod_
    else mod_ in
  let yards1 := yards0 + appliedMod in
  yards2 <- defenseAdjust isPassLike finalOffenseCorrect finalDefenseCorrect rollDiff
              yards1 ;;
  yards3 <-
    (if isHail && negb finalOffenseCorrect && (dieOffense <=? 3) && turnoverChance
     then r <- randomInt 5 12 ;; ret (- r)
     else ret yards2) ;;
  ret {| offensePlay := offensePlay;
         defensePlay := defensePlay;
         offenseDiff := offenseDiff;
         dieOffense := dieOffense;
         dieDefense := dieDefense;
         finalOffenseCorrect := finalOffenseCorrect;
         finalDefenseCorrect := finalDefenseCorrect;
         yards := JS.max (-20) (JS.min 60 yards3) |}.

(** What [advance] computes from the game row and the clamped yardage: the
    columns of the update and the [gained] and [turnover] of the play log. *)
Record Advance : Type := mkAdvance {
  newYardLine : Z;
  gained : Z;
  turnover : bool;
  nextDown : Z;
  nextDistance : Z;
  nextYardLine : Z;
  possession : option Side.t;
  offenseSide : option Side.t;
  defenseSide : option Side.t;
  scoreHome : Z;
  scoreAway : Z;
  phase : Phase.t
}.

(** [Math.min(100, Math.max(0, game.yard_line +
      (game.offense_side === "home" ? yards : -yards)))] *)
Definition yardLineAfter (g : Game.t) (yards : Z) : Z :=
  JS.min 100
    (JS.max 0
       (Game.yard_line g
        + (if side_is (Game.offense_side g) Side.home then yards else - yards))).

(** [game.offense_side === "home" ? newYardLine - game.yard_line
      : game.yard_line - newYardLine] *)
Definition gainedBy (g : Game.t) (yards : Z) : Z :=
  if side_is (Game.offense_side g) Side.home
  then yardLineAfter g yards - Game.yard_line g
  else Game.yard_line g - yardLineAfter g yards.

Definition advance (g : Game.t) (yards : Z) : Advance :=
  let homeOffense := side_is (Game.offense_side g) Side.home in
  let awayOffense := side_is (Game.offense_side g) Side.away in
  let newYardLine := yardLineAfter g yards in
  let gained := gainedBy g yards in
  let remaining := Game.distance g - gained in
  (* let nextDown = game.down; let nextDistance = remaining > 0 ? remaining : 10 *)
  let nextDistance0 := if remaining >? 0 then remaining else 10 in
  (* first down achieved, or the down goes up *)
  let nextDown1 := if remaining <=? 0 then 1 else Game.down g + 1 in
  let nextDistance1 := if remaining <=? 0 then 10 else nextDistance0 in
  (* turnover on downs *)
  let turnover := nextDown1 >? 4 in
  let nextDown2 := if turnover then 1 else nextDown1 in
  let nextDistance2 := if turnover then 10 else nextDistance1 in
  let possession2 := if turnover then Game.defense_side g else Game.offense_side g in
  let offenseSide2 := if turnover then Game.defense_side g else Game.offense_side g in
  let defenseSide2 := if turnover then Game.offense_side g else Game.defense_side g in
  (* touchdown *)
  if homeOffense && (newYardLine >=? 100) then
    {| newYardLine := newYardLine; gained := gained; turnover := turnover;
       nextDown := 1; nextDistance := 10; nextYardLine := 25;
       possession := Some Side.away; offenseSide := Some Side.away;
       defenseSide := Some Side.home;
       scoreHome := Game.score_home g + 7; scoreAway := Game.score_away g;
       phase := Phase.kickoff |}
  else if awayOffense && (newYardLine <=? 0) then
    {| newYardLine := newYardLine; gained := gained; turnover := turnover;
       nextDown := 1; nextDistance := 10; nextYardLine := 25;
       possession := Some Side.home; offenseSide := Some Side.home;
       defenseSide := Some Side.away;
       scoreHome := Game.score_home g; scoreAway := Game.score_away g + 7;
       phase := Phase.kickoff |}
  else
    {| newYardLine := newYardLine; gained := gained; turnover := turnover;
       nextDown := nextDown2; nextDistance := nextDistance2;
       nextYardLine := newYardLine;
       possession := possession2; offenseSide := offenseSide2;
       defenseSide := defenseSide2;
       scoreHome := Game.score_home g; scoreAway := Game.score_away g;
       phase := Game.phase g |}.

(** [from("play_calls").delete().eq("game_id", gameId).eq("seq", nextSeq)] *)
Definition delete_calls_of_seq (gameId : uuid) (seq : Z) (db : DB) : DB :=
  with_play_calls
    (filter
       (fun c => negb (uuid_eqb (PlayCall.game_id c) gameId && (PlayCall.seq c =? seq)))
       (play_calls db))
    db.

Definition insert_play (row : Play.t) (db : DB) : DB :=
  with_plays (plays db ++ [row]) db.

(** The object of the update that ends [finalizePlayResolution]. *)
Definition resolved_columns (a : Advance) (nextSeq : Z) : list (Game.t -> Game.t) :=
  [ Game.set_play_subphase
      (if Phase.eq_dec (phase a) Phase.kickoff then None else Some Sub.play_call);
    Game.set_phase (phase a);
    Game.set_down (nextDown a);
    Game.set_distance (nextDistance a);
    Game.set_yard_line (nextYardLine a);
    Game.set_possession_side (possession a);
    Game.set_offense_side (offenseSide a);
    Game.set_defense_side (defenseSide a);
    Game.set_score_home (scoreHome a);
    Game.set_score_away (scoreAway a);
    Game.set_current_play_seq (Some nextSeq) ].

Definition finalizePlayResolution (gameId : uuid) (seq : Z) (tape : list Z) (db : DB)
  : ActionResult Outcome * DB :=
  match single (games_by_id gameId db) with
  | None => (Failure "Game not found.", db)
  | Some g =>
      let calls := calls_of gameId seq db in
      match find (role_is PlayRole.offense) calls, find (role_is PlayRole.defense) calls with
      | Some offense, Some defense =>
          let r := fst (resolveYards offense defense tape) in
          let a := advance g (yards r) in
          let nextSeq := JS.nullish (Game.current_play_seq g) 1 + 1 in
          let db1 := update_game gameId (resolved_columns a nextSeq) db in
          let updatedGame := single (games_by_id gameId db1) in
          let db2 := delete_calls_of_seq gameId nextSeq db1 in
          let db3 :=
            insert_play
              {| Play.game_id := gameId;
                 Play.seq := seq;
                 Play.offense_side := Game.offense_side g;
                 Play.defense_side := Game.defense_side g;
                 Play.call_offense := offensePlay r;
                 Play.call_defense := defensePlay r;
                 Play.difficulty := offenseDiff r;
                 Play.offense_roll := dieOffense r;
                 Play.defense_roll := dieDefense r;
                 Play.offense_correct := finalOffenseCorrect r;
                 Play.defense_correct := finalDefenseCorrect r;
                 Play.yards := gained a;
                 Play.turnover := turnover a |} db2 in
          let db4 := logGameEvent gameId "play_resolved" db3 in
          (Success {| message := None; game := updatedGame |}, db4)
      | _, _ => (Failure "Missing play data.", db)
      end
  end.

(** [from("play_calls").update({ ready_after_roll: true })
      .eq("game_id", gameId).eq("seq", seq).eq("role", targetRole)] *)
Definition mark_ready (gameId : uuid) (seq : Z) (targetRole : PlayRole.t) (db : DB)
  : DB :=
  with_play_calls
    (map
       (fun c =>
          if uuid_eqb (PlayCall.game_id c) gameId && (PlayCall.seq c =? seq)
             && role_is targetRole c
          then PlayCall.set_ready_after_roll true c
          else c)
       (play_calls db))
    db.

(** [readiness?.some((r) => r.role === role && r.ready_after_roll)] *)
Definition ready_for (role : PlayRole.t) (readiness : list PlayCall.t) : bool :=
  existsb (fun c => role_is role c && PlayCall.ready_after_roll c) readiness.

Definition continueAfterRollAction (gameId playerId : uuid)
  (forSide : option PlayRole.t) (tape : list Z) (db : DB)
  : ActionResult Outcome * DB :=
  match single (games_by_id gameId db) with
  | None => (Failure "Game not found.", db)
  | Some g =>
      if negb (phase_is g Phase.drive) || negb (subphase_is g Sub.rolls_done)
      then (Failure "Not ready to resolve yet.", db)
      else
        match single (players_by_id playerId gameId db) with
        | None => (Failure "Player not found.", db)
        | Some p =>
            let seq := JS.nullish (Game.current_play_seq g) 1 in
            let targetRole := targetRoleOf forSide p g in
            let db1 := mark_ready gameId seq targetRole db in
            let readiness := calls_of gameId seq db1 in
            let offenseReady := ready_for PlayRole.offense readiness in
            let defenseReady := ready_for PlayRole.defense readiness in
            let db2 := logGameEvent gameId "ready_after_roll" db1 in
            if offenseReady && defenseReady
            then finalizePlayResolution gameId seq tape db2
            else
              (Success
                 {| message := Some "Continue recorded. Waiting for other side.";
                    game := None |}, db2)
        end
  end.

(** ** lobby.ts *)

(** The ids a lobby handler answers with: [gameId], [code], [playerId]. *)
Definition LobbyIds : Type := (uuid * string * uuid)%type.

(** [from("games").select(...).eq("code", code).eq("status", "lobby_open")] *)
Definition open_games_by_code (code : string) (db : DB) : list Game.t :=
  filter
    (fun g =>
       String.eqb (Game.code g) code
       && (if Status.eq_dec (Game.status g) Status.lobby_open then true else false))
    (games db).

(** [from("players").insert(row)]: refused when the game is missing (foreign
    key) or the name is taken in the game ([unique_game_display_name]). *)
Definition insert_player (gameId : uuid) (name : string) (role : Role.t)
  (ready : bool) (db : DB) : (uuid * DB) + string :=
  if negb (game_exists gameId db)
  then inr "violates foreign key constraint players_game_id_fkey"
  else if existsb
            (fun p => uuid_eqb (Player.game_id p) gameId
                      && String.eqb (Player.display_name p) name)
            (players db)
  then inr "duplicate key value violates unique constraint unique_game_display_name"
  else
    let i := next_uuid db in
    inl (i,
         with_next_uuid (S i)
           (with_players
              (players db
               ++ [ {| Player.id := i; Player.game_id := gameId;
                       Player.display_name := name; Player.role := role;
                       Player.side := None; Player.ready := ready |} ])
              db)).

(** The message a failed player insert is turned into. *)
Definition player_insert_error (dbMessage fallback : string) : string :=
  if JS.includes dbMessage "unique_game_display_name"
  then "Name already taken in this lobby."
  else if JS.is_empty dbMessage then fallback else dbMessage.

(** The retry loop of [createLobbyAction]: [maybeSingle] reports an error only
    when several open games carry the code; [codes] are the successive results
    of [generateCode()]. *)
Fixpoint pick_code (attempts : nat) (code : string) (codes : list string) (db : DB)
  : string :=
  match attempts with
  | O => code
  | S n =>
      match open_games_by_code code db with
      | _ :: _ :: _ =>
          match codes with
          | next :: rest => pick_code n next rest db
          | [] => pick_code n EmptyString [] db
          end
      | _ => code
      end
  end.

Definition createLobbyAction (displayName : string) (codes : list string) (db : DB)
  : ActionResult LobbyIds * DB :=
  if JS.is_empty (JS.trim displayName)
  then (Failure "Display name is required.", db)
  else
    let code :=
      match codes with
      | first :: rest => pick_code 3 first rest db
      | [] => pick_code 3 EmptyString [] db
      end in
    (* games.code is unique *)
    if existsb (fun g => String.eqb (Game.code g) code) (games db)
    then (Failure "duplicate key value violates unique constraint games_code_key", db)
    else
      let gameId := next_uuid db in
      let db1 :=
        with_next_uuid (S gameId)
          (with_games
             (games db ++ [Game.fresh gameId code Status.lobby_open Mode.trivia]) db) in
      match insert_player gameId (JS.trim displayName) Role.ref true db1 with
      | inr msg => (Failure (player_insert_error msg "Could not create host player."), db1)
      | inl (playerId, db2) =>
          let db3 := update_game gameId [ Game.set_host_player_id (Some playerId) ] db2 in
          (Success (gameId, code, playerId), db3)
      end.

Definition joinLobbyAction (displayName code : string) (db : DB)
  : ActionResult LobbyIds * DB :=
  if JS.is_empty (JS.trim displayName)
  then (Failure "Display name is required.", db)
  else if JS.is_empty (JS.trim code)
  then (Failure "Game code is required.", db)
  else
    let normalizedCode := JS.toUpperCase (JS.trim code) in
    match single (open_games_by_code normalizedCode db) with
    | None => (Failure single_row_message, db)
    | Some g =>
        match Game.lobby_locked g with
        | Some true => (Failure "Lobby is locked.", db)
        | _ =>
            match insert_player (Game.id g) (JS.trim displayName) Role.player false db with
            | inr msg => (Failure (player_insert_error msg "Could not join lobby."), db)
            | inl (playerId, db1) => (Success (Game.id g, Game.code g, playerId), db1)
            end
        end
    end.

(** The lobby's host: the earliest [ref] row of the game
    ([.eq("role", "ref").order("created_at").limit(1).single()]). *)
Definition host_of (gameId : uuid) (db : DB) : option Player.t :=
  find (fun p => uuid_eqb (Player.game_id p) gameId && is_ref p) (players db).

Definition is_host (gameId requesterId : uuid) (db : DB) : bool :=
  match host_of gameId db with
  | Some h => uuid_eqb (Player.id h) requesterId
  | None => false
  end.

(** [from("players").update(cols).eq("id", playerId).eq("game_id", gameId)] *)
Definition update_player (playerId gameId : uuid) (col : Player.t -> Player.t)
  (db : DB) : DB :=
  with_players
    (map
       (fun p =>
          if uuid_eqb (Player.id p) playerId && uuid_eqb (Player.game_id p) gameId
          then col p else p)
       (players db))
    db.

Definition updatePlayerSideAction (playerId gameId requesterId : uuid)
  (side : option Side.t) (db : DB) : ActionResult LobbyIds * DB :=
  if negb (is_host gameId requesterId db)
  then (Failure "Host not found for this lobby.", db)
  else
    (Success (gameId, EmptyString, playerId),
     update_player playerId gameId (Player.set_side side) db).

(** [updateTeamNamesAction] writes the two team-name columns only, which the
    rows here do not carry: what is left is the host check. *)
Definition updateTeamNamesAction (gameId requesterId : uuid) (homeName awayName : string)
  (db : DB) : ActionResult LobbyIds * DB :=
  if negb (is_host gameId requesterId db)
  then (Failure "Only the host can rename teams.", db)
  else (Success (gameId, EmptyString, 0%nat), db).

Definition players_of (gameId : uuid) (db : DB) : list Player.t :=
  filter (fun p => uuid_eqb (Player.game_id p) gameId) (players db).

Definition on_a_team (p : Player.t) : bool :=
  side_is (Player.side p) Side.home || side_is (Player.side p) Side.away.

(** The readiness gate of [startGameAction]: [None] when the game may start. *)
Definition start_gate (gameRow : option Game.t) (roster : list Player.t)
  : option string :=
  let isTrivia :=
    match gameRow with
    | Some g => if Mode.eq_dec (Game.mode g) Mode.trivia then true else false
    | None => false
    end in
  if isTrivia then
    let participants := filter (fun p => negb (is_ref p)) roster in
    if Nat.eqb (List.length participants) 0
    then Some "Need at least one player to start."
    else if negb (forallb Player.ready participants)
    then Some "All players must be ready to start."
    else None
  else
    let participants := filter on_a_team roster in
    let homeCount :=
      List.length (filter (fun p => side_is (Player.side p) Side.home) participants) in
    let awayCount :=
      List.length (filter (fun p => side_is (Player.side p) Side.away) participants) in
    if Nat.eqb homeCount 0 || Nat.eqb awayCount 0
    then Some "Both teams need at least one player before starting."
    else if negb (forallb Player.ready participants)
    then Some "All players must be ready to start."
    else None.

Definition startGameAction (gameId requesterId : uuid) (db : DB)
  : ActionResult LobbyIds * DB :=
  let gameRow := single (games_by_id gameId db) in
  if negb (is_host gameId requesterId db)
  then (Failure "Only the ref can start the game.", db)
  else
    match start_gate gameRow (players_of gameId db) with
    | Some msg => (Failure msg, db)
    | None =>
        (* .update({ status: "in_progress" }).eq("id", gameId).eq("status", "lobby_open") *)
        let db1 :=
          with_games
            (map
               (fun g =>
                  if uuid_eqb (Game.id g) gameId
                     && (if Status.eq_dec (Game.status g) Status.lobby_open
                         then true else false)
                  then Game.set_status Status.in_progress g
                  else g)
               (games db))
            db in
        let db2 :=
          with_players
            (map
               (fun p =>
                  if uuid_eqb (Player.game_id p) gameId then Player.set_ready false p else p)
               (players db1))
            db1 in
        (Success (gameId, EmptyString, 0%nat), db2)
    end.

(** [from("players").delete().eq("id", playerId).eq("game_id", gameId)]; the
    player's play calls go with the row (ON DELETE CASCADE). *)
Definition delete_player (playerId gameId : uuid) (db : DB) : DB :=
  let gone p := uuid_eqb (Player.id p) playerId && uuid_eqb (Player.game_id p) gameId in
  if existsb gone (players db)
  then
    with_play_calls
      (filter (fun c => negb (uuid_eqb (PlayCall.player_id c) playerId)) (play_calls db))
      (with_players (filter (fun p => negb (gone p)) (players db)) db)
  else db.

Definition leaveLobbyAction (playerId gameId : uuid) (db : DB)
  : ActionResult LobbyIds * DB :=
  let leaving := single (players_by_id playerId gameId db) in
  let db1 := delete_player playerId gameId db in
  let wasRef := match leaving with Some p => is_ref p | None => false end in
  let db2 :=
    if wasRef then
      (* the earliest remaining player of the game becomes the host *)
      match players_of gameId db1 with
      | nextHost :: _ =>
          update_game gameId [ Game.set_host_player_id (Some (Player.id nextHost)) ]
            (with_players
               (map
                  (fun p =>
                     if uuid_eqb (Player.id p) (Player.id nextHost)
                     then Player.set_role Role.ref p else p)
                  (players db1))
               db1)
      | [] => db1
      end
    else db1 in
  (Success (gameId, EmptyString, playerId), db2).

Definition setReadyAction (playerId gameId : uuid) (ready : bool) (db : DB)
  : ActionResult LobbyIds * DB :=
  (Success (gameId, EmptyString, playerId),
   update_player playerId gameId (Player.set_ready ready) db).

Definition kickPlayerAction (requesterId playerId gameId : uuid) (db : DB)
  : ActionResult LobbyIds * DB :=
  if negb (is_host gameId requesterId db)
  then (Failure "Only the ref can kick players.", db)
  else (Success (gameId, EmptyString, playerId), delete_player playerId gameId db).

Definition setLobbyLockedAction (requesterId gameId : uuid) (locked : bool) (db : DB)
  : ActionResult LobbyIds * DB :=
  if negb (is_host gameId requesterId db)
  then (Failure "Only the ref can lock or unlock the lobby.", db)
  else
    (Success (gameId, EmptyString, 0%nat),
     update_game gameId [ Game.set_lobby_locked (Some locked) ] db).

(** ** The requests a client can send

    The handlers of the trivia mode write none of the football columns and are
    not part of this list. *)

Inductive Action : Type :=
| StartCoinToss (gameId : uuid)
| ResolveCoinToss (gameId : uuid) (awayCall : Coin.t) (winnerChoice : Toss.t)
| FlipCoin (gameId requesterId : uuid) (awayCall : Coin.t)
| ChooseTossOption (gameId requesterId : uuid) (choice : Toss.t)
| ResolveKickoffTouchback (gameId : uuid)
| ResetDrive (gameId requesterId : uuid) (optsPossession : option Side.t)
    (optsYardLine : option Z)
| SubmitPlayCall (gameId playerId : uuid) (role : PlayRole.t)
    (playCall difficulty : string)
| SubmitQuestionAnswer (gameId playerId : uuid) (isCorrect : bool)
    (forSide : option PlayRole.t) (manualRoll : option Z)
| SubmitRoll (gameId playerId : uuid) (manualRoll : option Z)
    (forSide : option PlayRole.t)
| ContinueAfterRoll (gameId playerId : uuid) (forSide : option PlayRole.t)
| CreateLobby (displayName : string) (codes : list string)
| JoinLobby (displayName code : string)
| UpdatePlayerSide (playerId gameId requesterId : uuid) (side : option Side.t)
| UpdateTeamNames (gameId requesterId : uuid) (homeName awayName : string)
| StartGame (gameId requesterId : uuid)
| LeaveLobby (playerId gameId : uuid)
| SetReady (playerId gameId : uuid) (ready : bool)
| KickPlayer (requesterId playerId gameId : uuid)
| SetLobbyLocked (requesterId gameId : uuid) (locked : bool).

(** The error message of a failed request. *)
Definition error_of {A : Type} (r : ActionResult A) : option string :=
  match r with
  | Failure e => Some e
  | Success _ => None
  end.

Definition respond {A : Type} (r : ActionResult A * DB) : option string * DB :=
  (error_of (fst r), snd r).

(** A request handled: the error it is answered with, if any, and the database
    after it; [tape] feeds [Math.random]. *)
Definition handle (a : Action) (tape : list Z) (db : DB) : option string * DB :=
  match a with
  | StartCoinToss gameId => (None, snd (startCoinToss gameId db))
  | ResolveCoinToss gameId awayCall winnerChoice =>
      respond (resolveCoinTossAction gameId awayCall winnerChoice tape db)
  | FlipCoin gameId requesterId awayCall =>
      respond (flipCoinAction gameId requesterId awayCall tape db)
  | ChooseTossOption gameId requesterId choice =>
      respond (chooseTossOptionAction gameId requesterId choice db)
  | ResolveKickoffTouchback gameId => respond (resolveKickoffTouchbackAction gameId db)
  | ResetDrive gameId requesterId optsPossession optsYardLine =>
      respond (resetDriveAction gameId requesterId optsPossession optsYardLine db)
  | SubmitPlayCall gameId playerId role playCall difficulty =>
      respond (submitPlayCallAction gameId playerId role playCall difficulty db)
  | SubmitQuestionAnswer gameId playerId isCorrect forSide manualRoll =>
      respond (submitQuestionAnswerAction gameId playerId isCorrect forSide manualRoll db)
  | SubmitRoll gameId playerId manualRoll forSide =>
      respond (submitRollAction gameId playerId manualRoll forSide tape db)
  | ContinueAfterRoll gameId playerId forSide =>
      respond (continueAfterRollAction gameId playerId forSide tape db)
  | CreateLobby displayName codes => respond (createLobbyAction displayName codes db)
  | JoinLobby displayName code => respond (joinLobbyAction displayName code db)
  | UpdatePlayerSide playerId gameId requesterId side =>
      respond (updatePlayerSideAction playerId gameId requesterId side db)
  | UpdateTeamNames gameId requesterId homeName awayName =>
      respond (updateTeamNamesAction gameId requesterId homeName awayName db)
  | StartGame gameId requesterId => respond (startGameAction gameId requesterId db)
  | LeaveLobby playerId gameId => respond (leaveLobbyAction playerId gameId db)
  | SetReady playerId gameId ready => respond (setReadyAction playerId gameId ready db)
  | KickPlayer requesterId playerId gameId =>
      respond (kickPlayerAction requesterId playerId gameId db)
  | SetLobbyLocked requesterId gameId locked =>
      respond (setLobbyLockedAction requesterId gameId locked db)
  end.

(** The database after the request. *)
Definition perform (a : Action) (tape : list Z) (db : DB) : DB :=
  snd (handle a tape db).

(** The databases the handlers can produce from the empty one.  The writes of a
    handler are separate calls to the database: the state in which
    [continueAfterRollAction] stands when it calls [finalizePlayResolution], the
    ready flag set and logged, is one of them. *)
Inductive reachable : DB -> Prop :=
| reachable_empty : reachable empty_db
| reachable_step (a : Action) (tape : list Z) (db : DB) :
    reachable db -> reachable (perform a tape db)
| reachable_ready (gameId : uuid) (seq : Z) (targetRole : PlayRole.t) (db : DB) :
    reachable db ->
    reachable (logGameEvent gameId "ready_after_roll" (mark_ready gameId seq targetRole db)).

(** A list of requests, each with its tape, run in order. *)
Definition run_script (script : list (Action * list Z)) (db : DB) : DB :=
  fold_left (fun d step => perform (fst step) (snd step) d) script db.

(** The game row a handler sees for [gameId]. *)
Definition game_row (gameId : uuid) (db : DB) : option Game.t :=
  single (games_by_id gameId db).

(** Phase and subphase of a row. *)
Definition stage (g : Game.t) : Phase.t * option Sub.t :=
  (Game.phase g, Game.play_subphase g).

(** ** Statements about a resolved play *)

(** [finalizePlayResolution] resolved the play [seq] of [gameId]: it found the
    row [g] and both calls, computed the clamped yardage [y] and left the row
    [g'] in the database [db']. *)
Definition resolves (gameId : uuid) (seq : Z) (tape : list Z) (db : DB)
  (g : Game.t) (y : Z) (db' : DB) (g' : Game.t) : Prop :=
  exists out offense defense,
    finalizePlayResolution gameId seq tape db = (Success out, db')
    /\ game_row gameId db = Some g
    /\ find (role_is PlayRole.offense) (calls_of gameId seq db) = Some offense
    /\ find (role_is PlayRole.defense) (calls_of gameId seq db) = Some defense
    /\ y = yards (fst (resolveYards offense defense tape))
    /\ game_row gameId db' = Some g'.

(** The play scores: the home offense reaches the 100, or the away offense
    the 0. *)
Definition touchdown (g : Game.t) (y : Z) : Prop :=
  (Game.offense_side g = Some Side.home /\ 100 <= yardLineAfter g y)
  \/ (Game.offense_side g = Some Side.away /\ yardLineAfter g y <= 0).

(** Turnover on downs as the update writes it: the former defense has the
    ball, first and ten, at the yard line the play reached. *)
Definition turned_over (g g' : Game.t) (y : Z) : Prop :=
  Game.possession_side g' = Game.defense_side g
  /\ Game.offense_side g' = Game.defense_side g
  /\ Game.defense_side g' = Game.offense_side g
  /\ Game.down g' = 1
  /\ Game.distance g' = 10
  /\ Game.yard_line g' = yardLineAfter g y.

(** The down and distance rule, from the row before to the row after. *)
Definition downs_rule (g g' : Game.t) (y : Z) : Prop :=
  (Game.distance g <= gainedBy g y -> Game.down g' = 1 /\ Game.distance g' = 10)
  /\ (gainedBy g y < Game.distance g ->
      (Game.down g + 1 <= 4 ->
       Game.down g' = Game.down g + 1
       /\ Game.distance g' = Game.distance g - gainedBy g y)
      /\ (4 < Game.down g + 1 -> turned_over g g' y)).

(** The scoring rule. *)
Definition scoring_rule (g g' : Game.t) (y : Z) : Prop :=
  (Game.offense_side g = Some Side.home /\ 100 <= yardLineAfter g y ->
   Game.score_home g' = Game.score_home g + 7
   /\ Game.score_away g' = Game.score_away g
   /\ Game.phase g' = Phase.kickoff
   /\ Game.possession_side g' = Some Side.away
   /\ Game.offense_side g' = Some Side.away
   /\ Game.down g' = 1 /\ Game.distance g' = 10 /\ Game.yard_line g' = 25)
  /\ (Game.offense_side g = Some Side.away /\ yardLineAfter g y <= 0 ->
      Game.score_away g' = Game.score_away g + 7
      /\ Game.score_home g' = Game.score_home g
      /\ Game.phase g' = Phase.kickoff
      /\ Game.possession_side g' = Some Side.home
      /\ Game.offense_side g' = Some Side.home
      /\ Game.down g' = 1 /\ Game.distance g' = 10 /\ Game.yard_line g' = 25)
  /\ (~ touchdown g y ->
      Game.score_home g' = Game.score_home g
      /\ Game.score_away g' = Game.score_away g).

(** The three side columns are what they were. *)
Definition same_sides (g g' : Game.t) : Prop :=
  Game.possession_side g' = Game.possession_side g
  /\ Game.offense_side g' = Game.offense_side g
  /\ Game.defense_side g' = Game.defense_side g.

(** No turnover on downs: the first down was achieved or the next down is at
    most the fourth. *)
Definition keeps_the_ball (g : Game.t) (y : Z) : Prop :=
  Game.distance g <= gainedBy g y \/ Game.down g + 1 <= 4.

(** ** Proof support *)

(** A column assignment never touches the primary key. *)
Definition keeps_id (col : Game.t -> Game.t) : Prop :=
  forall g, Game.id (col g) = Game.id g.

(** Closes [Forall keeps_id] on the object of an update. *)
Ltac setters := repeat constructor; intro; reflexivity.

(** A property of the result of a random computation that holds on every
    tape. *)
Definition always {A : Type} (P : A -> Prop) (m : Rand A) : Prop :=
  forall tape, P (fst (m tape)).

(** Turns the boolean tests of the handlers into propositions. *)
Ltac reflect_tests :=
  repeat match goal with
    | H : (_ <=? _) = true |- _ => apply Z.leb_le in H
    | H : (_ <=? _) = false |- _ => apply Z.leb_gt in H
    | H : (_ >=? _) = true |- _ => rewrite Z.geb_leb in H
    | H : (_ >=? _) = false |- _ => rewrite Z.geb_leb in H
    | H : (_ >? _) = true |- _ => rewrite Z.gtb_ltb in H
    | H : (_ >? _) = false |- _ => rewrite Z.gtb_ltb in H
    | H : (_ <? _) = true |- _ => apply Z.ltb_lt in H
    | H : (_ <? _) = false |- _ => apply Z.ltb_ge in H
    | H : (_ && _)%bool = true |- _ => apply andb_prop in H; destruct H
    end.

(** Splits [advance] into its branches, with the tests as hypotheses. *)
Ltac advance_cases :=
  unfold advance, touchdown, side_is in *;
  repeat match goal with
    | |- context [if option_eq_dec ?d ?x ?s then _ else _] =>
        destruct (option_eq_dec d x s)
    | |- context [if ?b then _ else _] => destruct b eqn:?
    end;
  reflect_tests; simpl in *.

(** ** Statements about the phases *)

(** The order [lobby -> coin_toss -> coin_toss_choice -> kickoff ->
    drive{play_call -> question -> rolls -> rolls_done} -> kickoff | finished]:
    [follows_order s s'] when [s'] is the successor of [s] in it. *)
Definition follows_order (s s' : Phase.t * option Sub.t) : Prop :=
  match s with
  | (Phase.lobby, _) => fst s' = Phase.coin_toss
  | (Phase.coin_toss, _) => fst s' = Phase.coin_toss_choice
  | (Phase.coin_toss_choice, _) => fst s' = Phase.kickoff
  | (Phase.kickoff, _) => s' = (Phase.drive, Some Sub.play_call)
  | (Phase.drive, Some Sub.play_call) => s' = (Phase.drive, Some Sub.question)
  | (Phase.drive, Some Sub.question) => s' = (Phase.drive, Some Sub.rolls)
  | (Phase.drive, Some Sub.rolls) => s' = (Phase.drive, Some Sub.rolls_done)
  | (Phase.drive, Some Sub.rolls_done) =>
      fst s' = Phase.kickoff \/ fst s' = Phase.finished
  | (Phase.drive, None) => False
  | (Phase.finished, _) => False
  end.

(** The moves each handler makes.  The handlers with a guard on the phase move
    along fixed edges; the others write their target whatever the phase is. *)
Definition moves (a : Action) (s s' : Phase.t * option Sub.t) : Prop :=
  match a with
  | StartCoinToss _ => s' = (Phase.coin_toss, None)
  | FlipCoin _ _ _ => s' = (Phase.coin_toss_choice, snd s)
  | ResolveCoinToss _ _ _ | ChooseTossOption _ _ _ => s' = (Phase.kickoff, None)
  | ResetDrive _ _ _ _ => s' = (Phase.drive, Some Sub.play_call)
  | ResolveKickoffTouchback _ =>
      fst s = Phase.kickoff /\ s' = (Phase.drive, Some Sub.play_call)
  | SubmitPlayCall _ _ _ _ _ =>
      (s = (Phase.drive, Some Sub.play_call) /\ s' = (Phase.drive, Some Sub.question))
      \/ (s = (Phase.drive, Some Sub.question)
          /\ s' = (Phase.drive, Some Sub.play_call))
  | SubmitQuestionAnswer _ _ _ _ _ =>
      s = (Phase.drive, Some Sub.question) /\ s' = (Phase.drive, Some Sub.rolls)
  | SubmitRoll _ _ _ _ =>
      s = (Phase.drive, Some Sub.rolls) /\ s' = (Phase.drive, Some Sub.rolls_done)
  | ContinueAfterRoll _ _ _ =>
      s = (Phase.drive, Some Sub.rolls_done)
      /\ (s' = (Phase.drive, Some Sub.play_call) \/ s' = (Phase.kickoff, None))
  | _ => False
  end.

(** The possession column agrees with the offense column, and a game waiting
    for its kickoff knows who receives. *)
Definition sides_agree (g : Game.t) : Prop :=
  Game.possession_side g = Game.offense_side g
  /\ (Game.phase g = Phase.kickoff -> Game.possession_side g <> None).

(** What one request may do to one row of [games]. *)
Definition row_ok (a : Action) (g g' : Game.t) : Prop :=
  Game.id g' = Game.id g
  /\ (stage g' = stage g \/ moves a (stage g) (stage g'))
  /\ (sides_agree g -> sides_agree g').

(** The [games] table after a request: the old rows, each changed within
    [row_ok], followed by the rows the request inserted. *)
Definition game_shape (a : Action) (db db' : DB) : Prop :=
  exists (F : Game.t -> Game.t) (extra : list Game.t),
    games db' = (map F (games db) ++ extra)%list
    /\ (forall g, In g (games db) -> row_ok a g (F g))
    /\ Forall sides_agree extra.

(** The [games] table through the writes of a handler. *)
Create Rewrite HintDb games.

Ltac break_handler :=
  repeat match goal with
    | |- context [match ?x with _ => _ end] => destruct x eqn:?
    end.

(** Turns the guard a handler passed into facts about the row it read. *)
Ltac guard_facts :=
  repeat match goal with
    | H : (_ || _)%bool = false |- _ => apply orb_false_elim in H; destruct H
    | H : (_ && _)%bool = true |- _ => apply andb_prop in H; destruct H
    | H : negb _ = false |- _ => apply negb_false_iff in H
    | H : negb _ = true |- _ => apply negb_true_iff in H
    | H : phase_is _ _ = true |- _ =>
        unfold phase_is in H;
        match type of H with
        | (if ?d then _ else _) = _ => destruct d; [clear H | discriminate H]
        end
    | H : subphase_is _ _ = true |- _ =>
        unfold subphase_is in H;
        match type of H with
        | (if ?d then _ else _) = _ => destruct d; [clear H | discriminate H]
        end
    end.

Ltac row_auto :=
  unfold row_ok, stage, sides_agree, moves; simpl;
  repeat match goal with
    | H : Game.phase ?g = _ |- context [Game.phase ?g] => rewrite H
    | H : Game.play_subphase ?g = _ |- context [Game.play_subphase ?g] => rewrite H
    end;
  repeat split; intros; try reflexivity; try discriminate; try tauto; try congruence.

(** ** A game played from the lobby to the first snap

    The ref opens the lobby (game 1, player 2), Hal (3) and Ann (4) join and are
    put on the home and the away side, the toss goes to the away side, which
    receives. *)
Definition to_first_snap : list (Action * list Z) :=
  [ (CreateLobby "Ref" ["ABC123"], []);
    (JoinLobby "Hal" "abc123", []);
    (JoinLobby "Ann" " abc123 ", []);
    (UpdatePlayerSide 3 1 2 (Some Side.home), []);
    (UpdatePlayerSide 4 1 2 (Some Side.away), []);
    (SetReady 3 1 true, []);
    (SetReady 4 1 true, []);
    (StartGame 1 2, []);
    (StartCoinToss 1, []);
    (FlipCoin 1 4 Coin.heads, [0]);
    (ChooseTossOption 1 4 Toss.receive, []);
    (ResolveKickoffTouchback 1, []) ].

(** One play up to the moment the second side continues: the away offense
    runs (answer right, die 3), the home defense calls pass defense (answer
    wrong, die 1). *)
Definition first_play : list (Action * list Z) :=
  [ (SubmitPlayCall 1 4 PlayRole.offense "Run" "easy", []);
    (SubmitPlayCall 1 3 PlayRole.defense "Pass D" "n/a", []);
    (SubmitQuestionAnswer 1 4 true None None, []);
    (SubmitQuestionAnswer 1 3 false None None, []);
    (SubmitRoll 1 4 (Some 3) None, []);
    (SubmitRoll 1 3 (Some 1) None, []);
    (ContinueAfterRoll 1 4 None, []) ].

Definition db_first_snap : DB := run_script to_first_snap empty_db.

(** The database in which [finalizePlayResolution] is called for the first
    play: the defense has just continued. *)
Definition db_first_play : DB :=
  logGameEvent 1 "ready_after_roll"
    (mark_ready 1 1 PlayRole.defense (run_script first_play db_first_snap)).

(** The ref places the ball on the home 95 for the home side; the home offense
    runs (answer right, die 3) against a zone (answer wrong, die 1). *)
Definition goal_line_play : list (Action * list Z) :=
  [ (ResetDrive 1 2 (Some Side.home) (Some 95), []);
    (SubmitPlayCall 1 3 PlayRole.offense "Run" "easy", []);
    (SubmitPlayCall 1 4 PlayRole.defense "Zone" "n/a", []);
    (SubmitQuestionAnswer 1 3 true None None, []);
    (SubmitQuestionAnswer 1 4 false None None, []);
    (SubmitRoll 1 3 (Some 3) None, []);
    (SubmitRoll 1 4 (Some 1) None, []);
    (ContinueAfterRoll 1 3 None, []) ].

Definition db_goal_line : DB :=
  logGameEvent 1 "ready_after_roll"
    (mark_ready 1 1 PlayRole.defense (run_script goal_line_play db_first_snap)).

(** The row of game 1, for the examples. *)
Definition row1 (db : DB) : Game.t :=
  JS.nullish (game_row 1 db) (Game.fresh 0 EmptyString Status.lobby_open Mode.football).

Definition db_first_play_resolved : DB :=
  snd (finalizePlayResolution 1 1 [0] db_first_play).

Definition db_goal_line_resolved : DB :=
  snd (finalizePlayResolution 1 1 [] db_goal_line).

(** Proves [resolves] on a concrete database by running the handler. *)
Ltac resolves_by_running :=
  match goal with
  | |- resolves ?i ?s ?t ?db _ _ _ _ =>
      let r := eval vm_compute in (finalizePlayResolution i s t db) in
      let o := eval vm_compute in (find (role_is PlayRole.offense) (calls_of i s db)) in
      let d := eval vm_compute in (find (role_is PlayRole.defense) (calls_of i s db)) in
      match r with
      | (Success ?out, _) =>
          match o with
          | Some ?ov =>
              match d with
              | Some ?dv => exists out, ov, dv; repeat apply conj; vm_compute; reflexivity
              end
          end
      end
  end.

(** The lobby right after its creation: game 1 in phase [lobby], the ref is
    player 2. *)
Definition db_lobby : DB := run_script [ (CreateLobby "Ref" ["ABC123"], []) ] empty_db.

(** ** Statements about the two sides of a play *)

(** The calls of play [seq] of a game, as the handlers select them. *)
Definition has_call (r : PlayRole.t) (calls : list PlayCall.t) : Prop :=
  existsb (role_is r) calls = true.

(** The row the handlers find for a role holds an answer. *)
Definition has_answer (r : PlayRole.t) (calls : list PlayCall.t) : Prop :=
  exists c b, find (role_is r) calls = Some c /\ PlayCall.answer c = Some b.

(** The row the handlers find for a role holds a roll. *)
Definition has_roll (r : PlayRole.t) (calls : list PlayCall.t) : Prop :=
  exists c v, find (role_is r) calls = Some c /\ PlayCall.roll c = Some v.

Definition is_ready (r : PlayRole.t) (calls : list PlayCall.t) : Prop :=
  ready_for r calls = true.

Definition both (P : PlayRole.t -> list PlayCall.t -> Prop) (calls : list PlayCall.t)
  : Prop :=
  P PlayRole.offense calls /\ P PlayRole.defense calls.

(** The play sequence a row is at: [game.current_play_seq ?? 1]. *)
Definition seq_of (g : Game.t) : Z := JS.nullish (Game.current_play_seq g) 1.

(** ** Statements about who may call *)

(** The side a play call of [role] must come from. *)
Definition expected_side (role : PlayRole.t) (g : Game.t) : option Side.t :=
  match role with
  | PlayRole.offense => Game.offense_side g
  | PlayRole.defense => Game.defense_side g
  end.

(** The requester is a player of the game on the away side, or its ref. *)
Definition may_flip (gameId requesterId : uuid) (db : DB) : Prop :=
  exists p,
    single (players_by_id requesterId gameId db) = Some p
    /\ (Player.side p = Some Side.away \/ Player.role p = Role.ref).

(** The requester is a player of the game on the toss winner's side, or its
    ref. *)
Definition may_choose (gameId requesterId : uuid) (db : DB) : Prop :=
  exists p,
    single (players_by_id requesterId gameId db) = Some p
    /\ (Player.role p = Role.ref
        \/ exists g w,
             game_row gameId db = Some g
             /\ Game.toss_winner_side g = Some w
             /\ Player.side p = Some w).

(** The caller of a gated request has no right to it. *)
Definition unauthorized (a : Action) (db : DB) : Prop :=
  match a with
  | SubmitPlayCall gameId playerId role _ _ =>
      exists g p,
        game_row gameId db = Some g
        /\ single (players_by_id playerId gameId db) = Some p
        /\ Player.side p <> expected_side role g
  | FlipCoin gameId requesterId _ => ~ may_flip gameId requesterId db
  | ChooseTossOption gameId requesterId _ => ~ may_choose gameId requesterId db
  | _ => False
  end.

(** ** Statements about joining *)

(** No game carries the normalized code with an open and unlocked lobby. *)
Definition lobby_refuses (code : string) (db : DB) : Prop :=
  forall g,
    In g (games db) ->
    Game.code g = JS.toUpperCase (JS.trim code) ->
    Game.status g <> Status.lobby_open \/ Game.lobby_locked g = Some true.

Definition open_unlocked (code : string) (g : Game.t) : Prop :=
  Game.code g = JS.toUpperCase (JS.trim code)
  /\ Game.status g = Status.lobby_open
  /\ Game.lobby_locked g <> Some true.

(** The constraint [unique_play_call_seq] of the schema. *)
Definition unique_play_call_seq (table : list PlayCall.t) : Prop :=
  NoDup (map PlayCall.key table).

(** The rows of a table under one key of [unique_play_call_seq]. *)
Definition rows_keyed (gameId playerId : uuid) (seq : Z) (table : list PlayCall.t)
  : list PlayCall.t :=
  filter
    (fun c =>
       uuid_eqb (PlayCall.game_id c) gameId
       && uuid_eqb (PlayCall.player_id c) playerId
       && (PlayCall.seq c =? seq))
    table.

(** The offense has rolled, the defense has not: the play stands in [rolls]. *)
Definition db_offense_rolled : DB := run_script (firstn 5 first_play) db_first_snap.

(** The game has started: its lobby is no longer open. *)
Definition db_started : DB := run_script (firstn 8 to_first_snap) empty_db.

(** The statement of C4 on one request: each advance of the subphase, and the
    resolution of the play, finds both sides in the calls of the play. *)
Definition both_sides_gate (a : Action) (g g' : Game.t) (calls : list PlayCall.t)
  : Prop :=
  (Game.play_subphase g = Some Sub.play_call ->
   Game.play_subphase g' = Some Sub.question -> both has_call calls)
  /\ (Game.play_subphase g = Some Sub.question ->
      Game.play_subphase g' = Some Sub.rolls -> both has_answer calls)
  /\ (Game.play_subphase g = Some Sub.rolls ->
      Game.play_subphase g' = Some Sub.rolls_done -> both has_roll calls)
  /\ (forall p f, a = ContinueAfterRoll (Game.id g) p f -> g' <> g ->
      both is_ready calls).

(** Ann, on the offense, has called her play once. *)
Definition db_called_once : DB :=
  snd (submitPlayCallAction 1 4 PlayRole.offense "Run" "easy" db_first_snap).

(** Breaks a hypothesis [moves a s s'] into equations on phase and subphase. *)
Ltac split_moves :=
  repeat match goal with
    | H : False |- _ => contradiction
    | H : _ /\ _ |- _ => destruct H
    | H : _ \/ _ |- _ => destruct H
    | H : (_, _) = (_, _) |- _ => injection H as ? ?
    end.

(** ** Statements about the dice and the yardage *)

Definition between (lo hi v : Z) : Prop := lo <= v <= hi.

(** [playLower.includes("pass") || playLower.includes("screen")
      || playLower.includes("hail")] and [playLower.includes("hail")] of
    [finalizePlayResolution], on the offense's call. *)
Definition isPassLike (play : string) : bool :=
  JS.includes (JS.toLowerCase play) "pass"
  || JS.includes (JS.toLowerCase play) "screen"
  || JS.includes (JS.toLowerCase play) "hail".

Definition isHail (play : string) : bool := JS.includes (JS.toLowerCase play) "hail".

(** The branch of [matchupMod] that sets [turnoverChance]: the call names
    neither a run nor a screen, and names a deep ball or a hail mary. *)
Definition deepBall (play : string) : bool :=
  negb (JS.includes (JS.toLowerCase play) "run")
  && negb (JS.includes (JS.toLowerCase play) "screen")
  && (JS.includes (JS.toLowerCase play) "deep" || JS.includes (JS.toLowerCase play) "hail").

(** A defense that names a blitz and neither a pass nor a run: the calls
    [matchupMod] sends to its blitz branches. *)
Definition blitz_only (defense : string) : bool :=
  JS.includes (JS.toLowerCase defense) "blitz"
  && negb (JS.includes (JS.toLowerCase defense) "pass")
  && negb (JS.includes (JS.toLowerCase defense) "run").

(** The offense's call names a run, a screen, a deep ball, a hail mary or a
    pass: every branch of [matchupMod] but the trick play and the fallback. *)
Definition names_a_play (offense : string) : bool :=
  JS.includes (JS.toLowerCase offense) "run"
  || JS.includes (JS.toLowerCase offense) "screen"
  || JS.includes (JS.toLowerCase offense) "deep"
  || JS.includes (JS.toLowerCase offense) "hail"
  || JS.includes (JS.toLowerCase offense) "pass".

(** Calls for the examples: a pass and a hail mary answered wrong (the hail
    mary with a stored die of 2), a hail mary answered right, and a zone
    defense answered wrong. *)
Definition call_pass_wrong : PlayCall.t :=
  PlayCall.mk 1 4 (Some Side.away) PlayRole.offense (Some "Pass") (Some "medium") 1
    (Some false) (Some 5) false.

Definition call_hail_wrong : PlayCall.t :=
  PlayCall.mk 1 4 (Some Side.away) PlayRole.offense (Some "Hail Mary")
    (Some "hail_mary") 1 (Some false) (Some 2) false.

Definition call_hail_right : PlayCall.t :=
  PlayCall.mk 1 4 (Some Side.away) PlayRole.offense (Some "Hail Mary")
    (Some "hail_mary") 1 (Some true) (Some 18) false.

Definition call_zone_wrong : PlayCall.t :=
  PlayCall.mk 1 3 (Some Side.home) PlayRole.defense (Some "Zone") (Some "n/a") 1
    (Some false) (Some 1) false.

(** Folds the tests on the offense's call back into [isPassLike] and [isHail]. *)
Ltac fold_play_tests play :=
  change (JS.includes (JS.toLowerCase play) "pass"
          || JS.includes (JS.toLowerCase play) "screen"
          || JS.includes (JS.toLowerCase play) "hail")%bool with (isPassLike play);
  change (JS.includes (JS.toLowerCase play) "hail") with (isHail play).

(** ** Invariants of the game rows *)

(** Down and distance are football's: a down from 1 to 4, at least a yard to
    go. *)
Definition field_ok (g : Game.t) : Prop :=
  1 <= Game.down g <= 4 /\ 1 <= Game.distance g.

(** Both scores are made of touchdowns. *)
Definition score_ok (g : Game.t) : Prop :=
  exists h a,
    0 <= h /\ 0 <= a /\ Game.score_home g = 7 * h /\ Game.score_away g = 7 * a.

(** From the kickoff on, offense and defense are the two different sides. *)
Definition sides_opposite (g : Game.t) : Prop :=
  Game.phase g = Phase.kickoff \/ Game.phase g = Phase.drive ->
  exists s, Game.offense_side g = Some s /\ Game.defense_side g = Some (opposite s).

(** The play counter is set and starts at 1. *)
Definition seq_ok (g : Game.t) : Prop :=
  exists n, Game.current_play_seq g = Some n /\ 1 <= n.

Definition row_wf (g : Game.t) : Prop :=
  field_ok g /\ score_ok g /\ sides_opposite g /\ seq_ok g.

(** The [games] table after a request, for [row_wf]: old rows that keep it,
    then new rows that have it. *)
Definition wf_shape (db db' : DB) : Prop :=
  exists (F : Game.t -> Game.t) (extra : list Game.t),
    games db' = (map F (games db) ++ extra)%list
    /\ (forall g, In g (games db) -> row_wf g -> row_wf (F g))
    /\ Forall row_wf extra.

(** The play calls through the writes of a handler. *)
Create Rewrite HintDb calls.

(** The goal-line play resolved: the defense continues and the home side
    scores. *)
Definition db_touchdown : DB :=
  run_script (goal_line_play ++ [ (ContinueAfterRoll 1 4 None, []) ]) db_first_snap.

(** ** Statements about single handlers *)

(** The row of a drive that starts clean for [side] at [yardLine]: first and
    ten, play 1, the scores of [g] kept. *)
Definition clean_drive (side : Side.t) (yardLine : Z) (g g' : Game.t) : Prop :=
  stage g' = (Phase.drive, Some Sub.play_call)
  /\ Game.down g' = 1 /\ Game.distance g' = 10
  /\ Game.yard_line g' = yardLine
  /\ Game.possession_side g' = Some side
  /\ Game.offense_side g' = Some side
  /\ Game.defense_side g' = Some (opposite side)
  /\ Game.current_play_seq g' = Some 1
  /\ Game.score_home g' = Game.score_home g
  /\ Game.score_away g' = Game.score_away g.

(** The downs ran out on the play: short of the distance on fourth down. *)
Definition downs_ran_out (g : Game.t) (y : Z) : Prop :=
  gainedBy g y < Game.distance g /\ 4 < Game.down g + 1.

(** The row [joinLobbyAction] inserts. *)
Definition joined_player (playerId gameId : uuid) (displayName : string) : Player.t :=
  {| Player.id := playerId; Player.game_id := gameId;
     Player.display_name := JS.trim displayName; Player.role := Role.player;
     Player.side := None; Player.ready := false |}.

(** The trimmed name is not taken among the players of the game. *)
Definition name_free (gameId : uuid) (displayName : string) (db : DB) : Prop :=
  forall p,
    In p (players db) -> Player.game_id p = gameId ->
    Player.display_name p <> JS.trim displayName.

(** ** Statements about starting the game *)

(** The gate of the football mode: each team has a player, and every player on
    a team is ready. *)
Definition teams_ready (roster : list Player.t) : Prop :=
  (exists p, In p roster /\ Player.side p = Some Side.home)
  /\ (exists p, In p roster /\ Player.side p = Some Side.away)
  /\ (forall p, In p roster -> Player.side p <> None -> Player.ready p = true).

(** The gate of the trivia mode: somebody besides the ref plays, and everybody
    besides the ref is ready. *)
Definition contestants_ready (roster : list Player.t) : Prop :=
  (exists p, In p roster /\ Player.role p <> Role.ref)
  /\ (forall p, In p roster -> Player.role p <> Role.ref -> Player.ready p = true).

(** The lobby before the ref starts the game: both players have a team and are
    ready. *)
Definition db_ready_lobby : DB := run_script (firstn 7 to_first_snap) empty_db.

(** ** events.ts: reading the timeline

    [game_events] is kept in the order of the inserts, which is the order of
    [created_at]. *)

(** [from("game_events").select("*").eq("game_id", gameId)], oldest first. *)
Definition events_of (gameId : uuid) (db : DB) : list GameEvent.t :=
  filter (fun e => uuid_eqb (GameEvent.game_id e) gameId) (game_events db).

(** [getRecentEvents(gameId, limit = 50)]: the query orders by [created_at]
    descending and keeps [limit] rows; [data.reverse()] puts the oldest of them
    first. *)
Definition getRecentEvents (gameId : uuid) (limit : option nat) (db : DB)
  : list GameEvent.t :=
  let data := firstn (JS.nullish limit 50%nat) (rev (events_of gameId db)) in
  rev data.

(** ** Statements about the kickoff *)

(** The side that receives the kickoff after the toss winner's choice. *)
Definition receiver (winner : Side.t) (choice : Toss.t) : Side.t :=
  match choice with
  | Toss.receive => winner
  | Toss.kick | Toss.defer => opposite winner
  end.

(** The toss has been flipped and Ann, on the away side, has won it. *)
Definition db_toss_flipped : DB := run_script (firstn 10 to_first_snap) empty_db.

(** ** Statements about rolling and continuing *)

(** Both answers are in: the play waits for the rolls. *)
Definition db_rolls : DB := run_script (firstn 4 first_play) db_first_snap.

(** Both rolls are in: the play waits for the two sides to continue. *)
Definition db_rolled : DB := run_script (firstn 6 first_play) db_first_snap.

(** Ann, on offense, continues for the defense and then for herself; Hal, on
    defense, sends nothing. *)
Definition ann_continues_for_both : list (Action * list Z) :=
  [ (ContinueAfterRoll 1 4 (Some PlayRole.defense), []);
    (ContinueAfterRoll 1 4 None, [0]) ].

(** Ann, whose roll of 3 for the offense is stored, rolls a 20 on behalf of
    the defense and then a 20 on behalf of the offense. *)
Definition ann_rolls_again : list (Action * list Z) :=
  [ (SubmitRoll 1 4 (Some 20) (Some PlayRole.defense), []);
    (SubmitRoll 1 4 (Some 20) (Some PlayRole.offense), []) ].

(** The roll of the row the handlers find for a role in the calls of a play. *)
Definition roll_of (r : PlayRole.t) (gameId : uuid) (seq : Z) (db : DB) : option Z :=
  match find (role_is r) (calls_of gameId seq db) with
  | Some c => PlayCall.roll c
  | None => None
  end.

(** The player who sends a request of the play. *)
Definition sender (a : Action) : option uuid :=
  match a with
  | SubmitPlayCall _ p _ _ _ | SubmitQuestionAnswer _ p _ _ _
  | SubmitRoll _ p _ _ | ContinueAfterRoll _ p _ => Some p
  | _ => None
  end.

Definition other_role (r : PlayRole.t) : PlayRole.t :=
  match r with
  | PlayRole.offense => PlayRole.defense
  | PlayRole.defense => PlayRole.offense
  end.

(** What [continueAfterRollAction] answers while one side is missing. *)
Definition waiting : Outcome :=
  {| message := Some "Continue recorded. Waiting for other side."; game := None |}.

(** ** game.ts: reading a game *)

(** [getGameByCode(code)]: the game whose code is [code.toUpperCase()];
    [null] when [.single()] reports an error. *)
Definition getGameByCode (code : string) (db : DB) : option Game.t :=
  single (filter (fun g => String.eqb (Game.code g) (JS.toUpperCase code)) (games db)).

(** ** Statements about the toss *)

(** No row of the game names a toss winner. *)
Definition toss_open (gameId : uuid) (rows : list Game.t) : Prop :=
  forall g, In g rows -> Game.id g = gameId -> Game.toss_winner_side g = None.

(** The requests that flip the coin of a game. *)
Definition flips (gameId : uuid) (a : Action) : Prop :=
  match a with
  | FlipCoin j _ _ | ResolveCoinToss j _ _ => j = gameId
  | _ => False
  end.

(** Requests sent while the toss of the examples waits for its flip: the ref
    locks the lobby, Ann asks for the kickoff and tries to choose. *)
Definition before_the_flip : list (Action * list Z) :=
  [ (SetLobbyLocked 2 1 true, []);
    (ResolveKickoffTouchback 1, []);
    (ChooseTossOption 1 4 Toss.kick, []) ].

(** * Properties *)

(** ** Reading the tables after a write *)

Lemma update_keeps_id (cols : list (Game.t -> Game.t)) :
  Forall keeps_id cols -> keeps_id (Game.update cols).
Proof.
  unfold Game.update, keeps_id.
  induction 1 as [|col cols Hc _ IH]; intro g; simpl.
  - reflexivity.
  - rewrite IH. apply Hc.
Qed.

Lemma filter_id_map (i j : uuid) (f : Game.t -> Game.t) (l : list Game.t) :
  keeps_id f ->
  filter (fun g => uuid_eqb (Game.id g) j)
    (map (fun g => if uuid_eqb (Game.id g) i then f g else g) l)
  = map (fun g => if uuid_eqb (Game.id g) i then f g else g)
      (filter (fun g => uuid_eqb (Game.id g) j) l).
Proof.
  intro Hf. induction l as [|g l IH]; simpl; [reflexivity|].
  assert (Hid : Game.id (if uuid_eqb (Game.id g) i then f g else g) = Game.id g)
    by (destruct (uuid_eqb (Game.id g) i); [apply Hf | reflexivity]).
  rewrite Hid. destruct (uuid_eqb (Game.id g) j); simpl; rewrite IH; reflexivity.
Qed.

Lemma single_map {A B : Type} (f : A -> B) (l : list A) :
  single (map f l) = option_map f (single l).
Proof. destruct l as [|a [|b l]]; reflexivity. Qed.

Lemma single_filter_unique {A : Type} (P : A -> bool) (l : list A) (a : A) :
  single (filter P l) = Some a -> forall x, In x l -> P x = true -> x = a.
Proof.
  intros Hs x Hin HP.
  assert (Hx : In x (filter P l)) by (apply filter_In; auto).
  destruct (filter P l) as [|b [|c r]]; simpl in Hs; try discriminate.
  injection Hs as <-. destruct Hx as [->|[]]. reflexivity.
Qed.

Lemma single_In {A : Type} (P : A -> bool) (l : list A) (a : A) :
  single (filter P l) = Some a -> In a l /\ P a = true.
Proof.
  intro Hs. apply filter_In.
  destruct (filter P l) as [|b [|c r]]; simpl in Hs; try discriminate.
  injection Hs as <-. left. reflexivity.
Qed.

Lemma game_row_id (i : uuid) (db : DB) (g : Game.t) :
  game_row i db = Some g -> Game.id g = i.
Proof.
  intro H. apply single_In in H. destruct H as [_ H].
  apply Nat.eqb_eq in H. exact H.
Qed.

Lemma game_row_update_game (i j : uuid) (cols : list (Game.t -> Game.t)) (db : DB) :
  Forall keeps_id cols ->
  game_row j (update_game i cols db)
  = option_map (fun g => if uuid_eqb (Game.id g) i then Game.update cols g else g)
      (game_row j db).
Proof.
  intro H. unfold game_row, games_by_id, update_game. simpl.
  rewrite filter_id_map by (apply update_keeps_id; exact H).
  apply single_map.
Qed.

Lemma game_row_update_same (i : uuid) (cols : list (Game.t -> Game.t)) (db : DB) :
  Forall keeps_id cols ->
  game_row i (update_game i cols db) = option_map (Game.update cols) (game_row i db).
Proof.
  intro H. rewrite game_row_update_game by exact H.
  destruct (game_row i db) as [g|] eqn:E; simpl; [|reflexivity].
  apply game_row_id in E. unfold uuid_eqb. rewrite E, Nat.eqb_refl. reflexivity.
Qed.

Lemma game_row_games (i : uuid) (db1 db2 : DB) :
  games db1 = games db2 -> game_row i db1 = game_row i db2.
Proof. unfold game_row, games_by_id. intros ->. reflexivity. Qed.

Lemma games_logGameEvent (i : uuid) (type : string) (db : DB) :
  games (logGameEvent i type db) = games db.
Proof. unfold logGameEvent. destruct (game_exists i db); reflexivity. Qed.

Lemma play_calls_logGameEvent (i : uuid) (type : string) (db : DB) :
  play_calls (logGameEvent i type db) = play_calls db.
Proof. unfold logGameEvent. destruct (game_exists i db); reflexivity. Qed.

Lemma players_logGameEvent (i : uuid) (type : string) (db : DB) :
  players (logGameEvent i type db) = players db.
Proof. unfold logGameEvent. destruct (game_exists i db); reflexivity. Qed.

(** ** The resolution of a play *)

Lemma resolved_columns_keep_id (a : Advance) (n : Z) :
  Forall keeps_id (resolved_columns a n).
Proof. setters. Qed.

(** What a successful [finalizePlayResolution] read and wrote. *)
Lemma finalize_success (gameId : uuid) (seq : Z) (tape : list Z) (db db' : DB)
  (out : Outcome) :
  finalizePlayResolution gameId seq tape db = (Success out, db') ->
  exists g offense defense,
    game_row gameId db = Some g
    /\ find (role_is PlayRole.offense) (calls_of gameId seq db) = Some offense
    /\ find (role_is PlayRole.defense) (calls_of gameId seq db) = Some defense
    /\ game_row gameId db'
       = Some (Game.update
                 (resolved_columns
                    (advance g (yards (fst (resolveYards offense defense tape))))
                    (JS.nullish (Game.current_play_seq g) 1 + 1)) g).
Proof.
  unfold finalizePlayResolution. fold (game_row gameId db).
  destruct (game_row gameId db) as [g|] eqn:Eg; [|discriminate].
  destruct (find (role_is PlayRole.offense) (calls_of gameId seq db)) as [o|];
    [|discriminate].
  destruct (find (role_is PlayRole.defense) (calls_of gameId seq db)) as [d|];
    [|discriminate].
  intro H. injection H as _ <-.
  exists g, o, d. repeat split; try reflexivity.
  match goal with
  | |- game_row _ (logGameEvent _ _ (insert_play _ (delete_calls_of_seq _ _ ?d))) = _ =>
      rewrite (game_row_games gameId _ d) by (rewrite games_logGameEvent; reflexivity)
  end.
  rewrite game_row_update_same by apply resolved_columns_keep_id.
  rewrite Eg. reflexivity.
Qed.

Lemma resolves_row (gameId : uuid) (seq : Z) (tape : list Z) (db db' : DB)
  (g g' : Game.t) (y : Z) :
  resolves gameId seq tape db g y db' g' ->
  g' = Game.update
         (resolved_columns (advance g y) (JS.nullish (Game.current_play_seq g) 1 + 1)) g.
Proof.
  intros (out & o & d & Hrun & Hg & Ho & Hd & -> & Hg').
  apply finalize_success in Hrun.
  destruct Hrun as (g0 & o0 & d0 & Hg0 & Ho0 & Hd0 & Hrow).
  rewrite Hg in Hg0. rewrite Ho in Ho0. rewrite Hd in Hd0.
  injection Hg0 as <-. injection Ho0 as <-. injection Hd0 as <-.
  rewrite Hg' in Hrow. injection Hrow as ->. reflexivity.
Qed.

(** A successful call resolves a play. *)
Lemma finalize_resolves (gameId : uuid) (seq : Z) (tape : list Z) (db db' : DB)
  (out : Outcome) :
  finalizePlayResolution gameId seq tape db = (Success out, db') ->
  exists g y g', resolves gameId seq tape db g y db' g'.
Proof.
  intro Hrun. destruct (finalize_success _ _ _ _ _ _ Hrun)
    as (g & o & d & Hg & Ho & Hd & Hrow).
  eexists g, _, _. exists out, o, d. repeat split; eauto.
Qed.

Lemma always_ret {A : Type} (P : A -> Prop) (a : A) : P a -> always P (ret a).
Proof. intros H tape. exact H. Qed.

Lemma always_bind {A B : Type} (P : B -> Prop) (m : Rand A) (k : A -> Rand B) :
  (forall a, always P (k a)) -> always P (bind m k).
Proof.
  intros H tape. unfold bind. destruct (m tape) as [a tape']. apply H.
Qed.

(** The yardage leaves [resolveYards] clamped. *)
Lemma resolveYards_clamped (offense defense : PlayCall.t) :
  always (fun r => -20 <= yards r <= 60) (resolveYards offense defense).
Proof.
  unfold resolveYards.
  repeat first [apply always_bind; intro | cbv zeta].
  apply always_ret. simpl. unfold JS.max, JS.min. lia.
Qed.

Lemma yardLineAfter_range (g : Game.t) (y : Z) : 0 <= yardLineAfter g y <= 100.
Proof. unfold yardLineAfter, JS.max, JS.min. lia. Qed.

Lemma nextYardLine_range (g : Game.t) (y : Z) : 0 <= nextYardLine (advance g y) <= 100.
Proof.
  pose proof (yardLineAfter_range g y).
  unfold advance.
  repeat match goal with
    | |- context [if ?b then _ else _] => destruct b
    end; simpl; lia.
Qed.

(** C8: after every play resolved by [finalizePlayResolution], the computed
    yardage lies in [-20, 60] and the yard line written to the game row lies in
    [0, 100], whatever the play calls, difficulties, answers and rolls. *)
Theorem resolved_play_in_bounds (gameId : uuid) (seq : Z) (tape : list Z)
  (db db' : DB) (g g' : Game.t) (y : Z) :
  resolves gameId seq tape db g y db' g' ->
  -20 <= y <= 60 /\ 0 <= Game.yard_line g' <= 100.
Proof.
  intro H. pose proof (resolves_row _ _ _ _ _ _ _ _ H) as ->.
  destruct H as (out & o & d & _ & _ & _ & _ & -> & _).
  split.
  - apply resolveYards_clamped.
  - apply nextYardLine_range.
Qed.

(** C2: for every play resolved by [finalizePlayResolution], when the home
    offense's new yard line is at least 100 or the away offense's is at most 0,
    the scoring side gains exactly 7, the phase becomes kickoff, possession and
    offense pass to the other side and down, distance and yard line are reset
    to 1, 10 and 25; otherwise both scores are unchanged. *)
Theorem resolved_play_scoring (gameId : uuid) (seq : Z) (tape : list Z)
  (db db' : DB) (g g' : Game.t) (y : Z) :
  resolves gameId seq tape db g y db' g' ->
  scoring_rule g g' y.
Proof.
  intro H. pose proof (resolves_row _ _ _ _ _ _ _ _ H) as ->. clear H.
  unfold scoring_rule. simpl.
  repeat split; intros; advance_cases;
    repeat match goal with
      | H : _ /\ _ |- _ => destruct H
      end;
    try reflexivity; try congruence; try lia; try tauto.
Qed.

(** C1, as amended: for every play resolved by [finalizePlayResolution] that
    does not score a touchdown, if the yards gained toward the offense's goal
    are at least the distance, the next down is 1 and the next distance 10;
    otherwise the down goes up by one and the distance shrinks by the gain,
    unless the new down would exceed 4: then possession and offense go to the
    former defense, the defense becomes the former offense, it is first and
    ten, and the ball stays at the yard line the play reached. *)
Theorem resolved_play_downs (gameId : uuid) (seq : Z) (tape : list Z)
  (db db' : DB) (g g' : Game.t) (y : Z) :
  resolves gameId seq tape db g y db' g' ->
  ~ touchdown g y ->
  downs_rule g g' y.
Proof.
  intros H Htd. pose proof (resolves_row _ _ _ _ _ _ _ _ H) as ->. clear H.
  unfold downs_rule, turned_over. simpl.
  repeat split; intros; advance_cases;
    try reflexivity; try congruence; try lia; try tauto.
Qed.

(** On a row whose possession is the offense's, the update of a play without
    a turnover on downs and without a touchdown keeps the three side columns. *)
Lemma resolved_play_keeps_sides (g : Game.t) (y n : Z) :
  Game.possession_side g = Game.offense_side g ->
  keeps_the_ball g y ->
  ~ touchdown g y ->
  same_sides g (Game.update (resolved_columns (advance g y) n) g).
Proof.
  intros Hp Hk Htd. unfold same_sides, keeps_the_ball in *. simpl.
  repeat split; advance_cases;
    try reflexivity; try congruence; try lia; try tauto.
Qed.

(** ** The game rows under every request *)

Lemma row_ok_refl (a : Action) (g : Game.t) : row_ok a g g.
Proof. unfold row_ok. auto. Qed.

Lemma shape_same (a : Action) (db db' : DB) :
  games db' = games db -> game_shape a db db'.
Proof.
  intro H. exists (fun g => g), []. rewrite H, map_id, app_nil_r.
  split; [reflexivity|]. split; [|constructor].
  intros g _. apply row_ok_refl.
Qed.

Lemma shape_update (a : Action) (db db' : DB) (i : uuid)
  (cols : list (Game.t -> Game.t)) :
  games db' = games (update_game i cols db) ->
  (forall g, In g (games db) -> Game.id g = i -> row_ok a g (Game.update cols g)) ->
  game_shape a db db'.
Proof.
  intros H Hrow.
  exists (fun g => if uuid_eqb (Game.id g) i then Game.update cols g else g), [].
  rewrite H, app_nil_r. split; [reflexivity|]. split; [|constructor].
  intros g Hin. destruct (uuid_eqb (Game.id g) i) eqn:E.
  - apply Hrow; [exact Hin|]. apply Nat.eqb_eq. exact E.
  - apply row_ok_refl.
Qed.

(** The row a handler read is the only row its update can reach. *)
Lemma read_row_unique (i : uuid) (db : DB) (g0 g : Game.t) :
  single (games_by_id i db) = Some g0 -> In g (games db) -> Game.id g = i -> g = g0.
Proof.
  intros Hs Hin Hid. eapply single_filter_unique; eauto.
  simpl. apply Nat.eqb_eq. exact Hid.
Qed.

Lemma games_update_game (i : uuid) (cols : list (Game.t -> Game.t)) (db : DB) :
  games (update_game i cols db)
  = map (fun g => if uuid_eqb (Game.id g) i then Game.update cols g else g) (games db).
Proof. reflexivity. Qed.

Lemma games_upsert_play_call (u : Upsert.t) (db : DB) :
  games (upsert_play_call u db) = games db.
Proof. reflexivity. Qed.

Lemma games_mark_ready (i : uuid) (s : Z) (r : PlayRole.t) (db : DB) :
  games (mark_ready i s r db) = games db.
Proof. reflexivity. Qed.

Lemma games_delete_calls_of_game (i : uuid) (db : DB) :
  games (delete_calls_of_game i db) = games db.
Proof. reflexivity. Qed.

Lemma games_delete_calls_of_seq (i : uuid) (s : Z) (db : DB) :
  games (delete_calls_of_seq i s db) = games db.
Proof. reflexivity. Qed.

Lemma games_insert_play (r : Play.t) (db : DB) : games (insert_play r db) = games db.
Proof. reflexivity. Qed.

Lemma games_update_player (p i : uuid) (c : Player.t -> Player.t) (db : DB) :
  games (update_player p i c db) = games db.
Proof. reflexivity. Qed.

Lemma games_delete_player (p i : uuid) (db : DB) :
  games (delete_player p i db) = games db.
Proof. unfold delete_player. destruct (existsb _ _); reflexivity. Qed.

Lemma games_with_players (v : list Player.t) (db : DB) :
  games (with_players v db) = games db.
Proof. reflexivity. Qed.

Lemma games_with_games (v : list Game.t) (db : DB) : games (with_games v db) = v.
Proof. reflexivity. Qed.

Lemma games_with_next_uuid (v : uuid) (db : DB) : games (with_next_uuid v db) = games db.
Proof. reflexivity. Qed.

#[local] Hint Rewrite games_logGameEvent games_update_game games_upsert_play_call
  games_mark_ready games_delete_calls_of_game games_delete_calls_of_seq
  games_insert_play games_update_player games_delete_player games_with_players
  games_with_games games_with_next_uuid : games.

Ltac same := apply shape_same; simpl snd; autorewrite with games; reflexivity.

Ltac upd i cols :=
  apply (shape_update _ _ _ i cols);
  [simpl snd; autorewrite with games; reflexivity|].

Lemma shape_startCoinToss (i : uuid) (db : DB) :
  game_shape (StartCoinToss i) db (snd (startCoinToss i db)).
Proof.
  unfold startCoinToss.
  match goal with
  | |- context [update_game i ?cols db] => upd i cols
  end.
  intros g _ _. row_auto.
Qed.

Lemma shape_resolveCoinToss (i : uuid) (c : Coin.t) (w : Toss.t) (tape : list Z)
  (db : DB) :
  game_shape (ResolveCoinToss i c w) db (snd (resolveCoinTossAction i c w tape db)).
Proof.
  unfold resolveCoinTossAction.
  match goal with
  | |- context [update_game i ?cols db] => upd i cols
  end.
  intros g _ _. row_auto.
Qed.

Lemma shape_flipCoin (i r : uuid) (c : Coin.t) (tape : list Z) (db : DB) :
  game_shape (FlipCoin i r c) db (snd (flipCoinAction i r c tape db)).
Proof.
  unfold flipCoinAction.
  destruct (single (players_by_id r i db)) as [p|]; [|same].
  destruct (negb _); [same|].
  match goal with
  | |- context [update_game i ?cols db] => upd i cols
  end.
  intros g _ _. row_auto.
Qed.

Lemma shape_chooseTossOption (i r : uuid) (c : Toss.t) (db : DB) :
  game_shape (ChooseTossOption i r c) db (snd (chooseTossOptionAction i r c db)).
Proof.
  unfold chooseTossOptionAction.
  destruct (option_map _ _) as [[w|]|]; try same.
  destruct (single (players_by_id r i db)) as [p|]; [|same].
  destruct (negb _); [same|].
  match goal with
  | |- context [update_game i ?cols db] => upd i cols
  end.
  intros g _ _. row_auto.
Qed.

Lemma shape_resolveKickoffTouchback (i : uuid) (db : DB) :
  game_shape (ResolveKickoffTouchback i) db (snd (resolveKickoffTouchbackAction i db)).
Proof.
  unfold resolveKickoffTouchbackAction.
  destruct (single (games_by_id i db)) as [g0|] eqn:Eg; [|same].
  destruct (negb (phase_is g0 Phase.kickoff)) eqn:G; [same|]. guard_facts.
  match goal with
  | |- context [update_game i ?cols db] => upd i cols
  end.
  intros g Hin Hid. rewrite (read_row_unique _ _ _ _ Eg Hin Hid). row_auto.
  destruct (Game.possession_side g0); simpl; tauto.
Qed.

Lemma shape_resetDrive (i r : uuid) (s : option Side.t) (y : option Z) (db : DB) :
  game_shape (ResetDrive i r s y) db (snd (resetDriveAction i r s y db)).
Proof.
  unfold resetDriveAction.
  destruct (single (players_by_id r i db)) as [p|]; [|same].
  destruct (negb (is_ref p)); [same|].
  destruct (negb (int4 _)); [same|].
  match goal with
  | |- context [update_game i ?cols db] => upd i cols
  end.
  intros g _ _. row_auto.
Qed.

Lemma accepts_play_calls_true (s : option Sub.t) :
  accepts_play_calls s = true -> s = Some Sub.play_call \/ s = Some Sub.question.
Proof. destruct s as [[]|]; simpl; intro; try discriminate; auto. Qed.

Lemma shape_submitPlayCall (i p : uuid) (r : PlayRole.t) (c d : string) (db : DB) :
  game_shape (SubmitPlayCall i p r c d) db (snd (submitPlayCallAction i p r c d db)).
Proof.
  unfold submitPlayCallAction.
  destruct (single (games_by_id i db)) as [g0|] eqn:Eg; [|same].
  destruct (negb (phase_is g0 Phase.drive) || _) eqn:G; [same|]. guard_facts.
  match goal with
  | H : accepts_play_calls _ = true |- _ => apply accepts_play_calls_true in H
  end.
  destruct (single (players_by_id p i db)) as [pl|]; [|same].
  destruct (negb (side_eqb _ _)); [same|].
  destruct (existsb _ _ && existsb _ _).
  - upd i [Game.set_play_subphase (Some Sub.question)].
    intros g Hin Hid. rewrite (read_row_unique _ _ _ _ Eg Hin Hid).
    row_auto. destruct H0 as [-> | ->]; auto.
  - upd i [Game.set_play_subphase (Some Sub.play_call)].
    intros g Hin Hid. rewrite (read_row_unique _ _ _ _ Eg Hin Hid).
    row_auto. destruct H0 as [-> | ->]; auto.
Qed.

Lemma shape_submitQuestionAnswer (i p : uuid) (c : bool) (f : option PlayRole.t)
  (m : option Z) (db : DB) :
  game_shape (SubmitQuestionAnswer i p c f m) db
    (snd (submitQuestionAnswerAction i p c f m db)).
Proof.
  unfold submitQuestionAnswerAction.
  destruct (single (games_by_id i db)) as [g0|] eqn:Eg; [|same].
  destruct (negb (phase_is g0 Phase.drive) || _) eqn:G; [same|]. guard_facts.
  destruct (single (players_by_id p i db)) as [pl|]; [|same].
  destruct (negb (is_ref pl) && _ && _); [same|].
  break_handler; try same.
  all: upd i [Game.set_play_subphase (Some Sub.rolls)];
    intros g Hin Hid; rewrite (read_row_unique _ _ _ _ Eg Hin Hid); row_auto.
Qed.

Lemma shape_submitRoll (i p : uuid) (m : option Z) (f : option PlayRole.t)
  (tape : list Z) (db : DB) :
  game_shape (SubmitRoll i p m f) db (snd (submitRollAction i p m f tape db)).
Proof.
  unfold submitRollAction.
  destruct (single (games_by_id i db)) as [g0|] eqn:Eg; [|same].
  destruct (negb (phase_is g0 Phase.drive) || _) eqn:G; [same|]. guard_facts.
  destruct (single (players_by_id p i db)) as [pl|]; [|same].
  break_handler; try same.
  all: upd i [Game.set_play_subphase (Some Sub.rolls_done)];
    intros g Hin Hid; rewrite (read_row_unique _ _ _ _ Eg Hin Hid); row_auto.
Qed.

(** Possession follows the offense out of [advance], and a kickoff it orders has
    a receiver. *)
Lemma advance_sides (g : Game.t) (y : Z) :
  possession (advance g y) = offenseSide (advance g y)
  /\ (phase (advance g y) = Phase.kickoff ->
      Game.phase g <> Phase.kickoff -> possession (advance g y) <> None).
Proof.
  unfold advance.
  repeat match goal with
    | |- context [if ?b then _ else _] => destruct b
    end; simpl; split; try reflexivity; intros; try discriminate; congruence.
Qed.

Lemma advance_phase (g : Game.t) (y : Z) :
  phase (advance g y) = Game.phase g \/ phase (advance g y) = Phase.kickoff.
Proof.
  unfold advance.
  repeat match goal with
    | |- context [if ?b then _ else _] => destruct b
    end; simpl; auto.
Qed.

Lemma shape_continueAfterRoll (i p : uuid) (f : option PlayRole.t) (tape : list Z)
  (db : DB) :
  game_shape (ContinueAfterRoll i p f) db (snd (continueAfterRollAction i p f tape db)).
Proof.
  unfold continueAfterRollAction.
  destruct (single (games_by_id i db)) as [g0|] eqn:Eg; [|same].
  destruct (negb (phase_is g0 Phase.drive) || _) eqn:G; [same|]. guard_facts.
  destruct (single (players_by_id p i db)) as [pl|]; [|same].
  destruct (ready_for _ _ && ready_for _ _); [|same].
  unfold finalizePlayResolution.
  match goal with
  | |- context [single (games_by_id i ?d)] =>
      replace (single (games_by_id i d)) with (Some g0)
        by (rewrite <- Eg; unfold games_by_id; autorewrite with games; reflexivity)
  end.
  destruct (find (role_is PlayRole.offense) _) as [o|]; [|same].
  destruct (find (role_is PlayRole.defense) _) as [d|]; [|same].
  match goal with
  | |- context [update_game i ?cols _] => upd i cols
  end.
  intros g Hin Hid. rewrite (read_row_unique _ _ _ _ Eg Hin Hid).
  match goal with
  | |- context [advance g0 ?y] =>
      pose proof (advance_sides g0 y) as [Hs Hk];
      pose proof (advance_phase g0 y) as Hp
  end.
  unfold row_ok, stage, sides_agree, moves. simpl. rewrite e, e0 in *.
  split; [reflexivity|]. split.
  - right. split; [reflexivity|].
    destruct Hp as [-> | ->]; simpl; auto.
  - intros _. split; [exact Hs|].
    intro Hph. apply Hk; [exact Hph | discriminate].
Qed.

Lemma sides_agree_fresh (i : uuid) (c : string) (st : Status.t) (m : Mode.t) :
  sides_agree (Game.fresh i c st m).
Proof. split; [reflexivity | discriminate]. Qed.

Lemma shape_createLobby (n : string) (codes : list string) (db : DB) :
  game_shape (CreateLobby n codes) db (snd (createLobbyAction n codes db)).
Proof.
  unfold createLobbyAction.
  destruct (JS.is_empty _); [same|].
  set (code := match codes with
               | first :: rest => pick_code 3 first rest db
               | [] => pick_code 3 EmptyString [] db
               end).
  destruct (existsb _ (games db)); [same|].
  unfold insert_player.
  destruct (negb (game_exists _ _)).
  - exists (fun g => g), [Game.fresh (next_uuid db) code Status.lobby_open Mode.trivia].
    simpl. rewrite map_id. split; [reflexivity|]. split.
    + intros g _. apply row_ok_refl.
    + repeat constructor; try discriminate.
  - destruct (existsb _ _).
    + exists (fun g => g), [Game.fresh (next_uuid db) code Status.lobby_open Mode.trivia].
      simpl. rewrite map_id. split; [reflexivity|]. split.
      * intros g _. apply row_ok_refl.
      * repeat constructor; try discriminate.
    + exists (fun g => if uuid_eqb (Game.id g) (next_uuid db)
                       then Game.update [Game.set_host_player_id (Some (S (next_uuid db)))] g
                       else g).
      eexists. simpl snd. autorewrite with games. simpl games.
      rewrite map_app. split; [reflexivity|]. split.
      * intros g _. destruct (uuid_eqb _ _); row_auto.
      * simpl. unfold uuid_eqb. rewrite Nat.eqb_refl.
        repeat constructor; try discriminate.
Qed.

Lemma games_insert_player (i : uuid) (n : string) (r : Role.t) (b : bool)
  (db db' : DB) (u : uuid) :
  insert_player i n r b db = inl (u, db') -> games db' = games db.
Proof.
  unfold insert_player. destruct (negb _); [discriminate|].
  destruct (existsb _ _); [discriminate|].
  intro H. injection H as _ <-. reflexivity.
Qed.

Lemma shape_joinLobby (n c : string) (db : DB) :
  game_shape (JoinLobby n c) db (snd (joinLobbyAction n c db)).
Proof.
  unfold joinLobbyAction.
  destruct (JS.is_empty (JS.trim n)); [same|].
  destruct (JS.is_empty (JS.trim c)); [same|].
  destruct (single _) as [g|]; [|same].
  destruct (Game.lobby_locked g) as [[|]|]; try same.
  - destruct (insert_player _ _ _ _ _) as [[u d]|msg] eqn:E; [|same].
    apply shape_same. simpl. eapply games_insert_player; eauto.
  - destruct (insert_player _ _ _ _ _) as [[u d]|msg] eqn:E; [|same].
    apply shape_same. simpl. eapply games_insert_player; eauto.
Qed.

Lemma shape_updatePlayerSide (p i r : uuid) (s : option Side.t) (db : DB) :
  game_shape (UpdatePlayerSide p i r s) db (snd (updatePlayerSideAction p i r s db)).
Proof. unfold updatePlayerSideAction. break_handler; same. Qed.

Lemma shape_updateTeamNames (i r : uuid) (h a : string) (db : DB) :
  game_shape (UpdateTeamNames i r h a) db (snd (updateTeamNamesAction i r h a db)).
Proof. unfold updateTeamNamesAction. break_handler; same. Qed.

Lemma shape_startGame (i r : uuid) (db : DB) :
  game_shape (StartGame i r) db (snd (startGameAction i r db)).
Proof.
  unfold startGameAction.
  destruct (negb (is_host i r db)); [same|].
  destruct (start_gate _ _); [same|].
  eexists _, []. simpl. rewrite app_nil_r. split; [reflexivity|]. split; [|constructor].
  intros g _. simpl. destruct (_ && _); row_auto.
Qed.

Lemma shape_leaveLobby (p i : uuid) (db : DB) :
  game_shape (LeaveLobby p i) db (snd (leaveLobbyAction p i db)).
Proof.
  unfold leaveLobbyAction.
  destruct (match single (players_by_id p i db) with Some q => is_ref q | None => false end);
    [|same].
  destruct (players_of i (delete_player p i db)) as [|h rest]; [same|].
  upd i [Game.set_host_player_id (Some (Player.id h))].
  intros g _ _. row_auto.
Qed.

Lemma shape_setReady (p i : uuid) (b : bool) (db : DB) :
  game_shape (SetReady p i b) db (snd (setReadyAction p i b db)).
Proof. unfold setReadyAction. same. Qed.

Lemma shape_kickPlayer (r p i : uuid) (db : DB) :
  game_shape (KickPlayer r p i) db (snd (kickPlayerAction r p i db)).
Proof. unfold kickPlayerAction. break_handler; same. Qed.

Lemma shape_setLobbyLocked (r i : uuid) (b : bool) (db : DB) :
  game_shape (SetLobbyLocked r i b) db (snd (setLobbyLockedAction r i b db)).
Proof.
  unfold setLobbyLockedAction. destruct (negb _); [same|].
  upd i [Game.set_lobby_locked (Some b)]. intros g _ _. row_auto.
Qed.

(** Every request leaves the [games] table in the shape of [game_shape]. *)
Lemma perform_shape (a : Action) (tape : list Z) (db : DB) :
  game_shape a db (perform a tape db).
Proof.
  destruct a; unfold perform, handle, respond; cbn [snd].
  - apply shape_startCoinToss.
  - apply shape_resolveCoinToss.
  - apply shape_flipCoin.
  - apply shape_chooseTossOption.
  - apply shape_resolveKickoffTouchback.
  - apply shape_resetDrive.
  - apply shape_submitPlayCall.
  - apply shape_submitQuestionAnswer.
  - apply shape_submitRoll.
  - apply shape_continueAfterRoll.
  - apply shape_createLobby.
  - apply shape_joinLobby.
  - apply shape_updatePlayerSide.
  - apply shape_updateTeamNames.
  - apply shape_startGame.
  - apply shape_leaveLobby.
  - apply shape_setReady.
  - apply shape_kickPlayer.
  - apply shape_setLobbyLocked.
Qed.

Lemma filter_id_map_in (j : uuid) (F : Game.t -> Game.t) (l : list Game.t) :
  (forall g, In g l -> Game.id (F g) = Game.id g) ->
  filter (fun g => uuid_eqb (Game.id g) j) (map F l)
  = map F (filter (fun g => uuid_eqb (Game.id g) j) l).
Proof.
  induction l as [|g l IH]; intro H; simpl; [reflexivity|].
  rewrite (H g) by (left; reflexivity).
  destruct (uuid_eqb (Game.id g) j); simpl; rewrite IH; auto.
  - intros x Hx. apply H. right. exact Hx.
  - intros x Hx. apply H. right. exact Hx.
Qed.

(** One request changes one row within [row_ok]. *)
Lemma perform_row (a : Action) (tape : list Z) (db : DB) (j : uuid) (g g' : Game.t) :
  game_row j db = Some g ->
  game_row j (perform a tape db) = Some g' ->
  row_ok a g g'.
Proof.
  intros Hg Hg'.
  destruct (perform_shape a tape db) as (F & extra & Hgames & Hrow & _).
  unfold game_row, games_by_id in Hg, Hg'. rewrite Hgames in Hg'.
  rewrite filter_app, filter_id_map_in in Hg' by (intros x Hx; apply (Hrow x Hx)).
  pose proof (single_In _ _ _ Hg) as [Hin _].
  destruct (filter _ (games db)) as [|x [|]]; simpl in Hg; try discriminate.
  injection Hg as ->. simpl in Hg'.
  destruct (filter _ extra); simpl in Hg'; try discriminate.
  injection Hg' as <-. apply Hrow. exact Hin.
Qed.

(** Possession agrees with the offense in every row the handlers can produce. *)
Lemma reachable_sides_agree (db : DB) :
  reachable db -> Forall sides_agree (games db).
Proof.
  induction 1 as [|a tape db _ IH|i s r db _ IH]; [constructor| |].
  - destruct (perform_shape a tape db) as (F & extra & Hgames & Hrow & Hextra).
    rewrite Hgames. apply Forall_app. split; [|exact Hextra].
    apply Forall_forall. intros g' Hin. apply in_map_iff in Hin.
    destruct Hin as (g & <- & Hin).
    apply (Hrow g Hin). rewrite Forall_forall in IH. apply IH. exact Hin.
  - autorewrite with games. exact IH.
Qed.

Lemma reachable_run_script (script : list (Action * list Z)) (db : DB) :
  reachable db -> reachable (run_script script db).
Proof.
  unfold run_script. revert db.
  induction script as [|[a tape] script IH]; intros db H; simpl; [exact H|].
  apply IH. apply reachable_step. exact H.
Qed.

(** C7: in every database the handlers can produce, a play resolved by
    [finalizePlayResolution] without a turnover on downs (the first down was
    achieved, or the next down is at most the fourth) and without a touchdown
    leaves possession_side, offense_side and defense_side as they were. *)
Theorem drive_keeps_possession (gameId : uuid) (seq : Z) (tape : list Z)
  (db db' : DB) (g g' : Game.t) (y : Z) :
  reachable db ->
  resolves gameId seq tape db g y db' g' ->
  keeps_the_ball g y ->
  ~ touchdown g y ->
  same_sides g g'.
Proof.
  intros Hreach H Hk Htd.
  pose proof (resolves_row _ _ _ _ _ _ _ _ H) as ->.
  apply resolved_play_keeps_sides; [|exact Hk|exact Htd].
  destruct H as (_ & _ & _ & _ & Hg & _).
  apply single_In in Hg. destruct Hg as [Hin _].
  pose proof (reachable_sides_agree db Hreach) as Hall.
  rewrite Forall_forall in Hall. apply (Hall g Hin).
Qed.

(** ** Two plays: a plain gain and a goal-line score *)

(** The first play of the game: the away offense gains 8 from the 25. *)
Lemma first_play_resolves :
  resolves 1 1 [0] db_first_play (row1 db_first_play) 8 db_first_play_resolved
    (row1 db_first_play_resolved).
Proof. resolves_by_running. Qed.

(** The goal-line play: the home offense gains 5 of the 10 it needs and
    scores. *)
Lemma goal_line_resolves :
  resolves 1 1 [] db_goal_line (row1 db_goal_line) 6 db_goal_line_resolved
    (row1 db_goal_line_resolved).
Proof. resolves_by_running. Qed.

Lemma first_play_reachable : reachable db_first_play.
Proof.
  unfold db_first_play, db_first_snap.
  apply reachable_ready. do 2 apply reachable_run_script. apply reachable_empty.
Qed.

Lemma first_play_no_touchdown : ~ touchdown (row1 db_first_play) 8.
Proof. intros [[H _] | [_ H]]; vm_compute in H; [discriminate | apply H; reflexivity]. Qed.

Lemma resolved_play_in_bounds_witness :
  -20 <= 8 <= 60 /\ 0 <= Game.yard_line (row1 db_first_play_resolved) <= 100.
Proof.
  exact (resolved_play_in_bounds 1 1 [0] db_first_play db_first_play_resolved
           (row1 db_first_play) (row1 db_first_play_resolved) 8 first_play_resolves).
Defined.

Lemma resolved_play_scoring_witness :
  scoring_rule (row1 db_goal_line) (row1 db_goal_line_resolved) 6.
Proof.
  exact (resolved_play_scoring 1 1 [] db_goal_line db_goal_line_resolved
           (row1 db_goal_line) (row1 db_goal_line_resolved) 6 goal_line_resolves).
Defined.

Lemma resolved_play_downs_witness :
  downs_rule (row1 db_first_play) (row1 db_first_play_resolved) 8.
Proof.
  exact (resolved_play_downs 1 1 [0] db_first_play db_first_play_resolved
           (row1 db_first_play) (row1 db_first_play_resolved) 8
           first_play_resolves first_play_no_touchdown).
Defined.

Lemma drive_keeps_possession_witness :
  same_sides (row1 db_first_play) (row1 db_first_play_resolved).
Proof.
  apply (drive_keeps_possession 1 1 [0] db_first_play db_first_play_resolved
           (row1 db_first_play) (row1 db_first_play_resolved) 8).
  - exact first_play_reachable.
  - exact first_play_resolves.
  - right. vm_compute. discriminate.
  - exact first_play_no_touchdown.
Defined.

(** C1, as stated, fails on the goal-line play: first and ten on the home 95,
    the home offense gains 5, fewer than the 10 it needs, and the row is
    written with down 1 and distance 10 instead of down 2 and distance 5. *)
Lemma downs_rule_fails_on_touchdown :
  resolves 1 1 [] db_goal_line (row1 db_goal_line) 6 db_goal_line_resolved
    (row1 db_goal_line_resolved)
  /\ ~ downs_rule (row1 db_goal_line) (row1 db_goal_line_resolved) 6.
Proof.
  split; [exact goal_line_resolves|].
  intros [_ H].
  assert (Hlt : gainedBy (row1 db_goal_line) 6 < Game.distance (row1 db_goal_line))
    by (vm_compute; reflexivity).
  destruct (H Hlt) as [Hdown _].
  assert (Hle : Game.down (row1 db_goal_line) + 1 <= 4)
    by (vm_compute; discriminate).
  destruct (Hdown Hle) as [Hd _].
  vm_compute in Hd. discriminate Hd.
Qed.

(** ** The order of the phases *)

(** C3, as amended: a request either leaves the phase and subphase of a game
    or makes one of the moves of its handler.  The guarded handlers move along
    kickoff -> drive/play_call, play_call <-> question, question -> rolls,
    rolls -> rolls_done, rolls_done -> drive/play_call or kickoff; the
    unguarded ones write their target from any phase: startCoinToss coin_toss,
    flipCoinAction coin_toss_choice, resolveCoinTossAction and
    chooseTossOptionAction kickoff, resetDriveAction drive/play_call.  No
    handler writes finished. *)
Theorem handlers_move_along_their_edges (a : Action) (tape : list Z) (db : DB)
  (j : uuid) (g g' : Game.t) :
  game_row j db = Some g ->
  game_row j (perform a tape db) = Some g' ->
  stage g' = stage g \/ moves a (stage g) (stage g').
Proof.
  intros Hg Hg'. apply (perform_row a tape db j g g' Hg Hg').
Qed.

Lemma handlers_move_along_their_edges_witness :
  stage (row1 (perform (ResetDrive 1 2 None None) [] db_lobby)) = stage (row1 db_lobby)
  \/ moves (ResetDrive 1 2 None None) (stage (row1 db_lobby))
       (stage (row1 (perform (ResetDrive 1 2 None None) [] db_lobby))).
Proof.
  apply (handlers_move_along_their_edges (ResetDrive 1 2 None None) [] db_lobby 1%nat);
    vm_compute; reflexivity.
Defined.

(** C3, as stated, fails: in the lobby, before any coin toss, the ref's
    resetDriveAction moves the game straight to drive/play_call, which is not
    the successor of lobby. *)
Lemma reset_drive_skips_the_order :
  ~ (forall (a : Action) (tape : list Z) (db : DB) (j : uuid) (g g' : Game.t),
        game_row j db = Some g ->
        game_row j (perform a tape db) = Some g' ->
        stage g' <> stage g ->
        follows_order (stage g) (stage g')).
Proof.
  intro H.
  specialize (H (ResetDrive 1 2 None None) [] db_lobby 1%nat (row1 db_lobby)
                (row1 (perform (ResetDrive 1 2 None None) [] db_lobby))).
  assert (Hbad : follows_order (Phase.lobby, None) (Phase.drive, Some Sub.play_call)).
  { apply H; vm_compute; [reflexivity | reflexivity | discriminate]. }
  simpl in Hbad. discriminate Hbad.
Qed.

(** ** Guards *)

(** C10, as amended: in the rolls subphase of a drive and for a caller who is
    a player of the game, when the row found for the target role already holds
    a roll, [submitRollAction] for that role fails with 'Roll already submitted
    for this side.' and leaves the database, the stored roll with it, as it
    was. *)
Theorem recorded_roll_is_kept (gameId playerId : uuid) (manualRoll : option Z)
  (forSide : option PlayRole.t) (tape : list Z) (db : DB) (g : Game.t) (p : Player.t)
  (c : PlayCall.t) (v : Z) :
  game_row gameId db = Some g ->
  Game.phase g = Phase.drive ->
  Game.play_subphase g = Some Sub.rolls ->
  single (players_by_id playerId gameId db) = Some p ->
  find (role_is (targetRoleOf forSide p g)) (calls_of gameId (seq_of g) db) = Some c ->
  PlayCall.roll c = Some v ->
  submitRollAction gameId playerId manualRoll forSide tape db
  = (Failure "Roll already submitted for this side.", db).
Proof.
  intros Hg Hph Hsub Hp Hc Hroll.
  unfold submitRollAction, game_row, seq_of in *.
  rewrite Hg. unfold phase_is, subphase_is. rewrite Hph, Hsub.
  destruct (Phase.eq_dec Phase.drive Phase.drive) as [_|n]; [|contradiction].
  destruct (option_eq_dec Sub.eq_dec (Some Sub.rolls) (Some Sub.rolls)) as [_|n];
    [|contradiction].
  simpl. rewrite Hp, Hc.
  destruct c as [? ? ? ? ? ? ? ? r ?]. simpl in Hroll. subst r. reflexivity.
Qed.

Lemma recorded_roll_is_kept_witness :
  submitRollAction 1 4 (Some 6) None [] db_offense_rolled
  = (Failure "Roll already submitted for this side.", db_offense_rolled).
Proof.
  apply (recorded_roll_is_kept 1 4 (Some 6) None [] db_offense_rolled
           (row1 db_offense_rolled)
           (Player.mk 4 1 "Ann" Role.player (Some Side.away) false)
           (PlayCall.mk 1 4 (Some Side.away) PlayRole.offense (Some "Run")
              (Some "easy") 1 (Some true) (Some 3) false) 3);
    vm_compute; reflexivity.
Defined.

(** C10, as stated, fails.  With the offense's roll of 3 stored: once both
    rolls are in, the call is refused with 'Not accepting rolls right now.'; a
    caller who is no player of the game is told 'Player not found.'; and the
    roll is not immutable: Ann, who rolled the 3, rolls on behalf of the
    defense and then of the offense, both calls succeed, and the roll found for
    the offense is 20. *)
Lemma recorded_roll_is_replaced :
  (roll_of PlayRole.offense 1 1 db_rolled = Some 3
   /\ submitRollAction 1 4 (Some 6) None [] db_rolled
      = (Failure "Not accepting rolls right now.", db_rolled))
  /\ (roll_of PlayRole.offense 1 1 db_offense_rolled = Some 3
      /\ submitRollAction 1 9 (Some 6) (Some PlayRole.offense) [] db_offense_rolled
         = (Failure "Player not found.", db_offense_rolled))
  /\ (roll_of PlayRole.offense 1 1 db_offense_rolled = Some 3
      /\ stage (row1 db_offense_rolled) = (Phase.drive, Some Sub.rolls)
      /\ Forall (fun step => sender (fst step) = Some 4%nat) ann_rolls_again
      /\ roll_of PlayRole.offense 1 1 (run_script ann_rolls_again db_offense_rolled)
         = Some 20).
Proof.
  repeat apply conj; try (vm_compute; reflexivity).
  repeat constructor.
Qed.

Lemma side_is_true (x : option Side.t) (s : Side.t) :
  side_is x s = true <-> x = Some s.
Proof.
  unfold side_is. destruct (option_eq_dec Side.eq_dec x (Some s)); split;
    intro; congruence.
Qed.

Lemma side_eqb_true (x y : option Side.t) : side_eqb x y = true <-> x = y.
Proof.
  unfold side_eqb. destruct (option_eq_dec Side.eq_dec x y); split; intro; congruence.
Qed.

Lemma is_ref_true (p : Player.t) : is_ref p = true <-> Player.role p = Role.ref.
Proof.
  unfold is_ref. destruct (Role.eq_dec (Player.role p) Role.ref); split;
    intro; congruence.
Qed.

(** C6: the role- and side-gated actions reject a caller without the right
    and change no row: [submitPlayCallAction] when the player's side differs
    from the side of the claimed role, [flipCoinAction] unless the requester
    is on the away side or the ref, [chooseTossOptionAction] unless the
    requester is on the toss winner's side or the ref. *)
Theorem unauthorized_caller_is_rejected (a : Action) (tape : list Z) (db : DB) :
  unauthorized a db ->
  exists e, handle a tape db = (Some e, db).
Proof.
  destruct a; simpl; try contradiction; unfold respond.
  - (* flipCoinAction *)
    intro Hno. unfold flipCoinAction.
    destruct (single (players_by_id requesterId gameId db)) as [p|] eqn:Ep;
      [|eexists; reflexivity].
    destruct (side_is (Player.side p) Side.away || is_ref p) eqn:Eok;
      [|eexists; reflexivity].
    exfalso. apply Hno. exists p. split; [exact Ep|].
    apply orb_true_iff in Eok. destruct Eok as [H|H].
    + left. apply side_is_true. exact H.
    + right. apply is_ref_true. exact H.
  - (* chooseTossOptionAction *)
    intro Hno. unfold chooseTossOptionAction. fold (game_row gameId db).
    destruct (game_row gameId db) as [g|] eqn:Eg; [|eexists; reflexivity].
    simpl. destruct (Game.toss_winner_side g) as [w|] eqn:Ew; [|eexists; reflexivity].
    destruct (single (players_by_id requesterId gameId db)) as [p|] eqn:Ep;
      [|eexists; reflexivity].
    destruct (is_ref p || side_is (Player.side p) w) eqn:Eok; [|eexists; reflexivity].
    exfalso. apply Hno. exists p. split; [exact Ep|].
    apply orb_true_iff in Eok. destruct Eok as [H|H].
    + left. apply is_ref_true. exact H.
    + right. exists g, w. repeat split; auto. apply side_is_true. exact H.
  - (* submitPlayCallAction *)
    intros (g & p & Hg & Hp & Hside). unfold submitPlayCallAction.
    unfold game_row in Hg. rewrite Hg.
    destruct (negb (phase_is g Phase.drive) || _); [eexists; reflexivity|].
    rewrite Hp.
    destruct (side_eqb (Player.side p) _) eqn:E; [|eexists; reflexivity].
    exfalso. apply Hside. apply side_eqb_true in E. rewrite E.
    destruct role; reflexivity.
Qed.

(** Hal, on the home side and so on the defense, calls an offensive play. *)
Lemma unauthorized_caller_is_rejected_witness :
  exists e,
    handle (SubmitPlayCall 1 3 PlayRole.offense "Run" "easy") [] db_first_snap
    = (Some e, db_first_snap).
Proof.
  apply (unauthorized_caller_is_rejected
           (SubmitPlayCall 1 3 PlayRole.offense "Run" "easy") [] db_first_snap).
  exists (row1 db_first_snap), (Player.mk 3 1 "Hal" Role.player (Some Side.home) false).
  repeat apply conj; vm_compute; [reflexivity | reflexivity | discriminate].
Defined.

(** What [joinLobbyAction] found when it answered with a success or changed
    the database. *)
Lemma joinLobby_found (n c : string) (db : DB) :
  (exists e, joinLobbyAction n c db = (Failure e, db))
  \/ exists g, In g (games db) /\ open_unlocked c g.
Proof.
  unfold joinLobbyAction.
  destruct (JS.is_empty (JS.trim n)); [left; eexists; reflexivity|].
  destruct (JS.is_empty (JS.trim c)); [left; eexists; reflexivity|].
  destruct (single (open_games_by_code _ db)) as [g|] eqn:Eg;
    [|left; eexists; reflexivity].
  apply single_In in Eg. destruct Eg as [Hin Hsel].
  apply andb_prop in Hsel. destruct Hsel as [Hcode Hst].
  apply String.eqb_eq in Hcode.
  destruct (Status.eq_dec (Game.status g) Status.lobby_open) as [Hopen|];
    [|discriminate].
  destruct (Game.lobby_locked g) as [[|]|] eqn:El.
  - left. eexists. reflexivity.
  - right. exists g. unfold open_unlocked. rewrite El.
    repeat split; auto. discriminate.
  - right. exists g. unfold open_unlocked. rewrite El.
    repeat split; auto. discriminate.
Qed.

(** C9: [joinLobbyAction] answers with an error and inserts no player row when
    the game with the given code is not in status lobby_open or has
    lobby_locked set; a player row is inserted only for an open, unlocked
    lobby. *)
Theorem join_needs_an_open_unlocked_lobby (displayName code : string) (db : DB) :
  (lobby_refuses code db ->
   exists e, joinLobbyAction displayName code db = (Failure e, db))
  /\ (players (snd (joinLobbyAction displayName code db)) <> players db ->
      exists g, In g (games db) /\ open_unlocked code g).
Proof.
  destruct (joinLobby_found displayName code db) as [[e He] | (g & Hin & Hopen)].
  - split.
    + intros _. exists e. exact He.
    + intro Hch. rewrite He in Hch. simpl in Hch. contradiction.
  - split.
    + intro Href. destruct Hopen as (Hc & Hs & Hl).
      destruct (Href g Hin Hc) as [H|H]; contradiction.
    + intros _. exists g. split; assumption.
Qed.

(** Joining a game that has started is refused. *)
Lemma join_needs_an_open_unlocked_lobby_witness :
  exists e, joinLobbyAction "Bob" "abc123" db_started = (Failure e, db_started).
Proof.
  apply (join_needs_an_open_unlocked_lobby "Bob" "abc123" db_started).
  intros g Hin _. left.
  vm_compute in Hin. destruct Hin as [<- | []]. discriminate.
Defined.

(** ** The upsert of a play call *)

Lemma conflicts_overwrite (u : Upsert.t) (c : PlayCall.t) :
  Upsert.conflicts u (Upsert.overwrite u c) = true.
Proof.
  unfold Upsert.conflicts, Upsert.overwrite, uuid_eqb. simpl.
  rewrite !Nat.eqb_refl, Z.eqb_refl. reflexivity.
Qed.

Lemma conflicts_inserted (u : Upsert.t) : Upsert.conflicts u (Upsert.inserted u) = true.
Proof.
  unfold Upsert.conflicts, Upsert.inserted, uuid_eqb. simpl.
  rewrite !Nat.eqb_refl, Z.eqb_refl. reflexivity.
Qed.

Lemma overwrite_overwrite (u : Upsert.t) (c : PlayCall.t) :
  Upsert.overwrite u (Upsert.overwrite u c) = Upsert.overwrite u c.
Proof.
  unfold Upsert.overwrite. simpl. destruct (Upsert.progress u) as [[[a r] b]|]; reflexivity.
Qed.

Lemma overwrite_inserted (u : Upsert.t) :
  Upsert.overwrite u (Upsert.inserted u) = Upsert.inserted u.
Proof.
  unfold Upsert.overwrite, Upsert.inserted. simpl.
  destruct (Upsert.progress u) as [[[a r] b]|]; reflexivity.
Qed.

Lemma existsb_false_forall {A : Type} (P : A -> bool) (l : list A) :
  existsb P l = false -> forall x, In x l -> P x = false.
Proof.
  intros H x Hin. destruct (P x) eqn:E; [|reflexivity].
  assert (existsb P l = true) by (apply existsb_exists; eauto). congruence.
Qed.

(** The upsert is idempotent. *)
Lemma upsert_twice (u : Upsert.t) (table : list PlayCall.t) :
  Upsert.run u (Upsert.run u table) = Upsert.run u table.
Proof.
  unfold Upsert.run at 2 3.
  destruct (existsb (Upsert.conflicts u) table) eqn:E.
  - unfold Upsert.run.
    assert (Hex : existsb (Upsert.conflicts u)
                    (map (fun c => if Upsert.conflicts u c then Upsert.overwrite u c else c)
                       table) = true).
    { apply existsb_exists in E. destruct E as (c & Hin & Hc).
      apply existsb_exists. exists (Upsert.overwrite u c). split.
      - apply in_map_iff. exists c. rewrite Hc. auto.
      - apply conflicts_overwrite. }
    rewrite Hex, map_map. apply map_ext. intro c.
    destruct (Upsert.conflicts u c) eqn:Ec.
    + rewrite conflicts_overwrite. apply overwrite_overwrite.
    + rewrite Ec. reflexivity.
  - unfold Upsert.run.
    rewrite existsb_app. cbn [existsb]. rewrite conflicts_inserted, orb_true_r.
    rewrite map_app. cbn [map]. rewrite conflicts_inserted, overwrite_inserted.
    f_equal. rewrite <- (map_id table) at 2. apply map_ext_in.
    intros c Hin. rewrite (existsb_false_forall _ _ E c Hin). reflexivity.
Qed.

Lemma conflicts_key (u : Upsert.t) (c : PlayCall.t) :
  Upsert.conflicts u c = true
  <-> PlayCall.key c = (Upsert.game_id u, Upsert.player_id u, Upsert.seq u).
Proof.
  unfold Upsert.conflicts, PlayCall.key, uuid_eqb.
  rewrite !andb_true_iff, !Nat.eqb_eq, Z.eqb_eq.
  split; [intros [[-> ->] ->]; reflexivity | intro H; injection H; auto].
Qed.

(** Under the unique constraint at most one row conflicts with an object. *)
Lemma unique_conflict (u : Upsert.t) (table : list PlayCall.t) :
  unique_play_call_seq table ->
  filter (Upsert.conflicts u) table = []
  \/ exists c, filter (Upsert.conflicts u) table = [c].
Proof.
  unfold unique_play_call_seq.
  induction table as [|a table IH]; intro Hnd; simpl; [left; reflexivity|].
  inversion Hnd as [|k ks Hnotin Hnd']; subst.
  destruct (Upsert.conflicts u a) eqn:Ea.
  - right. exists a. f_equal.
    destruct (filter (Upsert.conflicts u) table) as [|b rest] eqn:Ef; [reflexivity|].
    exfalso. apply Hnotin.
    assert (Hb : In b (filter (Upsert.conflicts u) table)) by (rewrite Ef; left; reflexivity).
    apply filter_In in Hb. destruct Hb as [Hin Hb].
    apply conflicts_key in Ea. apply conflicts_key in Hb.
    rewrite Ea, <- Hb. apply in_map. exact Hin.
  - apply IH. exact Hnd'.
Qed.

(** After the upsert exactly one row carries the key of the object, and it
    holds the object's call and difficulty. *)
Lemma upsert_one_row (u : Upsert.t) (table : list PlayCall.t) :
  unique_play_call_seq table ->
  exists row,
    filter (Upsert.conflicts u) (Upsert.run u table) = [row]
    /\ PlayCall.play_call row = Some (Upsert.play_call u)
    /\ PlayCall.difficulty row = Some (Upsert.difficulty u).
Proof.
  intro Hu. unfold Upsert.run.
  destruct (existsb (Upsert.conflicts u) table) eqn:E.
  - assert (Hf : filter (Upsert.conflicts u)
                   (map (fun c => if Upsert.conflicts u c then Upsert.overwrite u c else c)
                      table)
                 = map (Upsert.overwrite u) (filter (Upsert.conflicts u) table)).
    { clear. induction table as [|a table IH]; simpl; [reflexivity|].
      destruct (Upsert.conflicts u a) eqn:Ea.
      - rewrite conflicts_overwrite. simpl. rewrite IH. reflexivity.
      - rewrite Ea. exact IH. }
    rewrite Hf. destruct (unique_conflict u table Hu) as [Hnone | [c Hone]].
    + exfalso. apply existsb_exists in E. destruct E as (c & Hin & Hc).
      assert (Hc' : In c (filter (Upsert.conflicts u) table)) by (apply filter_In; auto).
      rewrite Hnone in Hc'. contradiction.
    + rewrite Hone. simpl. eexists. repeat split.
  - rewrite filter_app. simpl. rewrite conflicts_inserted.
    assert (Hnone : filter (Upsert.conflicts u) table = []).
    { destruct (filter (Upsert.conflicts u) table) as [|b rest] eqn:Ef; [reflexivity|].
      assert (Hb : In b (filter (Upsert.conflicts u) table)) by (rewrite Ef; left; reflexivity).
      apply filter_In in Hb. destruct Hb as [Hin Hb].
      rewrite (existsb_false_forall _ _ E b Hin) in Hb. discriminate. }
    rewrite Hnone. simpl. eexists. repeat split.
Qed.

Lemma phase_is_true (g : Game.t) (p : Phase.t) : phase_is g p = true <-> Game.phase g = p.
Proof.
  unfold phase_is. destruct (Phase.eq_dec (Game.phase g) p); split; intro; congruence.
Qed.

Lemma subphase_is_true (g : Game.t) (s : Sub.t) :
  subphase_is g s = true <-> Game.play_subphase g = Some s.
Proof.
  unfold subphase_is.
  destruct (option_eq_dec Sub.eq_dec (Game.play_subphase g) (Some s)); split;
    intro; congruence.
Qed.

(** [submitPlayCallAction] past its guards: what it answers and writes. *)
Lemma submitPlayCall_runs (i p : uuid) (r : PlayRole.t) (c d : string) (db : DB)
  (g : Game.t) (pl : Player.t) :
  game_row i db = Some g ->
  Game.phase g = Phase.drive ->
  accepts_play_calls (Game.play_subphase g) = true ->
  single (players_by_id p i db) = Some pl ->
  Player.side pl = expected_side r g ->
  exists out sub db',
    submitPlayCallAction i p r c d db = (Success out, db')
    /\ play_calls db' = Upsert.run (call_object i p pl r c d (seq_of g)) (play_calls db)
    /\ players db' = players db
    /\ games db' = games (update_game i [Game.set_play_subphase (Some sub)] db)
    /\ (sub = Sub.question \/ sub = Sub.play_call)
    /\ (sub = Sub.question -> both has_call (calls_of i (seq_of g) db')).
Proof.
  intros Hg Hph Hacc Hp Hside.
  unfold submitPlayCallAction. unfold game_row in Hg. rewrite Hg.
  apply phase_is_true in Hph. rewrite Hph, Hacc. simpl negb. simpl orb. cbv iota.
  rewrite Hp. fold (expected_side r g).
  apply side_eqb_true in Hside. rewrite Hside. simpl negb. cbv iota.
  fold (seq_of g).
  destruct (existsb (role_is PlayRole.offense) _ && existsb (role_is PlayRole.defense) _)
    eqn:Eboth.
  - do 3 eexists. split; [reflexivity|].
    rewrite play_calls_logGameEvent, players_logGameEvent, games_logGameEvent.
    repeat split; auto.
    + apply andb_prop in Eboth. unfold has_call, calls_of.
      rewrite play_calls_logGameEvent. apply Eboth.
    + apply andb_prop in Eboth. unfold has_call, calls_of.
      rewrite play_calls_logGameEvent. apply Eboth.
  - do 3 eexists. split; [reflexivity|].
    repeat split; auto; simpl.
    + rewrite play_calls_logGameEvent. reflexivity.
    + rewrite players_logGameEvent. reflexivity.
    + rewrite games_logGameEvent. reflexivity.
    + discriminate.
    + discriminate.
Qed.

(** A successful [submitPlayCallAction] passed its guards. *)
Lemma submitPlayCall_success (i p : uuid) (r : PlayRole.t) (c d : string)
  (db db' : DB) (out : Outcome) :
  submitPlayCallAction i p r c d db = (Success out, db') ->
  exists g pl,
    game_row i db = Some g
    /\ Game.phase g = Phase.drive
    /\ accepts_play_calls (Game.play_subphase g) = true
    /\ single (players_by_id p i db) = Some pl
    /\ Player.side pl = expected_side r g.
Proof.
  unfold submitPlayCallAction, game_row.
  destruct (single (games_by_id i db)) as [g|]; [|discriminate].
  destruct (phase_is g Phase.drive) eqn:Eph; [|discriminate].
  destruct (accepts_play_calls (Game.play_subphase g)) eqn:Eacc; [|discriminate].
  simpl. destruct (single (players_by_id p i db)) as [pl|]; [|discriminate].
  fold (expected_side r g).
  destruct (side_eqb (Player.side pl) (expected_side r g)) eqn:Es; [|discriminate].
  intros _. exists g, pl. repeat split; auto.
  - apply phase_is_true. exact Eph.
  - apply side_eqb_true. exact Es.
Qed.

(** C5: play-call submission is idempotent.  When a submission succeeds on a
    table that satisfies [unique_play_call_seq], the same submission sent again
    succeeds too and leaves [play_calls] as the first left it: with exactly one
    row under (game_id, player_id, seq), holding that call and difficulty. *)
Theorem play_call_submission_is_idempotent (gameId playerId : uuid) (role : PlayRole.t)
  (playCall difficulty : string) (db db1 : DB) (out1 : Outcome) (g : Game.t) :
  unique_play_call_seq (play_calls db) ->
  game_row gameId db = Some g ->
  submitPlayCallAction gameId playerId role playCall difficulty db = (Success out1, db1) ->
  exists out2 db2 row,
    submitPlayCallAction gameId playerId role playCall difficulty db1 = (Success out2, db2)
    /\ play_calls db2 = play_calls db1
    /\ rows_keyed gameId playerId (seq_of g) (play_calls db2) = [row]
    /\ PlayCall.play_call row = Some playCall
    /\ PlayCall.difficulty row = Some difficulty.
Proof.
  intros Huniq Hg Hrun1.
  destruct (submitPlayCall_success _ _ _ _ _ _ _ _ Hrun1)
    as (g0 & pl & Hg0 & Hph & Hacc & Hpl & Hside).
  rewrite Hg in Hg0. injection Hg0 as <-.
  destruct (submitPlayCall_runs gameId playerId role playCall difficulty db g pl
              Hg Hph Hacc Hpl Hside)
    as (o & sub & d1 & Hrun & Hcalls & Hplayers & Hgames & Hsub & _).
  rewrite Hrun1 in Hrun. injection Hrun as <- <-.
  (* the row the second submission reads *)
  assert (Hg1 : game_row gameId db1
                = Some (Game.update [Game.set_play_subphase (Some sub)] g)).
  { rewrite (game_row_games gameId db1 _ Hgames).
    rewrite game_row_update_same by setters. rewrite Hg. reflexivity. }
  assert (Hpl1 : single (players_by_id playerId gameId db1) = Some pl).
  { unfold players_by_id. rewrite Hplayers. exact Hpl. }
  destruct (submitPlayCall_runs gameId playerId role playCall difficulty db1
              (Game.update [Game.set_play_subphase (Some sub)] g) pl Hg1)
    as (out2 & sub2 & db2 & Hrun2 & Hcalls2 & _).
  { exact Hph. }
  { destruct Hsub as [-> | ->]; reflexivity. }
  { exact Hpl1. }
  { rewrite Hside. destruct role; reflexivity. }
  change (seq_of (Game.update [Game.set_play_subphase (Some sub)] g)) with (seq_of g)
    in Hcalls2.
  assert (Hsame : play_calls db2 = play_calls db1).
  { rewrite Hcalls2, Hcalls. apply upsert_twice. }
  destruct (upsert_one_row (call_object gameId playerId pl role playCall difficulty
                              (seq_of g)) (play_calls db) Huniq)
    as (row & Hrow & Hcall & Hdiff).
  exists out2, db2, row. repeat apply conj; auto.
  rewrite Hsame, Hcalls. exact Hrow.
Qed.

Lemma first_snap_unique : unique_play_call_seq (play_calls db_first_snap).
Proof. vm_compute. constructor. Qed.

Lemma first_snap_row : game_row 1 db_first_snap = Some (row1 db_first_snap).
Proof. vm_compute. reflexivity. Qed.

Lemma first_call_accepted :
  submitPlayCallAction 1 4 PlayRole.offense "Run" "easy" db_first_snap
  = (Success {| message := None; game := Some (row1 db_called_once) |}, db_called_once).
Proof. vm_compute. reflexivity. Qed.

Lemma play_call_submission_is_idempotent_witness :
  exists out2 db2 row,
    submitPlayCallAction 1 4 PlayRole.offense "Run" "easy" db_called_once
    = (Success out2, db2)
    /\ play_calls db2 = play_calls db_called_once
    /\ rows_keyed 1 4 (seq_of (row1 db_first_snap)) (play_calls db2) = [row]
    /\ PlayCall.play_call row = Some "Run"
    /\ PlayCall.difficulty row = Some "easy".
Proof.
  exact (play_call_submission_is_idempotent 1 4 PlayRole.offense "Run" "easy"
           db_first_snap db_called_once
           {| message := None; game := Some (row1 db_called_once) |}
           (row1 db_first_snap) first_snap_unique first_snap_row first_call_accepted).
Defined.

(** ** Both sides before the play moves on *)

Lemma game_row_after_same (j : uuid) (db db' : DB) (g g' : Game.t) :
  games db' = games db ->
  game_row j db = Some g -> game_row j db' = Some g' -> g' = g.
Proof.
  intros H Hg Hg'. rewrite (game_row_games j db' db H) in Hg'. congruence.
Qed.

Lemma game_row_after_update (i j : uuid) (cols : list (Game.t -> Game.t))
  (db db' : DB) (g g' : Game.t) :
  Forall keeps_id cols ->
  games db' = games (update_game i cols db) ->
  game_row j db = Some g -> game_row j db' = Some g' ->
  (j = i /\ g' = Game.update cols g) \/ g' = g.
Proof.
  intros Hk H Hg Hg'. rewrite (game_row_games j db' _ H) in Hg'.
  rewrite game_row_update_game, Hg in Hg' by exact Hk. simpl in Hg'.
  apply game_row_id in Hg.
  destruct (uuid_eqb (Game.id g) i) eqn:E; injection Hg' as <-; [left|right; reflexivity].
  apply Nat.eqb_eq in E. split; [congruence | reflexivity].
Qed.

Lemma submitPlayCall_failure (i p : uuid) (r : PlayRole.t) (c d : string)
  (db db' : DB) (e : string) :
  submitPlayCallAction i p r c d db = (Failure e, db') -> db' = db.
Proof.
  unfold submitPlayCallAction. break_handler; intro H; inversion H; reflexivity.
Qed.

Lemma submitPlayCall_gate (i p : uuid) (r : PlayRole.t) (c d : string) (db : DB)
  (j : uuid) (g g' : Game.t) :
  game_row j db = Some g ->
  game_row j (snd (submitPlayCallAction i p r c d db)) = Some g' ->
  Game.play_subphase g = Some Sub.play_call ->
  Game.play_subphase g' = Some Sub.question ->
  both has_call (calls_of j (seq_of g) (snd (submitPlayCallAction i p r c d db))).
Proof.
  intros Hg Hg' Hs Hs'.
  destruct (submitPlayCallAction i p r c d db) as [[out|e] db'] eqn:Erun; simpl in *.
  - destruct (submitPlayCall_success _ _ _ _ _ _ _ _ Erun)
      as (g0 & pl & Hg0 & Hph & Hacc & Hpl & Hside).
    destruct (submitPlayCall_runs i p r c d db g0 pl Hg0 Hph Hacc Hpl Hside)
      as (o & sub & d1 & Hrun & _ & _ & Hgames & _ & Hboth).
    rewrite Erun in Hrun. injection Hrun as <- <-.
    destruct (game_row_after_update i j [Game.set_play_subphase (Some sub)] db db' g g'
                ltac:(setters) Hgames Hg Hg')
      as [[-> ->] | ->]; [|congruence].
    rewrite Hg in Hg0. injection Hg0 as <-.
    apply Hboth. simpl in Hs'. congruence.
  - apply submitPlayCall_failure in Erun. subst db'. congruence.
Qed.

Lemma find_role_answer (r : PlayRole.t) (calls : list PlayCall.t) (b : bool) :
  option_map PlayCall.answer (find (role_is r) calls) = Some (Some b) ->
  has_answer r calls.
Proof.
  unfold has_answer. destruct (find (role_is r) calls) as [c|]; simpl; [|discriminate].
  intro H. injection H as H. eauto.
Qed.

Lemma submitQuestionAnswer_gate (i p : uuid) (c : bool) (f : option PlayRole.t)
  (m : option Z) (db : DB) (j : uuid) (g g' : Game.t) :
  game_row j db = Some g ->
  game_row j (snd (submitQuestionAnswerAction i p c f m db)) = Some g' ->
  Game.play_subphase g = Some Sub.question ->
  Game.play_subphase g' = Some Sub.rolls ->
  both has_answer (calls_of j (seq_of g) (snd (submitQuestionAnswerAction i p c f m db))).
Proof.
  intros Hg Hg' Hs Hs'.
  assert (Hsame : forall db', games db' = games db -> game_row j db' = Some g' ->
                              both has_answer (calls_of j (seq_of g) db')).
  { intros db' H1 H2. rewrite (game_row_after_same j db db' g g' H1 Hg H2) in Hs'.
    congruence. }
  revert Hg'. unfold submitQuestionAnswerAction. fold (game_row i db).
  destruct (game_row i db) as [g0|] eqn:Eg; [|apply Hsame; reflexivity].
  destruct (negb (phase_is g0 Phase.drive) || _); [apply Hsame; reflexivity|].
  destruct (single (players_by_id p i db)) as [pl|]; [|apply Hsame; reflexivity].
  destruct (negb (is_ref pl) && _ && _); [apply Hsame; reflexivity|].
  fold (seq_of g0).
  match goal with
  | |- context [upsert_play_call ?u db] => set (db1 := upsert_play_call u db)
  end.
  destruct (option_map PlayCall.answer
              (find (role_is PlayRole.offense) (calls_of i (seq_of g0) db1)))
    as [[a|]|] eqn:Eo;
    try (apply Hsame; simpl snd; autorewrite with games; reflexivity).
  destruct (option_map PlayCall.answer
              (find (role_is PlayRole.defense) (calls_of i (seq_of g0) db1)))
    as [[b|]|] eqn:Ed;
    try (apply Hsame; simpl snd; autorewrite with games; reflexivity).
  simpl snd. intro Hg'.
  match type of Hg' with
  | game_row _ ?d = _ =>
      destruct (game_row_after_update i j [Game.set_play_subphase (Some Sub.rolls)] db d
                  g g' ltac:(setters) ltac:(autorewrite with games; reflexivity) Hg Hg')
        as [[-> _] | ->]; [|congruence]
  end.
  rewrite Hg in Eg. injection Eg as <-.
  unfold calls_of. rewrite play_calls_logGameEvent.
  change (play_calls (update_game i [Game.set_play_subphase (Some Sub.rolls)] db1))
    with (play_calls db1).
  split; eapply find_role_answer; eassumption.
Qed.

Lemma find_role_roll (r : PlayRole.t) (calls : list PlayCall.t) (v : Z) :
  match find (role_is r) calls with Some c => PlayCall.roll c | None => None end = Some v ->
  has_roll r calls.
Proof.
  unfold has_roll. destruct (find (role_is r) calls) as [c|]; [|discriminate].
  intro H. eauto.
Qed.

Lemma submitRoll_gate (i p : uuid) (m : option Z) (f : option PlayRole.t)
  (tape : list Z) (db : DB) (j : uuid) (g g' : Game.t) :
  game_row j db = Some g ->
  game_row j (snd (submitRollAction i p m f tape db)) = Some g' ->
  Game.play_subphase g = Some Sub.rolls ->
  Game.play_subphase g' = Some Sub.rolls_done ->
  both has_roll (calls_of j (seq_of g) (snd (submitRollAction i p m f tape db))).
Proof.
  intros Hg Hg' Hs Hs'.
  assert (Hsame : forall db', games db' = games db -> game_row j db' = Some g' ->
                              both has_roll (calls_of j (seq_of g) db')).
  { intros db' H1 H2. rewrite (game_row_after_same j db db' g g' H1 Hg H2) in Hs'.
    congruence. }
  revert Hg'. unfold submitRollAction. fold (game_row i db).
  destruct (game_row i db) as [g0|] eqn:Eg; [|apply Hsame; reflexivity].
  destruct (negb (phase_is g0 Phase.drive) || _); [apply Hsame; reflexivity|].
  destruct (single (players_by_id p i db)) as [pl|]; [|apply Hsame; reflexivity].
  fold (seq_of g0).
  assert (Hmain : forall d,
            games d = games db ->
            game_row j
              (snd
                 (let db1 := d in
                  let updatedCalls := calls_of i (seq_of g0) db1 in
                  let offenseRoll :=
                    match find (role_is PlayRole.offense) updatedCalls with
                    | Some c => PlayCall.roll c
                    | None => None
                    end in
                  let defenseRoll :=
                    match find (role_is PlayRole.defense) updatedCalls with
                    | Some c => PlayCall.roll c
                    | None => None
                    end in
                  let db2 := logGameEvent i "roll_submitted" db1 in
                  let db3 :=
                    match offenseRoll, defenseRoll with
                    | Some _, Some _ =>
                        logGameEvent i "rolls_completed"
                          (update_game i
                             [ Game.set_play_subphase (Some Sub.rolls_done) ] db2)
                    | _, _ => db2
                    end in
                  (Success {| message := Some "Roll recorded."; game := None |}, db3)))
            = Some g' ->
            both has_roll
              (calls_of j (seq_of g)
                 (snd
                    (let db1 := d in
                     let updatedCalls := calls_of i (seq_of g0) db1 in
                     let offenseRoll :=
                       match find (role_is PlayRole.offense) updatedCalls with
                       | Some c => PlayCall.roll c
                       | None => None
                       end in
                     let defenseRoll :=
                       match find (role_is PlayRole.defense) updatedCalls with
                       | Some c => PlayCall.roll c
                       | None => None
                       end in
                     let db2 := logGameEvent i "roll_submitted" db1 in
                     let db3 :=
                       match offenseRoll, defenseRoll with
                       | Some _, Some _ =>
                           logGameEvent i "rolls_completed"
                             (update_game i
                                [ Game.set_play_subphase (Some Sub.rolls_done) ] db2)
                       | _, _ => db2
                       end in
                     (Success {| message := Some "Roll recorded."; game := None |},
                      db3))))).
  { intros db1 Hd. cbv zeta.
    destruct (match find (role_is PlayRole.offense) (calls_of i (seq_of g0) db1) with
              | Some c => PlayCall.roll c
              | None => None
              end) as [vo|] eqn:Eo;
      [|apply Hsame; simpl snd; autorewrite with games; exact Hd].
    destruct (match find (role_is PlayRole.defense) (calls_of i (seq_of g0) db1) with
              | Some c => PlayCall.roll c
              | None => None
              end) as [vd|] eqn:Ed;
      [|apply Hsame; simpl snd; autorewrite with games; exact Hd].
    simpl snd. intro Hg'.
    match type of Hg' with
    | game_row _ ?d = _ =>
        destruct (game_row_after_update i j [Game.set_play_subphase (Some Sub.rolls_done)]
                    db d g g' ltac:(setters)
                    ltac:(autorewrite with games; rewrite Hd; reflexivity) Hg Hg')
          as [[-> _] | ->]; [|congruence]
    end.
    rewrite Hg in Eg. injection Eg as <-.
    unfold calls_of. rewrite play_calls_logGameEvent.
    change (play_calls
              (update_game i [Game.set_play_subphase (Some Sub.rolls_done)]
                 (logGameEvent i "roll_submitted" db1)))
      with (play_calls (logGameEvent i "roll_submitted" db1)).
    rewrite play_calls_logGameEvent.
    split; eapply find_role_roll; eassumption. }
  destruct (find (role_is (targetRoleOf f pl g0)) (calls_of i (seq_of g0) db))
    as [[? ? ? ? ? ? ? ? [v|] ?]|].
  - apply Hsame. reflexivity.
  - apply Hmain. destruct (int4 _); reflexivity.
  - apply Hmain. destruct (int4 _); reflexivity.
Qed.

(** Deleting the calls of another play leaves the calls of this one. *)
Lemma calls_of_delete_other (i : uuid) (s s' : Z) (db : DB) :
  s <> s' -> calls_of i s (delete_calls_of_seq i s' db) = calls_of i s db.
Proof.
  intro Hne. unfold calls_of, delete_calls_of_seq. simpl.
  induction (play_calls db) as [|c l IH]; simpl; [reflexivity|].
  destruct (uuid_eqb (PlayCall.game_id c) i) eqn:Ei; simpl.
  - destruct (PlayCall.seq c =? s') eqn:Es'; simpl.
    + apply Z.eqb_eq in Es'.
      assert (Hs : (PlayCall.seq c =? s) = false) by (apply Z.eqb_neq; congruence).
      rewrite Hs. exact IH.
    + rewrite Ei. simpl. destruct (PlayCall.seq c =? s); rewrite IH; reflexivity.
  - rewrite Ei. simpl. exact IH.
Qed.

Lemma continueAfterRoll_gate (i p : uuid) (f : option PlayRole.t) (tape : list Z)
  (db : DB) (g g' : Game.t) :
  game_row i db = Some g ->
  game_row i (snd (continueAfterRollAction i p f tape db)) = Some g' ->
  g' <> g ->
  both is_ready (calls_of i (seq_of g) (snd (continueAfterRollAction i p f tape db))).
Proof.
  intros Hg Hg' Hne.
  assert (Hsame : forall db', games db' = games db -> game_row i db' = Some g' ->
                              both is_ready (calls_of i (seq_of g) db')).
  { intros db' H1 H2. elim Hne. exact (game_row_after_same i db db' g g' H1 Hg H2). }
  revert Hg'. unfold continueAfterRollAction. fold (game_row i db). rewrite Hg.
  destruct (negb (phase_is g Phase.drive) || _); [apply Hsame; reflexivity|].
  destruct (single (players_by_id p i db)) as [pl|]; [|apply Hsame; reflexivity].
  fold (seq_of g).
  set (db1 := mark_ready i (seq_of g) (targetRoleOf f pl g) db).
  destruct (ready_for PlayRole.offense (calls_of i (seq_of g) db1)) eqn:Eo;
    [|apply Hsame; simpl snd; autorewrite with games; reflexivity].
  destruct (ready_for PlayRole.defense (calls_of i (seq_of g) db1)) eqn:Ed;
    [|apply Hsame; simpl snd; autorewrite with games; reflexivity].
  simpl andb. cbv iota.
  unfold finalizePlayResolution.
  replace (single (games_by_id i (logGameEvent i "ready_after_roll" db1)))
    with (Some g)
    by (rewrite <- Hg; unfold game_row, games_by_id; autorewrite with games;
        reflexivity).
  destruct (find (role_is PlayRole.offense) _) as [o|];
    [|apply Hsame; simpl snd; autorewrite with games; reflexivity].
  destruct (find (role_is PlayRole.defense) _) as [d|];
    [|apply Hsame; simpl snd; autorewrite with games; reflexivity].
  intros _. simpl snd.
  unfold calls_of at 1. rewrite play_calls_logGameEvent.
  change (play_calls (insert_play ?r ?d)) with (play_calls d).
  match goal with
  | |- context [delete_calls_of_seq i ?n ?d] =>
      change (filter
                (fun c => uuid_eqb (PlayCall.game_id c) i && (PlayCall.seq c =? seq_of g))
                (play_calls (delete_calls_of_seq i n d)))
        with (calls_of i (seq_of g) (delete_calls_of_seq i n d));
      rewrite calls_of_delete_other
  end.
  - unfold calls_of.
    change (play_calls (update_game ?a ?b ?d)) with (play_calls d).
    rewrite play_calls_logGameEvent. split; assumption.
  - unfold seq_of. lia.
Qed.




(** * Further properties of the handlers *)

(** ** Dice *)

Lemma always_bind_post {A B : Type} (Q : A -> Prop) (P : B -> Prop) (m : Rand A)
  (k : A -> Rand B) :
  always Q m -> (forall a, Q a -> always P (k a)) -> always P (bind m k).
Proof.
  intros Hm Hk tape. unfold bind. specialize (Hm tape).
  destruct (m tape) as [a tape']. apply Hk. exact Hm.
Qed.

Lemma always_weaken {A : Type} (P Q : A -> Prop) (m : Rand A) :
  always P m -> (forall a, P a -> Q a) -> always Q m.
Proof. intros H HPQ tape. apply HPQ, H. Qed.

Lemma Math_random_range : always (fun u => 0 <= u < two53) Math_random.
Proof.
  intros [|k rest]; simpl.
  - unfold two53. lia.
  - apply Z.mod_pos_bound. unfold two53. lia.
Qed.

Lemma randomInt_between (min max : Z) :
  min <= max -> always (between min max) (randomInt min max).
Proof.
  intro Hle. unfold randomInt.
  apply (always_bind_post (fun u => 0 <= u < two53)); [apply Math_random_range|].
  intros u Hu. apply always_ret. unfold between.
  assert (H53 : 0 < two53) by (unfold two53; lia).
  assert (H0 : 0 <= u * (max - min + 1) / two53) by (apply Z.div_pos; nia).
  assert (H1 : u * (max - min + 1) / two53 < max - min + 1)
    by (apply Z.div_lt_upper_bound; nia).
  lia.
Qed.

(** [randomInt(min, max)] lands in [min, max] whatever [Math.random] draws, and
    both ends are drawn: the smallest draw gives [min], the largest gives
    [max], as long as the range has no more values than [Math.random] has. *)
Theorem randomInt_range (min max : Z) :
  min <= max -> max - min < two53 ->
  always (between min max) (randomInt min max)
  /\ fst (randomInt min max [0]) = min
  /\ fst (randomInt min max [two53 - 1]) = max.
Proof.
  intros Hle Hsmall. split; [apply randomInt_between; exact Hle|].
  assert (H53 : 0 < two53) by (unfold two53; lia).
  unfold randomInt, bind, Math_random, ret. cbn [fst].
  split.
  - rewrite Z.mod_0_l by lia. rewrite Z.mul_0_l, Z.div_0_l by lia. lia.
  - rewrite Z.mod_small by lia.
    assert (Hq : (two53 - 1) * (max - min + 1) / two53 = max - min).
    { symmetry. apply (Z.div_unique_pos _ _ _ (two53 - (max - min + 1))); lia. }
    rewrite Hq. lia.
Qed.

(** A d4: every draw is between 1 and 4, the extreme draws give 1 and 4. *)
Lemma randomInt_range_witness :
  always (between 1 4) (randomInt 1 4)
  /\ fst (randomInt 1 4 [0]) = 1
  /\ fst (randomInt 1 4 [two53 - 1]) = 4.
Proof. apply (randomInt_range 1 4); unfold two53; lia. Defined.

(** [rollByDifficulty]: one d4 for easy (and for any unknown difficulty), two
    d4 for medium, a d10 for hard, a d20 for hail_mary. *)
Theorem rollByDifficulty_range (difficulty : string) :
  always
    (fun v =>
       (difficulty = "medium" -> between 2 8 v)
       /\ (difficulty = "hard" -> between 1 10 v)
       /\ (difficulty = "hail_mary" -> between 1 20 v)
       /\ (difficulty <> "medium" -> difficulty <> "hard" ->
           difficulty <> "hail_mary" -> between 1 4 v))
    (rollByDifficulty difficulty).
Proof.
  unfold rollByDifficulty.
  destruct (String.eqb_spec difficulty "easy") as [->|He].
  { eapply always_weaken; [apply (randomInt_between 1 4); lia|].
    intros v Hv. unfold between in *.
    repeat split; intros; try discriminate; try congruence; lia. }
  destruct (String.eqb_spec difficulty "medium") as [->|Hm].
  { apply (always_bind_post (between 1 4)); [apply randomInt_between; lia|].
    intros a Ha.
    apply (always_bind_post (between 1 4)); [apply randomInt_between; lia|].
    intros b Hb. apply always_ret. unfold between in *.
    repeat split; intros; try discriminate; try congruence; lia. }
  destruct (String.eqb_spec difficulty "hard") as [->|Hh].
  { eapply always_weaken; [apply (randomInt_between 1 10); lia|].
    intros v Hv. unfold between in *.
    repeat split; intros; try discriminate; try congruence; lia. }
  destruct (String.eqb_spec difficulty "hail_mary") as [->|Hhm].
  { eapply always_weaken; [apply (randomInt_between 1 20); lia|].
    intros v Hv. unfold between in *.
    repeat split; intros; try discriminate; try congruence; lia. }
  eapply always_weaken; [apply (randomInt_between 1 4); lia|].
  intros v Hv. unfold between in *.
  repeat split; intros; try congruence; lia.
Qed.

(** ** The matchup modifier *)

Lemma matchupMod_always (offense defense : string) (offenseCorrect : bool) :
  always
    (fun r => between (-6) 7 (fst r) /\ snd r = deepBall offense)
    (matchupMod offense defense offenseCorrect).
Proof.
  unfold matchupMod, deepBall. cbv zeta.
  destruct offenseCorrect;
    repeat match goal with
      | |- context [JS.includes ?s ?n] => destruct (JS.includes s n)
      end;
    cbn [orb andb negb];
    first
      [ apply always_ret; unfold between; simpl; split; [lia | reflexivity]
      | eapply always_bind_post;
        [ apply randomInt_between; lia
        | intros m Hm; apply always_ret; unfold between in *; simpl;
          split; [lia | reflexivity] ] ].
Qed.

Lemma prefix_shorter (a b s : string) :
  String.prefix (a ++ b) s = true -> String.prefix a s = true.
Proof.
  revert s. induction a as [|c a IH]; intros s H; [destruct s; reflexivity|].
  destruct s as [|c' s]; [discriminate|]. simpl in *.
  destruct (Ascii.ascii_dec c c'); [apply IH; exact H | discriminate].
Qed.

Lemma includes_shorter (a b s : string) :
  JS.includes s (a ++ b) = true -> JS.includes s a = true.
Proof.
  induction s as [|c s IH]; cbn [JS.includes]; intro H.
  - apply (prefix_shorter a b). exact H.
  - apply orb_true_iff in H. apply orb_true_iff. destruct H as [H|H].
    + left. apply (prefix_shorter a b). exact H.
    + right. apply IH. exact H.
Qed.

Lemma matchupMod_blitz (offense defense : string) (offenseCorrect : bool) :
  blitz_only defense = true -> names_a_play offense = true ->
  always
    (fun r => if offenseCorrect then 3 <= fst r else fst r <= 0)
    (matchupMod offense defense offenseCorrect).
Proof.
  unfold blitz_only, names_a_play, matchupMod. cbv zeta. intros Hd Ho.
  destruct (JS.includes (JS.toLowerCase defense) "run stop") eqn:Estop.
  { apply (includes_shorter "run" " stop") in Estop. rewrite Estop in Hd.
    rewrite andb_false_r in Hd. discriminate. }
  revert Hd Ho.
  destruct offenseCorrect;
    repeat match goal with
      | |- context [JS.includes ?s ?n] => destruct (JS.includes s n)
      end;
    cbn [orb andb negb]; intros Hd Ho; try discriminate;
    (eapply always_bind_post;
     [ apply randomInt_between; lia
     | intros m Hm; apply always_ret; unfold between in *; simpl; lia ]).
Qed.

(** [matchupMod] stays within [-6, 7], and raises [turnoverChance] exactly on
    its deep-ball branch: a call that names neither a run nor a screen and names
    a deep ball or a hail mary.  Against a blitz (a defense that names a blitz
    and neither a pass nor a run) a run, screen, deep ball, hail mary or pass
    is boom or bust: at least 3 when the offense answered right, at most 0
    when it answered wrong. *)
Theorem matchupMod_bounds (offense defense : string) (offenseCorrect : bool) :
  always
    (fun r =>
       between (-6) 7 (fst r) /\ snd r = deepBall offense
       /\ (blitz_only defense = true -> names_a_play offense = true ->
           if offenseCorrect then 3 <= fst r else fst r <= 0))
    (matchupMod offense defense offenseCorrect).
Proof.
  intro tape.
  destruct (matchupMod_always offense defense offenseCorrect tape) as [Hb Ht].
  split; [exact Hb | split; [exact Ht|]].
  intros Hd Ho. exact (matchupMod_blitz offense defense offenseCorrect Hd Ho tape).
Qed.

(** A run into a blitz: at least 3 on a right answer, at most 0 on a wrong
    one. *)
Lemma matchupMod_bounds_witness :
  3 <= fst (fst (matchupMod "Run" "Blitz" true [5]))
  /\ fst (fst (matchupMod "Run" "Blitz" false [5])) <= 0.
Proof.
  split.
  - apply (proj2 (proj2 (matchupMod_bounds "Run" "Blitz" true [5]))); reflexivity.
  - apply (proj2 (proj2 (matchupMod_bounds "Run" "Blitz" false [5]))); reflexivity.
Defined.

Lemma always_ret_eq {A : Type} (a : A) : always (fun x => x = a) (ret a).
Proof. intro tape. reflexivity. Qed.

(** ** The yardage of a play

    An incomplete pass against a defense that answered wrong loses nothing: on
    a pass or a screen (no hail mary) with both answers wrong, the yardage is
    between 0 and 7. *)
Theorem incomplete_pass_is_no_loss (offense defense : PlayCall.t) :
  isPassLike (JS.nullish (PlayCall.play_call offense) "Run") = true ->
  isHail (JS.nullish (PlayCall.play_call offense) "Run") = false ->
  JS.nullish (PlayCall.answer offense) false = false ->
  JS.nullish (PlayCall.answer defense) false = false ->
  always (fun r => between 0 7 (yards r)) (resolveYards offense defense).
Proof.
  intros Hpass Hhail Hoc Hdc. unfold resolveYards. cbv zeta.
  fold_play_tests (JS.nullish (PlayCall.play_call offense) "Run").
  rewrite Hoc, Hdc.
  apply always_bind; intro dieO. apply always_bind; intro dieD.
  rewrite Hpass, Hhail. unfold baseYards, defenseAdjust. cbn [andb negb orb].
  apply (always_bind_post (fun y => y = 0)); [apply always_ret_eq|]. intros y0 ->.
  eapply always_bind_post; [apply matchupMod_always|]. intros [m tc] [Hm _].
  cbn [fst snd] in *.
  eapply always_bind_post; [apply always_ret_eq|]. intros y2 ->.
  eapply always_bind_post; [apply always_ret_eq|]. intros y3 ->.
  apply always_ret. unfold between, JS.max, JS.min in *. simpl. lia.
Qed.

Lemma incomplete_pass_is_no_loss_witness :
  always (fun r => between 0 7 (yards r)) (resolveYards call_pass_wrong call_zone_wrong).
Proof.
  apply (incomplete_pass_is_no_loss call_pass_wrong call_zone_wrong);
    vm_compute; reflexivity.
Defined.

(** A hail mary answered wrong with a stored offense die of at most 3 is turned
    over for a loss of 5 to 12 yards, whatever the defense did. *)
Theorem hail_mary_interception (offense defense : PlayCall.t) (v : Z) :
  isHail (JS.nullish (PlayCall.play_call offense) "Run") = true ->
  deepBall (JS.nullish (PlayCall.play_call offense) "Run") = true ->
  JS.nullish (PlayCall.answer offense) false = false ->
  PlayCall.roll offense = Some v ->
  v <= 3 ->
  always (fun r => between (-12) (-5) (yards r)) (resolveYards offense defense).
Proof.
  intros Hhail Hdeep Hoc Hroll Hv. unfold resolveYards. cbv zeta.
  fold_play_tests (JS.nullish (PlayCall.play_call offense) "Run").
  rewrite Hoc, Hroll.
  eapply always_bind_post; [apply always_ret_eq|]. intros dieO ->.
  apply always_bind; intro dieD.
  apply always_bind; intro y0.
  eapply always_bind_post; [apply matchupMod_always|]. intros [m tc] [_ Htc].
  cbn [fst snd] in *. rewrite Htc, Hdeep, Hhail.
  apply always_bind; intro y2.
  assert (Hle : (v <=? 3) = true) by (apply Z.leb_le; exact Hv).
  rewrite Hle. cbn [andb negb].
  apply (always_bind_post (between (-12) (-5))).
  { eapply always_bind_post; [apply (randomInt_between 5 12); lia|].
    intros r Hr. apply always_ret. unfold between in *. lia. }
  intros y3 Hy3. apply always_ret. unfold between, JS.max, JS.min in *. simpl. lia.
Qed.

Lemma hail_mary_interception_witness :
  always (fun r => between (-12) (-5) (yards r))
    (resolveYards call_hail_wrong call_zone_wrong).
Proof.
  apply (hail_mary_interception call_hail_wrong call_zone_wrong 2);
    vm_compute; try reflexivity; discriminate.
Defined.

(** A hail mary answered right against a defense that answered wrong gains 8
    to 59 yards, and at least 26 when the offense's die is 17 or more. *)
Theorem hail_mary_completion (offense defense : PlayCall.t) :
  isHail (JS.nullish (PlayCall.play_call offense) "Run") = true ->
  JS.nullish (PlayCall.answer offense) false = true ->
  JS.nullish (PlayCall.answer defense) false = false ->
  always (fun r => between 8 59 (yards r)
                   /\ (17 <= dieOffense r -> between 26 59 (yards r)))
    (resolveYards offense defense).
Proof.
  intros Hhail Hoc Hdc. unfold resolveYards. cbv zeta.
  fold_play_tests (JS.nullish (PlayCall.play_call offense) "Run").
  rewrite Hoc, Hdc, Hhail.
  apply always_bind; intro dieO. apply always_bind; intro dieD.
  unfold baseYards, defenseAdjust. cbn [andb negb orb].
  apply (always_bind_post (fun y => between 12 50 y /\ (17 <= dieO -> between 30 50 y))).
  { destruct (dieO >=? 17) eqn:E.
    - eapply always_weaken; [apply (randomInt_between 30 50); lia|].
      unfold between. intros; lia.
    - eapply always_weaken; [apply (randomInt_between 12 24); lia|].
      unfold between. intros a Ha. split; [lia|]. intro. rewrite Z.geb_leb in E.
      apply Z.leb_gt in E. lia. }
  intros y0 [Hy0 Hy0'].
  eapply always_bind_post; [apply matchupMod_always|]. intros [m tc] [Hm _].
  cbn [fst snd] in *.
  eapply always_bind_post; [apply always_ret_eq|]. intros y2 ->.
  eapply always_bind_post; [apply always_ret_eq|]. intros y3 ->.
  apply always_ret. unfold between, JS.max, JS.min in *. simpl.
  destruct (isPassLike _); simpl; lia.
Qed.

Lemma hail_mary_completion_witness :
  always (fun r => between 8 59 (yards r)
                   /\ (17 <= dieOffense r -> between 26 59 (yards r)))
    (resolveYards call_hail_right call_zone_wrong).
Proof.
  apply (hail_mary_completion call_hail_right call_zone_wrong);
    vm_compute; reflexivity.
Defined.

(** ** Invariants of the game rows *)

Lemma wf_same (db db' : DB) : games db' = games db -> wf_shape db db'.
Proof.
  intro H. exists (fun g => g), []. rewrite H, map_id, app_nil_r.
  split; [reflexivity|]. split; [auto|constructor].
Qed.

Lemma wf_update (db db' : DB) (i : uuid) (cols : list (Game.t -> Game.t)) :
  games db' = games (update_game i cols db) ->
  (forall g, In g (games db) -> Game.id g = i -> row_wf g ->
             row_wf (Game.update cols g)) ->
  wf_shape db db'.
Proof.
  intros H Hrow.
  exists (fun g => if uuid_eqb (Game.id g) i then Game.update cols g else g), [].
  rewrite H, app_nil_r. split; [reflexivity|]. split; [|constructor].
  intros g Hin Hwf. destruct (uuid_eqb (Game.id g) i) eqn:E; [|exact Hwf].
  apply Hrow; auto. apply Nat.eqb_eq. exact E.
Qed.

Ltac wf_same_tac := apply wf_same; simpl snd; autorewrite with games; reflexivity.

Ltac wf_upd i cols :=
  apply (wf_update _ _ i cols);
  [simpl snd; autorewrite with games; reflexivity|].

(** Closes [row_wf] of an updated row whose columns are constants or copies. *)
Ltac wf_auto :=
  unfold row_wf, field_ok, score_ok, sides_opposite, seq_ok in *; cbn -[Z.mul];
  repeat match goal with
    | H : _ /\ _ |- _ => destruct H
    end;
  repeat apply conj; try lia; try assumption;
  try (intros [?|?]; try discriminate; try congruence; eauto; fail);
  try (eexists; split; [reflexivity | lia]).

Lemma wf_startCoinToss (i : uuid) (db : DB) : wf_shape db (snd (startCoinToss i db)).
Proof.
  unfold startCoinToss.
  match goal with
  | |- context [update_game i ?cols db] => wf_upd i cols
  end.
  intros g _ _ Hwf. wf_auto.
Qed.

Lemma wf_resolveCoinToss (i : uuid) (c : Coin.t) (w : Toss.t) (tape : list Z) (db : DB) :
  wf_shape db (snd (resolveCoinTossAction i c w tape db)).
Proof.
  unfold resolveCoinTossAction.
  match goal with
  | |- context [update_game i ?cols db] => wf_upd i cols
  end.
  intros g _ _ Hwf. wf_auto.
Qed.

Lemma wf_flipCoin (i r : uuid) (c : Coin.t) (tape : list Z) (db : DB) :
  wf_shape db (snd (flipCoinAction i r c tape db)).
Proof.
  unfold flipCoinAction.
  destruct (single (players_by_id r i db)) as [p|]; [|wf_same_tac].
  destruct (negb _); [wf_same_tac|].
  match goal with
  | |- context [update_game i ?cols db] => wf_upd i cols
  end.
  intros g _ _ Hwf. wf_auto.
Qed.

Lemma wf_chooseTossOption (i r : uuid) (c : Toss.t) (db : DB) :
  wf_shape db (snd (chooseTossOptionAction i r c db)).
Proof.
  unfold chooseTossOptionAction.
  destruct (option_map _ _) as [[w|]|]; try wf_same_tac.
  destruct (single (players_by_id r i db)) as [p|]; [|wf_same_tac].
  destruct (negb _); [wf_same_tac|].
  match goal with
  | |- context [update_game i ?cols db] => wf_upd i cols
  end.
  intros g _ _ Hwf. wf_auto.
Qed.

Lemma wf_resolveKickoffTouchback (i : uuid) (db : DB) :
  wf_shape db (snd (resolveKickoffTouchbackAction i db)).
Proof.
  unfold resolveKickoffTouchbackAction.
  destruct (single (games_by_id i db)) as [g0|]; [|wf_same_tac].
  destruct (negb _); [wf_same_tac|].
  match goal with
  | |- context [update_game i ?cols db] => wf_upd i cols
  end.
  intros g _ _ Hwf. wf_auto.
Qed.

Lemma wf_resetDrive (i r : uuid) (s : option Side.t) (y : option Z) (db : DB) :
  wf_shape db (snd (resetDriveAction i r s y db)).
Proof.
  unfold resetDriveAction.
  destruct (single (players_by_id r i db)) as [p|]; [|wf_same_tac].
  destruct (negb (is_ref p)); [wf_same_tac|].
  destruct (negb (int4 _)); [wf_same_tac|].
  match goal with
  | |- context [update_game i ?cols db] => wf_upd i cols
  end.
  intros g _ _ Hwf. wf_auto.
Qed.

Lemma wf_submitPlayCall (i p : uuid) (r : PlayRole.t) (c d : string) (db : DB) :
  wf_shape db (snd (submitPlayCallAction i p r c d db)).
Proof.
  unfold submitPlayCallAction.
  destruct (single (games_by_id i db)) as [g0|]; [|wf_same_tac].
  destruct (negb (phase_is g0 Phase.drive) || _); [wf_same_tac|].
  destruct (single (players_by_id p i db)) as [pl|]; [|wf_same_tac].
  destruct (negb (side_eqb _ _)); [wf_same_tac|].
  destruct (existsb _ _ && existsb _ _).
  - wf_upd i [Game.set_play_subphase (Some Sub.question)]. intros g _ _ Hwf. wf_auto.
  - wf_upd i [Game.set_play_subphase (Some Sub.play_call)]. intros g _ _ Hwf. wf_auto.
Qed.

Lemma wf_submitQuestionAnswer (i p : uuid) (c : bool) (f : option PlayRole.t)
  (m : option Z) (db : DB) :
  wf_shape db (snd (submitQuestionAnswerAction i p c f m db)).
Proof.
  unfold submitQuestionAnswerAction.
  destruct (single (games_by_id i db)) as [g0|]; [|wf_same_tac].
  destruct (negb (phase_is g0 Phase.drive) || _); [wf_same_tac|].
  destruct (single (players_by_id p i db)) as [pl|]; [|wf_same_tac].
  destruct (negb (is_ref pl) && _ && _); [wf_same_tac|].
  break_handler; try wf_same_tac.
  all: wf_upd i [Game.set_play_subphase (Some Sub.rolls)]; intros g _ _ Hwf; wf_auto.
Qed.

Lemma wf_submitRoll (i p : uuid) (m : option Z) (f : option PlayRole.t)
  (tape : list Z) (db : DB) :
  wf_shape db (snd (submitRollAction i p m f tape db)).
Proof.
  unfold submitRollAction.
  destruct (single (games_by_id i db)) as [g0|]; [|wf_same_tac].
  destruct (negb (phase_is g0 Phase.drive) || _); [wf_same_tac|].
  destruct (single (players_by_id p i db)) as [pl|]; [|wf_same_tac].
  break_handler; try wf_same_tac.
  all: wf_upd i [Game.set_play_subphase (Some Sub.rolls_done)];
    intros g _ _ Hwf; wf_auto.
Qed.

(** The update of a resolved play keeps [row_wf] on a row in its drive. *)
Lemma resolved_row_wf (g : Game.t) (y : Z) :
  Game.phase g = Phase.drive ->
  row_wf g ->
  row_wf
    (Game.update
       (resolved_columns (advance g y) (JS.nullish (Game.current_play_seq g) 1 + 1)) g).
Proof.
  intros Hph (Hfield & (h & a & Hh & Ha & Hsh & Hsa) & Hsides & (n & Hn & Hn1)).
  destruct Hfield as [Hdown Hdist].
  destruct (Hsides (or_intror Hph)) as (s & Hoff & Hdef).
  unfold row_wf, field_ok, score_ok, sides_opposite, seq_ok. cbn -[Z.mul].
  rewrite Hn. cbn -[Z.mul].
  unfold advance, side_is. rewrite Hoff, Hdef.
  repeat match goal with
    | |- context [if option_eq_dec ?d ?x ?t then _ else _] =>
        destruct (option_eq_dec d x t)
    | |- context [if ?b then _ else _] => destruct b eqn:?
    end;
    reflect_tests; cbn -[Z.mul]; repeat apply conj; try lia;
    try (exists (h + 1), a; lia); try (exists h, (a + 1); lia);
    try (exists h, a; lia);
    try (intros _; destruct s; simpl; eauto; fail);
    try (intros _; eexists; split; reflexivity);
    try (eexists; split; [reflexivity | lia]).
Qed.
Lemma wf_continueAfterRoll (i p : uuid) (f : option PlayRole.t) (tape : list Z)
  (db : DB) :
  wf_shape db (snd (continueAfterRollAction i p f tape db)).
Proof.
  unfold continueAfterRollAction.
  destruct (single (games_by_id i db)) as [g0|] eqn:Eg; [|wf_same_tac].
  destruct (negb (phase_is g0 Phase.drive) || _) eqn:G; [wf_same_tac|]. guard_facts.
  destruct (single (players_by_id p i db)) as [pl|]; [|wf_same_tac].
  destruct (ready_for _ _ && ready_for _ _); [|wf_same_tac].
  unfold finalizePlayResolution.
  match goal with
  | |- context [single (games_by_id i ?d)] =>
      replace (single (games_by_id i d)) with (Some g0)
        by (rewrite <- Eg; unfold games_by_id; autorewrite with games; reflexivity)
  end.
  destruct (find (role_is PlayRole.offense) _) as [o|]; [|wf_same_tac].
  destruct (find (role_is PlayRole.defense) _) as [d|]; [|wf_same_tac].
  match goal with
  | |- context [update_game i ?cols _] => wf_upd i cols
  end.
  intros g Hin Hid Hwf. rewrite (read_row_unique _ _ _ _ Eg Hin Hid) in *.
  apply resolved_row_wf; assumption.
Qed.

Lemma row_wf_fresh (i : uuid) (c : string) (st : Status.t) (m : Mode.t) :
  row_wf (Game.fresh i c st m).
Proof.
  unfold row_wf, field_ok, score_ok, sides_opposite, seq_ok. cbn -[Z.mul].
  repeat apply conj; try lia.
  - exists 0, 0. lia.
  - intros [H|H]; discriminate.
  - exists 1. split; [reflexivity | lia].
Qed.

Lemma wf_createLobby (n : string) (codes : list string) (db : DB) :
  wf_shape db (snd (createLobbyAction n codes db)).
Proof.
  unfold createLobbyAction.
  destruct (JS.is_empty _); [wf_same_tac|].
  set (code := match codes with
               | first :: rest => pick_code 3 first rest db
               | [] => pick_code 3 EmptyString [] db
               end).
  destruct (existsb _ (games db)); [wf_same_tac|].
  unfold insert_player.
  destruct (negb (game_exists _ _)).
  - exists (fun g => g), [Game.fresh (next_uuid db) code Status.lobby_open Mode.trivia].
    simpl. rewrite map_id. split; [reflexivity|]. split; [auto|].
    constructor; [apply row_wf_fresh | constructor].
  - destruct (existsb _ _).
    + exists (fun g => g), [Game.fresh (next_uuid db) code Status.lobby_open Mode.trivia].
      simpl. rewrite map_id. split; [reflexivity|]. split; [auto|].
      constructor; [apply row_wf_fresh | constructor].
    + exists (fun g => if uuid_eqb (Game.id g) (next_uuid db)
                       then Game.update [Game.set_host_player_id (Some (S (next_uuid db)))] g
                       else g).
      eexists. simpl snd. autorewrite with games. simpl games.
      rewrite map_app. split; [reflexivity|]. split.
      * intros g _ Hwf. destruct (uuid_eqb _ _); [|exact Hwf]. wf_auto.
      * simpl. unfold uuid_eqb. rewrite Nat.eqb_refl.
        constructor; [|constructor].
        pose proof (row_wf_fresh (next_uuid db) code Status.lobby_open Mode.trivia) as Hwf.
        wf_auto.
Qed.

Lemma wf_joinLobby (n c : string) (db : DB) : wf_shape db (snd (joinLobbyAction n c db)).
Proof.
  unfold joinLobbyAction.
  destruct (JS.is_empty (JS.trim n)); [wf_same_tac|].
  destruct (JS.is_empty (JS.trim c)); [wf_same_tac|].
  destruct (single _) as [g|]; [|wf_same_tac].
  destruct (Game.lobby_locked g) as [[|]|]; try wf_same_tac.
  - destruct (insert_player _ _ _ _ _) as [[u d]|msg] eqn:E; [|wf_same_tac].
    apply wf_same. simpl. eapply games_insert_player; eauto.
  - destruct (insert_player _ _ _ _ _) as [[u d]|msg] eqn:E; [|wf_same_tac].
    apply wf_same. simpl. eapply games_insert_player; eauto.
Qed.

Lemma wf_startGame (i r : uuid) (db : DB) : wf_shape db (snd (startGameAction i r db)).
Proof.
  unfold startGameAction.
  destruct (negb (is_host i r db)); [wf_same_tac|].
  destruct (start_gate _ _); [wf_same_tac|].
  eexists _, []. simpl. rewrite app_nil_r. split; [reflexivity|]. split; [|constructor].
  intros g _ Hwf. simpl. destruct (_ && _); [|exact Hwf]. wf_auto.
Qed.

Lemma wf_leaveLobby (p i : uuid) (db : DB) : wf_shape db (snd (leaveLobbyAction p i db)).
Proof.
  unfold leaveLobbyAction.
  destruct (match single (players_by_id p i db) with Some q => is_ref q | None => false end);
    [|wf_same_tac].
  destruct (players_of i (delete_player p i db)) as [|h rest]; [wf_same_tac|].
  wf_upd i [Game.set_host_player_id (Some (Player.id h))].
  intros g _ _ Hwf. wf_auto.
Qed.

Lemma wf_setLobbyLocked (r i : uuid) (b : bool) (db : DB) :
  wf_shape db (snd (setLobbyLockedAction r i b db)).
Proof.
  unfold setLobbyLockedAction. destruct (negb _); [wf_same_tac|].
  wf_upd i [Game.set_lobby_locked (Some b)]. intros g _ _ Hwf. wf_auto.
Qed.

Lemma perform_wf (a : Action) (tape : list Z) (db : DB) : wf_shape db (perform a tape db).
Proof.
  destruct a; unfold perform, handle, respond; cbn [snd].
  - apply wf_startCoinToss.
  - apply wf_resolveCoinToss.
  - apply wf_flipCoin.
  - apply wf_chooseTossOption.
  - apply wf_resolveKickoffTouchback.
  - apply wf_resetDrive.
  - apply wf_submitPlayCall.
  - apply wf_submitQuestionAnswer.
  - apply wf_submitRoll.
  - apply wf_continueAfterRoll.
  - apply wf_createLobby.
  - apply wf_joinLobby.
  - unfold updatePlayerSideAction. break_handler; wf_same_tac.
  - unfold updateTeamNamesAction. break_handler; wf_same_tac.
  - apply wf_startGame.
  - apply wf_leaveLobby.
  - unfold setReadyAction. wf_same_tac.
  - unfold kickPlayerAction. break_handler; wf_same_tac.
  - apply wf_setLobbyLocked.
Qed.

(** Every row of every database the handlers can produce satisfies [row_wf]. *)
Lemma reachable_row_wf (db : DB) : reachable db -> Forall row_wf (games db).
Proof.
  induction 1 as [|a tape db _ IH|i s r db _ IH]; [constructor| |].
  - destruct (perform_wf a tape db) as (F & extra & Hgames & Hrow & Hextra).
    rewrite Hgames. apply Forall_app. split; [|exact Hextra].
    apply Forall_forall. intros g' Hin. apply in_map_iff in Hin.
    destruct Hin as (g & <- & Hin).
    apply (Hrow g Hin). rewrite Forall_forall in IH. apply IH. exact Hin.
  - autorewrite with games. exact IH.
Qed.

(** In every database the handlers can produce, every game is on a down from
    1 to 4 with at least one yard to go. *)
Theorem reachable_down_and_distance (db : DB) (g : Game.t) :
  reachable db -> In g (games db) ->
  1 <= Game.down g <= 4 /\ 1 <= Game.distance g.
Proof.
  intros Hr Hin. pose proof (reachable_row_wf db Hr) as Hall.
  rewrite Forall_forall in Hall. apply (Hall g Hin).
Qed.

(** In every database the handlers can produce, both scores of every game are
    non-negative multiples of 7: only touchdowns score. *)
Theorem reachable_scores_are_touchdowns (db : DB) (g : Game.t) :
  reachable db -> In g (games db) ->
  exists h a,
    0 <= h /\ 0 <= a /\ Game.score_home g = 7 * h /\ Game.score_away g = 7 * a.
Proof.
  intros Hr Hin. pose proof (reachable_row_wf db Hr) as Hall.
  rewrite Forall_forall in Hall. apply (Hall g Hin).
Qed.

(** In every database the handlers can produce, a game in its kickoff or in a
    drive has an offense and a defense, and they are the two different
    sides. *)
Theorem reachable_sides_are_opposite (db : DB) (g : Game.t) :
  reachable db -> In g (games db) ->
  Game.phase g = Phase.kickoff \/ Game.phase g = Phase.drive ->
  exists s, Game.offense_side g = Some s /\ Game.defense_side g = Some (opposite s).
Proof.
  intros Hr Hin. pose proof (reachable_row_wf db Hr) as Hall.
  rewrite Forall_forall in Hall. apply (Hall g Hin).
Qed.

(** In every database the handlers can produce, the play counter of every game
    is set and at least 1. *)
Theorem reachable_play_counter (db : DB) (g : Game.t) :
  reachable db -> In g (games db) ->
  exists n, Game.current_play_seq g = Some n /\ 1 <= n.
Proof.
  intros Hr Hin. pose proof (reachable_row_wf db Hr) as Hall.
  rewrite Forall_forall in Hall. apply (Hall g Hin).
Qed.

Lemma touchdown_reachable : reachable db_touchdown.
Proof.
  unfold db_touchdown, db_first_snap.
  do 2 apply reachable_run_script. apply reachable_empty.
Qed.

Lemma touchdown_row : In (row1 db_touchdown) (games db_touchdown).
Proof. vm_compute. left. reflexivity. Qed.

Lemma reachable_down_and_distance_witness :
  1 <= Game.down (row1 db_touchdown) <= 4 /\ 1 <= Game.distance (row1 db_touchdown).
Proof.
  exact (reachable_down_and_distance db_touchdown (row1 db_touchdown)
           touchdown_reachable touchdown_row).
Defined.

Lemma reachable_scores_are_touchdowns_witness :
  exists h a,
    0 <= h /\ 0 <= a
    /\ Game.score_home (row1 db_touchdown) = 7 * h
    /\ Game.score_away (row1 db_touchdown) = 7 * a.
Proof.
  exact (reachable_scores_are_touchdowns db_touchdown (row1 db_touchdown)
           touchdown_reachable touchdown_row).
Defined.

Lemma reachable_sides_are_opposite_witness :
  exists s,
    Game.offense_side (row1 db_touchdown) = Some s
    /\ Game.defense_side (row1 db_touchdown) = Some (opposite s).
Proof.
  apply (reachable_sides_are_opposite db_touchdown (row1 db_touchdown)
           touchdown_reachable touchdown_row).
  left. vm_compute. reflexivity.
Defined.

Lemma reachable_play_counter_witness :
  exists n, Game.current_play_seq (row1 db_touchdown) = Some n /\ 1 <= n.
Proof.
  exact (reachable_play_counter db_touchdown (row1 db_touchdown)
           touchdown_reachable touchdown_row).
Defined.

(** ** The unique constraint on the play calls *)

Lemma unique_filter (P : PlayCall.t -> bool) (table : list PlayCall.t) :
  unique_play_call_seq table -> unique_play_call_seq (filter P table).
Proof.
  unfold unique_play_call_seq. induction table as [|c l IH]; simpl; intro H; [exact H|].
  inversion H as [|k ks Hnotin Hnd]; subst.
  destruct (P c); simpl; [|exact (IH Hnd)].
  constructor; [|exact (IH Hnd)].
  intro Hin. apply Hnotin. apply in_map_iff in Hin. destruct Hin as (x & Hx & Hin).
  apply filter_In in Hin. rewrite <- Hx. apply in_map. apply Hin.
Qed.

Lemma unique_map (f : PlayCall.t -> PlayCall.t) (table : list PlayCall.t) :
  (forall c, PlayCall.key (f c) = PlayCall.key c) ->
  unique_play_call_seq table -> unique_play_call_seq (map f table).
Proof.
  unfold unique_play_call_seq. intros Hf H. rewrite map_map.
  rewrite (map_ext _ PlayCall.key Hf). exact H.
Qed.

(** The upsert keeps the unique constraint. *)
Lemma unique_upsert (u : Upsert.t) (table : list PlayCall.t) :
  unique_play_call_seq table -> unique_play_call_seq (Upsert.run u table).
Proof.
  intro H. unfold Upsert.run. destruct (existsb (Upsert.conflicts u) table) eqn:E.
  - apply unique_map; [|exact H]. intro c.
    destruct (Upsert.conflicts u c) eqn:Ec; [|reflexivity].
    apply conflicts_key in Ec. rewrite Ec. reflexivity.
  - unfold unique_play_call_seq in *. rewrite map_app. simpl.
    apply NoDup_app; [exact H | repeat constructor; intros [] |].
    intros k Hk [<-|[]]. apply in_map_iff in Hk. destruct Hk as (c & Hkey & Hin).
    assert (Hc : Upsert.conflicts u c = true) by (apply conflicts_key; exact Hkey).
    rewrite (existsb_false_forall _ _ E c Hin) in Hc. discriminate.
Qed.

Lemma play_calls_update_game (i : uuid) (cols : list (Game.t -> Game.t)) (db : DB) :
  play_calls (update_game i cols db) = play_calls db.
Proof. reflexivity. Qed.

Lemma play_calls_upsert_play_call (u : Upsert.t) (db : DB) :
  play_calls (upsert_play_call u db) = Upsert.run u (play_calls db).
Proof. reflexivity. Qed.

Lemma play_calls_insert_play (r : Play.t) (db : DB) :
  play_calls (insert_play r db) = play_calls db.
Proof. reflexivity. Qed.

Lemma play_calls_update_player (p i : uuid) (c : Player.t -> Player.t) (db : DB) :
  play_calls (update_player p i c db) = play_calls db.
Proof. reflexivity. Qed.

Lemma play_calls_with_players (v : list Player.t) (db : DB) :
  play_calls (with_players v db) = play_calls db.
Proof. reflexivity. Qed.

Lemma play_calls_with_games (v : list Game.t) (db : DB) :
  play_calls (with_games v db) = play_calls db.
Proof. reflexivity. Qed.

Lemma play_calls_with_next_uuid (v : uuid) (db : DB) :
  play_calls (with_next_uuid v db) = play_calls db.
Proof. reflexivity. Qed.

Lemma play_calls_insert_player (i : uuid) (n : string) (r : Role.t) (b : bool)
  (db db' : DB) (u : uuid) :
  insert_player i n r b db = inl (u, db') -> play_calls db' = play_calls db.
Proof.
  unfold insert_player. destruct (negb _); [discriminate|].
  destruct (existsb _ _); [discriminate|].
  intro H. injection H as _ <-. reflexivity.
Qed.

#[local] Hint Rewrite play_calls_logGameEvent play_calls_update_game
  play_calls_upsert_play_call play_calls_insert_play play_calls_update_player
  play_calls_with_players play_calls_with_games play_calls_with_next_uuid : calls.

Lemma unique_mark_ready (i : uuid) (s : Z) (r : PlayRole.t) (db : DB) :
  unique_play_call_seq (play_calls db) ->
  unique_play_call_seq (play_calls (mark_ready i s r db)).
Proof.
  intro H. unfold mark_ready. simpl. apply unique_map; [|exact H].
  intro c. destruct (_ && _); reflexivity.
Qed.

Lemma unique_delete_player (p i : uuid) (db : DB) :
  unique_play_call_seq (play_calls db) ->
  unique_play_call_seq (play_calls (delete_player p i db)).
Proof.
  intro H. unfold delete_player. destruct (existsb _ _); [|exact H].
  simpl. apply unique_filter. exact H.
Qed.

Lemma unique_delete_calls_of_game (i : uuid) (db : DB) :
  unique_play_call_seq (play_calls db) ->
  unique_play_call_seq (play_calls (delete_calls_of_game i db)).
Proof. intro H. unfold delete_calls_of_game. simpl. apply unique_filter. exact H. Qed.

Lemma unique_delete_calls_of_seq (i : uuid) (s : Z) (db : DB) :
  unique_play_call_seq (play_calls db) ->
  unique_play_call_seq (play_calls (delete_calls_of_seq i s db)).
Proof. intro H. unfold delete_calls_of_seq. simpl. apply unique_filter. exact H. Qed.

(** Walks through the writes of a handler, keeping the unique constraint. *)
Ltac unique_tac :=
  cbn [snd];
  repeat first
    [ assumption
    | progress autorewrite with calls
    | apply unique_upsert
    | apply unique_mark_ready
    | apply unique_delete_player
    | apply unique_delete_calls_of_game
    | apply unique_delete_calls_of_seq ].

(** No request breaks [unique_play_call_seq]: the handlers write play calls
    only through the upsert on (game_id, player_id, seq), updates of other
    columns and deletes. *)
Lemma perform_unique (a : Action) (tape : list Z) (db : DB) :
  unique_play_call_seq (play_calls db) ->
  unique_play_call_seq (play_calls (perform a tape db)).
Proof.
  intro H. destruct a; unfold perform, handle, respond; cbn [snd].
  - unfold startCoinToss. unique_tac.
  - unfold resolveCoinTossAction. unique_tac.
  - unfold flipCoinAction. break_handler; unique_tac.
  - unfold chooseTossOptionAction. break_handler; unique_tac.
  - unfold resolveKickoffTouchbackAction. break_handler; unique_tac.
  - unfold resetDriveAction. break_handler; unique_tac.
  - unfold submitPlayCallAction. break_handler; unique_tac.
  - unfold submitQuestionAnswerAction. break_handler; unique_tac.
  - unfold submitRollAction. break_handler; unique_tac.
  - unfold continueAfterRollAction, finalizePlayResolution. break_handler; unique_tac.
  - unfold createLobbyAction.
    destruct (JS.is_empty _); [unique_tac|].
    destruct (existsb _ (games db)); [unique_tac|].
    destruct (insert_player _ _ _ _ _) as [[u d]|msg] eqn:E; [|unique_tac].
    unique_tac. rewrite (play_calls_insert_player _ _ _ _ _ _ _ E). unique_tac.
  - unfold joinLobbyAction.
    destruct (JS.is_empty (JS.trim displayName)); [unique_tac|].
    destruct (JS.is_empty (JS.trim code)); [unique_tac|].
    destruct (single _) as [g|]; [|unique_tac].
    destruct (Game.lobby_locked g) as [[|]|]; try unique_tac;
      destruct (insert_player _ _ _ _ _) as [[u d]|msg] eqn:E; try unique_tac;
      cbn [snd]; rewrite (play_calls_insert_player _ _ _ _ _ _ _ E); exact H.
  - unfold updatePlayerSideAction. break_handler; unique_tac.
  - unfold updateTeamNamesAction. break_handler; unique_tac.
  - unfold startGameAction. break_handler; unique_tac.
  - unfold leaveLobbyAction. break_handler; unique_tac.
  - unfold setReadyAction. unique_tac.
  - unfold kickPlayerAction. break_handler; unique_tac.
  - unfold setLobbyLockedAction. break_handler; unique_tac.
Qed.

(** In every database the handlers can produce, [play_calls] satisfies
    [unique_play_call_seq]: at most one row per game, player and play. *)
Theorem reachable_play_calls_unique (db : DB) :
  reachable db -> unique_play_call_seq (play_calls db).
Proof.
  induction 1 as [|a tape db _ IH|i s r db _ IH].
  - constructor.
  - apply perform_unique. exact IH.
  - rewrite play_calls_logGameEvent. apply unique_mark_ready. exact IH.
Qed.

Lemma reachable_play_calls_unique_witness :
  unique_play_call_seq (play_calls db_first_play).
Proof. exact (reachable_play_calls_unique db_first_play first_play_reachable). Defined.

(** ** Resetting the drive *)

Lemma calls_of_delete_game (i : uuid) (s : Z) (db : DB) :
  calls_of i s (delete_calls_of_game i db) = [].
Proof.
  unfold calls_of, delete_calls_of_game. simpl.
  induction (play_calls db) as [|c l IH]; simpl; [reflexivity|].
  destruct (uuid_eqb (PlayCall.game_id c) i) eqn:E; simpl; [exact IH|].
  rewrite E. simpl. exact IH.
Qed.

(** [resetDriveAction] by anyone but the game's ref fails and changes nothing.
    By the ref, with a yard line that fits the [int] column, it starts a clean
    drive: phase drive/play_call, first and ten at the given yard line (25 by
    default) for the given side (by default the side in possession, or home),
    play 1, the scores kept, and no play call of the game left.  By the ref
    with a yard line the column refuses, it fails and changes nothing. *)
Theorem reset_drive_starts_clean (gameId requesterId : uuid)
  (optsPossession : option Side.t) (optsYardLine : option Z) (db : DB) :
  ((forall p, single (players_by_id requesterId gameId db) = Some p ->
              Player.role p <> Role.ref) ->
   resetDriveAction gameId requesterId optsPossession optsYardLine db
   = (Failure "Only the ref can reset the drive.", db))
  /\ (forall p g,
        single (players_by_id requesterId gameId db) = Some p ->
        Player.role p = Role.ref ->
        game_row gameId db = Some g ->
        int4 (JS.nullish optsYardLine 25) = true ->
        exists g' db',
          resetDriveAction gameId requesterId optsPossession optsYardLine db
          = (Success (Some g'), db')
          /\ game_row gameId db' = Some g'
          /\ clean_drive (reset_possession optsPossession (Some g))
               (JS.nullish optsYardLine 25) g g'
          /\ forall s, calls_of gameId s db' = [])
  /\ (forall p,
        single (players_by_id requesterId gameId db) = Some p ->
        Player.role p = Role.ref ->
        int4 (JS.nullish optsYardLine 25) = false ->
        exists msg,
          resetDriveAction gameId requesterId optsPossession optsYardLine db
          = (Failure msg, db)).
Proof.
  split; [|split].
  - intro Hno. unfold resetDriveAction.
    destruct (single (players_by_id requesterId gameId db)) as [p|] eqn:Ep;
      [|reflexivity].
    destruct (is_ref p) eqn:E; [|reflexivity].
    apply is_ref_true in E. destruct (Hno p eq_refl E).
  - intros p g Hp Href Hg Hint. unfold resetDriveAction. rewrite Hp.
    apply is_ref_true in Href. rewrite Href. cbn [negb]. cbv iota.
    cbv zeta. rewrite Hint. cbn [negb]. cbv iota.
    fold (game_row gameId db). rewrite Hg.
    set (cols := [ Game.set_phase Phase.drive;
                   Game.set_play_subphase (Some Sub.play_call);
                   Game.set_down 1;
                   Game.set_distance 10;
                   Game.set_yard_line (JS.nullish optsYardLine 25);
                   Game.set_possession_side
                     (Some (reset_possession optsPossession (Some g)));
                   Game.set_offense_side
                     (Some (reset_possession optsPossession (Some g)));
                   Game.set_defense_side
                     (Some (opposite (reset_possession optsPossession (Some g))));
                   Game.set_current_play_seq (Some 1) ]).
    assert (Hrow : game_row gameId
                     (logGameEvent gameId "drive_reset"
                        (delete_calls_of_game gameId (update_game gameId cols db)))
                   = Some (Game.update cols g)).
    { erewrite game_row_games
        by (rewrite games_logGameEvent, games_delete_calls_of_game; reflexivity).
      rewrite game_row_update_same by (subst cols; setters).
      rewrite Hg. reflexivity. }
    exists (Game.update cols g). eexists. split.
    { fold (game_row gameId
         (logGameEvent gameId "drive_reset"
            (delete_calls_of_game gameId (update_game gameId cols db)))).
      rewrite Hrow. reflexivity. }
    split; [exact Hrow|]. split.
    { unfold clean_drive. repeat apply conj; reflexivity. }
    intro s. unfold calls_of. rewrite play_calls_logGameEvent.
    apply calls_of_delete_game.
  - intros p Hp Href Hint. unfold resetDriveAction. rewrite Hp.
    apply is_ref_true in Href. rewrite Href. cbn [negb]. cbv iota.
    cbv zeta. rewrite Hint. cbn [negb]. cbv iota.
    exists out_of_range_message. reflexivity.
Qed.

(** The ref resets the drive while a play waits to be resolved; a yard line
    of 2^31 is refused. *)
Lemma reset_drive_starts_clean_witness :
  (exists g' db',
     resetDriveAction 1 2 None None db_first_play = (Success (Some g'), db')
     /\ game_row 1 db' = Some g'
     /\ clean_drive (reset_possession None (Some (row1 db_first_play)))
          (JS.nullish None 25) (row1 db_first_play) g'
     /\ forall s, calls_of 1 s db' = [])
  /\ (exists msg,
        resetDriveAction 1 2 None (Some 2147483648) db_first_play
        = (Failure msg, db_first_play)).
Proof.
  split.
  - apply (proj1 (proj2 (reset_drive_starts_clean 1 2 None None db_first_play))
             (Player.mk 2 1 "Ref" Role.ref None false) (row1 db_first_play));
      vm_compute; reflexivity.
  - apply (proj2 (proj2 (reset_drive_starts_clean 1 2 None (Some 2147483648)
                           db_first_play))
             (Player.mk 2 1 "Ref" Role.ref None false));
      vm_compute; reflexivity.
Defined.

(** ** What a resolved play leaves behind *)

Lemma calls_of_delete_seq (i : uuid) (s : Z) (db : DB) :
  calls_of i s (delete_calls_of_seq i s db) = [].
Proof.
  unfold calls_of, delete_calls_of_seq. simpl.
  induction (play_calls db) as [|c l IH]; simpl; [reflexivity|].
  destruct (uuid_eqb (PlayCall.game_id c) i && (PlayCall.seq c =? s)) eqn:E; simpl;
    [exact IH|].
  rewrite E. exact IH.
Qed.

Lemma advance_gained (g : Game.t) (y : Z) : gained (advance g y) = gainedBy g y.
Proof.
  unfold advance.
  repeat match goal with
    | |- context [if ?b then _ else _] => destruct b
    end; reflexivity.
Qed.

Lemma advance_turnover (g : Game.t) (y : Z) :
  turnover (advance g y) = true <-> downs_ran_out g y.
Proof.
  unfold downs_ran_out.
  assert (H : turnover (advance g y)
              = ((if Game.distance g - gainedBy g y <=? 0 then 1 else Game.down g + 1)
                 >? 4)).
  { unfold advance.
    repeat match goal with
      | |- context [if side_is ?a ?b && ?c then _ else _] =>
          destruct (side_is a b && c)
      end; reflexivity. }
  rewrite H. rewrite Z.gtb_ltb, Z.ltb_lt.
  destruct (Game.distance g - gainedBy g y <=? 0) eqn:E; reflect_tests; lia.
Qed.



(** ** Joining a lobby *)

Lemma is_empty_false (s : string) : s <> EmptyString -> JS.is_empty s = false.
Proof. destruct s; [contradiction | reflexivity]. Qed.

Lemma name_free_existsb (gameId : uuid) (displayName : string) (db : DB) :
  name_free gameId displayName db <->
  existsb
    (fun p => uuid_eqb (Player.game_id p) gameId
              && String.eqb (Player.display_name p) (JS.trim displayName))
    (players db) = false.
Proof.
  unfold name_free. split.
  - intro H. destruct (existsb _ _) eqn:E; [|reflexivity].
    apply existsb_exists in E. destruct E as (p & Hin & Hp).
    apply andb_prop in Hp. destruct Hp as [Hg Hn].
    apply Nat.eqb_eq in Hg. apply String.eqb_eq in Hn.
    destruct (H p Hin Hg Hn).
  - intros H p Hin Hg Hn.
    pose proof (existsb_false_forall _ _ H p Hin) as Hp. simpl in Hp.
    unfold uuid_eqb in Hp. rewrite Hg, Hn, Nat.eqb_refl, String.eqb_refl in Hp.
    discriminate.
Qed.

Lemma single_game_exists (P : Game.t -> bool) (db : DB) (g : Game.t) :
  single (filter P (games db)) = Some g -> game_exists (Game.id g) db = true.
Proof.
  intro H. apply single_In in H. destruct H as [Hin _].
  unfold game_exists. apply existsb_exists. exists g. split; [exact Hin|].
  unfold uuid_eqb. apply Nat.eqb_refl.
Qed.

Lemma joinLobby_runs (displayName code : string) (db : DB) (g : Game.t) :
  JS.trim displayName <> EmptyString ->
  JS.trim code <> EmptyString ->
  single (open_games_by_code (JS.toUpperCase (JS.trim code)) db) = Some g ->
  Game.lobby_locked g <> Some true ->
  joinLobbyAction displayName code db
  = match insert_player (Game.id g) (JS.trim displayName) Role.player false db with
    | inr msg => (Failure (player_insert_error msg "Could not join lobby."), db)
    | inl (playerId, db1) => (Success (Game.id g, Game.code g, playerId), db1)
    end.
Proof.
  intros Hn Hc Hg Hl. unfold joinLobbyAction.
  rewrite (is_empty_false _ Hn), (is_empty_false _ Hc), Hg.
  destruct (Game.lobby_locked g) as [[|]|]; try reflexivity. congruence.
Qed.

Lemma joinLobby_free (displayName code : string) (db : DB) (g : Game.t) :
  JS.trim displayName <> EmptyString ->
  JS.trim code <> EmptyString ->
  single (open_games_by_code (JS.toUpperCase (JS.trim code)) db) = Some g ->
  Game.lobby_locked g <> Some true ->
  name_free (Game.id g) displayName db ->
  exists db',
    joinLobbyAction displayName code db
    = (Success (Game.id g, Game.code g, next_uuid db), db')
    /\ players db'
       = (players db ++ [joined_player (next_uuid db) (Game.id g) displayName])%list
    /\ games db' = games db
    /\ play_calls db' = play_calls db.
Proof.
  intros Hn Hc Hg Hl Hfree.
  rewrite (joinLobby_runs _ _ _ _ Hn Hc Hg Hl).
  unfold insert_player.
  rewrite (single_game_exists _ _ _ Hg). cbn [negb]. cbv iota.
  apply name_free_existsb in Hfree. rewrite Hfree.
  eexists. split; [reflexivity|]. repeat apply conj; reflexivity.
Qed.

(** [joinLobbyAction] on an open, unlocked lobby with a name and a code that
    are not blank: when the trimmed name is free in the lobby, it adds exactly
    one row to [players] (a player without a side, not ready) and answers with
    the ids; when the name is taken, it answers 'Name already taken in this
    lobby.' and changes nothing. *)
Theorem join_adds_one_player (displayName code : string) (db : DB) (g : Game.t) :
  JS.trim displayName <> EmptyString ->
  JS.trim code <> EmptyString ->
  single (open_games_by_code (JS.toUpperCase (JS.trim code)) db) = Some g ->
  Game.lobby_locked g <> Some true ->
  (name_free (Game.id g) displayName db ->
   exists db',
     joinLobbyAction displayName code db
     = (Success (Game.id g, Game.code g, next_uuid db), db')
     /\ players db'
        = (players db ++ [joined_player (next_uuid db) (Game.id g) displayName])%list
     /\ games db' = games db
     /\ play_calls db' = play_calls db)
  /\ (~ name_free (Game.id g) displayName db ->
      joinLobbyAction displayName code db
      = (Failure "Name already taken in this lobby.", db)).
Proof.
  intros Hn Hc Hg Hl. split.
  - apply joinLobby_free; assumption.
  - intro Htaken. rewrite (joinLobby_runs _ _ _ _ Hn Hc Hg Hl).
    unfold insert_player.
    rewrite (single_game_exists _ _ _ Hg). cbn [negb]. cbv iota.
    destruct (existsb _ (players db)) eqn:E.
    + reflexivity.
    + elim Htaken. apply name_free_existsb. exact E.
Qed.

(** Hal joins the lobby the ref has just opened. *)
Lemma join_adds_one_player_witness :
  exists db',
    joinLobbyAction "Hal" "abc123" db_lobby
    = (Success (Game.id (row1 db_lobby), Game.code (row1 db_lobby), next_uuid db_lobby),
       db')
    /\ players db'
       = (players db_lobby
          ++ [joined_player (next_uuid db_lobby) (Game.id (row1 db_lobby)) "Hal"])%list
    /\ games db' = games db_lobby
    /\ play_calls db' = play_calls db_lobby.
Proof.
  apply (proj1 (join_adds_one_player "Hal" "abc123" db_lobby (row1 db_lobby)
                  ltac:(vm_compute; discriminate) ltac:(vm_compute; discriminate)
                  ltac:(vm_compute; reflexivity) ltac:(vm_compute; discriminate))).
  intros p Hin _. vm_compute in Hin. destruct Hin as [<- | []].
  vm_compute. discriminate.
Defined.

(** ** Creating a lobby *)

Lemma open_games_by_code_app (code : string) (db : DB) (l1 l2 : list Game.t) :
  games db = (l1 ++ l2)%list ->
  open_games_by_code code db
  = (filter
       (fun g =>
          String.eqb (Game.code g) code
          && (if Status.eq_dec (Game.status g) Status.lobby_open then true else false))
       l1
     ++ filter
          (fun g =>
             String.eqb (Game.code g) code
             && (if Status.eq_dec (Game.status g) Status.lobby_open then true else false))
          l2)%list.
Proof. intro H. unfold open_games_by_code. rewrite H. apply filter_app. Qed.

(** What a successful [createLobbyAction] wrote: a game with a code no other
    game carries, open, with its creator as ref and host. *)
Lemma createLobby_success (displayName : string) (codes : list string) (db db1 : DB)
  (gameId playerId : uuid) (code : string) :
  createLobbyAction displayName codes db = (Success (gameId, code, playerId), db1) ->
  gameId = next_uuid db
  /\ playerId = S (next_uuid db)
  /\ existsb (fun g => String.eqb (Game.code g) code) (games db) = false
  /\ games db1
     = (map (fun g => if uuid_eqb (Game.id g) gameId
                      then Game.update [Game.set_host_player_id (Some playerId)] g
                      else g)
          (games db)
        ++ [Game.set_host_player_id (Some playerId)
              (Game.fresh gameId code Status.lobby_open Mode.trivia)])%list
  /\ players db1
     = (players db
        ++ [ {| Player.id := playerId; Player.game_id := gameId;
                Player.display_name := JS.trim displayName; Player.role := Role.ref;
                Player.side := None; Player.ready := true |} ])%list.
Proof.
  unfold createLobbyAction.
  destruct (JS.is_empty _); [discriminate|].
  set (c := match codes with
            | first :: rest => pick_code 3 first rest db
            | [] => pick_code 3 EmptyString [] db
            end).
  destruct (existsb _ (games db)) eqn:Ecode; [discriminate|].
  unfold insert_player.
  destruct (negb (game_exists _ _)); [discriminate|].
  destruct (existsb _ (players _)); [discriminate|].
  cbv beta iota zeta. intro H. injection H as <- <- <- <-.
  repeat apply conj; try reflexivity; try exact Ecode.
  simpl games. rewrite map_app. simpl. unfold uuid_eqb. rewrite Nat.eqb_refl. reflexivity.
Qed.

Lemma open_filter_map (code : string) (F : Game.t -> Game.t) (l : list Game.t) :
  (forall g, Game.code (F g) = Game.code g /\ Game.status (F g) = Game.status g) ->
  filter
    (fun g =>
       String.eqb (Game.code g) code
       && (if Status.eq_dec (Game.status g) Status.lobby_open then true else false))
    (map F l)
  = map F
      (filter
         (fun g =>
            String.eqb (Game.code g) code
            && (if Status.eq_dec (Game.status g) Status.lobby_open then true else false))
         l).
Proof.
  intro HF. induction l as [|g l IH]; [reflexivity|].
  cbn [map filter]. destruct (HF g) as [-> ->]. rewrite IH.
  destruct (_ && _); reflexivity.
Qed.

Lemma code_not_found (code : string) (l : list Game.t) :
  existsb (fun g => String.eqb (Game.code g) code) l = false ->
  filter
    (fun g =>
       String.eqb (Game.code g) code
       && (if Status.eq_dec (Game.status g) Status.lobby_open then true else false))
    l = [].
Proof.
  induction l as [|g l IH]; [reflexivity|]. cbn [existsb filter]. intro H.
  apply orb_false_elim in H. destruct H as [Hg Hl]. rewrite Hg. simpl. apply IH, Hl.
Qed.

(** A lobby that was just created can be joined with its code, typed in any
    case and with spaces around it, under any name that is not blank and not
    taken in the lobby: the same game is found and the player is added. *)
Theorem created_lobby_can_be_joined (displayName : string) (codes : list string)
  (db db1 : DB) (gameId playerId : uuid) (code : string) (joinName typed : string) :
  createLobbyAction displayName codes db = (Success (gameId, code, playerId), db1) ->
  JS.toUpperCase (JS.trim typed) = code ->
  JS.trim typed <> EmptyString ->
  JS.trim joinName <> EmptyString ->
  name_free gameId joinName db1 ->
  exists db2,
    joinLobbyAction joinName typed db1 = (Success (gameId, code, next_uuid db1), db2)
    /\ players db2 = (players db1 ++ [joined_player (next_uuid db1) gameId joinName])%list.
Proof.
  intros Hcreate Hcode Htyped Hname Hfree.
  destruct (createLobby_success _ _ _ _ _ _ _ Hcreate)
    as (Hgid & Hpid & Hnew & Hgames & _).
  set (g1 := Game.set_host_player_id (Some playerId)
               (Game.fresh gameId code Status.lobby_open Mode.trivia)).
  assert (Hsingle : single (open_games_by_code (JS.toUpperCase (JS.trim typed)) db1)
                    = Some g1).
  { rewrite (open_games_by_code_app _ db1 _ _ Hgames), Hcode.
    assert (Hold : filter
                     (fun g =>
                        String.eqb (Game.code g) code
                        && (if Status.eq_dec (Game.status g) Status.lobby_open
                            then true else false))
                     (map (fun g => if uuid_eqb (Game.id g) gameId
                                    then Game.update
                                           [Game.set_host_player_id (Some playerId)] g
                                    else g)
                        (games db)) = []).
    { rewrite open_filter_map
        by (intro g; destruct (uuid_eqb (Game.id g) gameId); split; reflexivity).
      rewrite (code_not_found _ _ Hnew). reflexivity. }
    rewrite Hold. simpl. rewrite String.eqb_refl. reflexivity. }
  destruct (joinLobby_free joinName typed db1 g1 Hname Htyped Hsingle
              ltac:(discriminate) Hfree) as (db2 & Hrun & Hplayers & _).
  exists db2. split; [exact Hrun | exact Hplayers].
Qed.

Lemma created_lobby_can_be_joined_witness :
  exists db2,
    joinLobbyAction "Hal" " abc123 " db_lobby
    = (Success (1%nat, "ABC123", next_uuid db_lobby), db2)
    /\ players db2
       = (players db_lobby ++ [joined_player (next_uuid db_lobby) 1 "Hal"])%list.
Proof.
  apply (created_lobby_can_be_joined "Ref" ["ABC123"] empty_db db_lobby 1 2 "ABC123"
           "Hal" " abc123 ").
  - vm_compute. reflexivity.
  - vm_compute. reflexivity.
  - vm_compute. discriminate.
  - vm_compute. discriminate.
  - intros p Hin _. vm_compute in Hin. destruct Hin as [<- | []].
    vm_compute. discriminate.
Defined.

(** ** Locking the lobby *)

Lemma setLobbyLocked_runs (requesterId gameId : uuid) (locked : bool) (db : DB) :
  is_host gameId requesterId db = true ->
  setLobbyLockedAction requesterId gameId locked db
  = (Success (gameId, EmptyString, 0%nat),
     update_game gameId [Game.set_lobby_locked (Some locked)] db).
Proof. intro H. unfold setLobbyLockedAction. rewrite H. reflexivity. Qed.

(** Once the host has locked the lobby, [joinLobbyAction] with the lobby's code
    answers 'Lobby is locked.' and adds nobody; once the host has unlocked it,
    a free name joins again. *)
Theorem locked_lobby_refuses_joins (requesterId : uuid) (db : DB) (g : Game.t)
  (displayName code : string) :
  is_host (Game.id g) requesterId db = true ->
  single (open_games_by_code (JS.toUpperCase (JS.trim code)) db) = Some g ->
  JS.trim displayName <> EmptyString ->
  JS.trim code <> EmptyString ->
  (let locked := snd (setLobbyLockedAction requesterId (Game.id g) true db) in
   joinLobbyAction displayName code locked = (Failure "Lobby is locked.", locked))
  /\ (let unlocked := snd (setLobbyLockedAction requesterId (Game.id g) false db) in
      name_free (Game.id g) displayName db ->
      exists db',
        joinLobbyAction displayName code unlocked
        = (Success (Game.id g, Game.code g, next_uuid db), db')
        /\ players db'
           = (players db ++ [joined_player (next_uuid db) (Game.id g) displayName])%list).
Proof.
  intros Hhost Hg Hn Hc.
  assert (Hfound : forall b,
            single
              (open_games_by_code (JS.toUpperCase (JS.trim code))
                 (update_game (Game.id g) [Game.set_lobby_locked (Some b)] db))
            = Some (Game.set_lobby_locked (Some b) g)).
  { intro b. unfold open_games_by_code. rewrite games_update_game.
    rewrite open_filter_map
      by (intro x; destruct (uuid_eqb (Game.id x) (Game.id g)); split; reflexivity).
    fold (open_games_by_code (JS.toUpperCase (JS.trim code)) db).
    rewrite single_map, Hg. simpl. unfold uuid_eqb. rewrite Nat.eqb_refl. reflexivity. }
  split.
  - rewrite (setLobbyLocked_runs _ _ true db Hhost). cbn [snd]. cbv zeta.
    unfold joinLobbyAction.
    rewrite (is_empty_false _ Hn), (is_empty_false _ Hc), (Hfound true). reflexivity.
  - rewrite (setLobbyLocked_runs _ _ false db Hhost). cbn [snd]. cbv zeta.
    intro Hfree.
    destruct (joinLobby_free displayName code
                (update_game (Game.id g) [Game.set_lobby_locked (Some false)] db)
                (Game.set_lobby_locked (Some false) g) Hn Hc (Hfound false)
                ltac:(discriminate) Hfree) as (db' & Hrun & Hplayers & _).
    exists db'. split; [exact Hrun | exact Hplayers].
Qed.

(** The ref locks the lobby it has just opened: Hal is turned away. *)
Lemma locked_lobby_refuses_joins_witness :
  joinLobbyAction "Hal" "abc123" (snd (setLobbyLockedAction 2 1 true db_lobby))
  = (Failure "Lobby is locked.", snd (setLobbyLockedAction 2 1 true db_lobby)).
Proof.
  apply (proj1 (locked_lobby_refuses_joins 2 db_lobby (row1 db_lobby) "Hal" "abc123"
                  ltac:(vm_compute; reflexivity) ltac:(vm_compute; reflexivity)
                  ltac:(vm_compute; discriminate) ltac:(vm_compute; discriminate))).
Defined.

(** ** Kicking and leaving *)

Lemma players_delete_player (p i : uuid) (db : DB) :
  players (delete_player p i db)
  = filter
      (fun q => negb (uuid_eqb (Player.id q) p && uuid_eqb (Player.game_id q) i))
      (players db).
Proof.
  unfold delete_player.
  destruct (existsb _ (players db)) eqn:E; [reflexivity|].
  symmetry. simpl. induction (players db) as [|q l IH]; [reflexivity|].
  simpl in E. apply orb_false_elim in E. destruct E as [Eq El].
  simpl. rewrite Eq. simpl. f_equal. apply IH. exact El.
Qed.

Lemma filter_twice_empty {A : Type} (P : A -> bool) (l : list A) :
  filter P (filter (fun x => negb (P x)) l) = [].
Proof.
  induction l as [|x l IH]; [reflexivity|]. simpl.
  destruct (P x) eqn:E; simpl; [exact IH|]. rewrite E. exact IH.
Qed.

(** [kickPlayerAction] by anyone but the host fails and changes nothing; by the
    host it removes the player's row from the game, and with it every play
    call of that player, and touches no other player and no game. *)
Theorem kick_removes_the_player (requesterId playerId gameId : uuid) (db : DB) :
  (is_host gameId requesterId db = false ->
   kickPlayerAction requesterId playerId gameId db
   = (Failure "Only the ref can kick players.", db))
  /\ (is_host gameId requesterId db = true ->
      let db' := snd (kickPlayerAction requesterId playerId gameId db) in
      fst (kickPlayerAction requesterId playerId gameId db)
      = Success (gameId, EmptyString, playerId)
      /\ players_by_id playerId gameId db' = []
      /\ (players_by_id playerId gameId db <> [] ->
          forall c, In c (play_calls db') -> PlayCall.player_id c <> playerId)
      /\ (forall q, In q (players db) ->
                    Player.id q <> playerId \/ Player.game_id q <> gameId ->
                    In q (players db'))
      /\ games db' = games db).
Proof.
  split; intro Hhost.
  - unfold kickPlayerAction. rewrite Hhost. reflexivity.
  - unfold kickPlayerAction. rewrite Hhost. cbn [negb fst snd]. cbv zeta.
    repeat apply conj.
    + reflexivity.
    + unfold players_by_id. rewrite players_delete_player.
      apply (filter_twice_empty
               (fun q => uuid_eqb (Player.id q) playerId
                         && uuid_eqb (Player.game_id q) gameId)).
    + intros Hex c Hin Hc. unfold delete_player in Hin.
      destruct (existsb _ (players db)) eqn:E.
      * simpl in Hin. apply filter_In in Hin. destruct Hin as [_ Hne].
        unfold uuid_eqb in Hne. rewrite Hc, Nat.eqb_refl in Hne. discriminate.
      * apply Hex. unfold players_by_id.
        destruct (filter _ (players db)) as [|q l] eqn:Ef; [reflexivity|].
        assert (Hq : In q (filter
                            (fun p0 => uuid_eqb (Player.id p0) playerId
                                       && uuid_eqb (Player.game_id p0) gameId)
                            (players db))) by (rewrite Ef; left; reflexivity).
        apply filter_In in Hq. destruct Hq as [Hq1 Hq2].
        rewrite (existsb_false_forall _ _ E q Hq1) in Hq2. discriminate.
    + intros q Hin Hne. rewrite players_delete_player. apply filter_In.
      split; [exact Hin|]. apply negb_true_iff. apply andb_false_iff.
      unfold uuid_eqb. destruct Hne as [H|H]; [left | right]; apply Nat.eqb_neq; exact H.
    + apply games_delete_player.
Qed.

(** The ref kicks Ann while her call waits to be resolved. *)
Lemma kick_removes_the_player_witness :
  let db' := snd (kickPlayerAction 2 4 1 db_first_play) in
  fst (kickPlayerAction 2 4 1 db_first_play) = Success (1%nat, EmptyString, 4%nat)
  /\ players_by_id 4 1 db' = []
  /\ (players_by_id 4 1 db_first_play <> [] ->
      forall c, In c (play_calls db') -> PlayCall.player_id c <> 4%nat)
  /\ (forall q, In q (players db_first_play) ->
                Player.id q <> 4%nat \/ Player.game_id q <> 1%nat ->
                In q (players db'))
  /\ games db' = games db_first_play.
Proof.
  apply (proj2 (kick_removes_the_player 2 4 1 db_first_play)).
  vm_compute. reflexivity.
Defined.

Lemma promoted_is_found (i : uuid) (h : Player.t) (rest l : list Player.t) :
  filter (fun p => uuid_eqb (Player.game_id p) i) l = h :: rest ->
  find (fun p => uuid_eqb (Player.game_id p) i && is_ref p)
    (map (fun p => if uuid_eqb (Player.id p) (Player.id h)
                   then Player.set_role Role.ref p else p) l)
  = Some (Player.set_role Role.ref h).
Proof.
  induction l as [|x l IH]; simpl; [discriminate|].
  destruct (uuid_eqb (Player.game_id x) i) eqn:Ex.
  - intro H. injection H as -> _.
    assert (Hh : uuid_eqb (Player.id h) (Player.id h) = true)
      by (unfold uuid_eqb; apply Nat.eqb_refl).
    rewrite Hh. cbn [Player.game_id Player.set_role]. rewrite Ex. reflexivity.
  - intro H.
    assert (Hg : Player.game_id (if uuid_eqb (Player.id x) (Player.id h)
                                 then Player.set_role Role.ref x else x)
                 = Player.game_id x)
      by (destruct (uuid_eqb (Player.id x) (Player.id h)); reflexivity).
    rewrite Hg, Ex. simpl. apply IH. exact H.
Qed.

(** When the ref leaves and players remain, [leaveLobbyAction] makes the
    earliest remaining player of the game its ref and host: that player is the
    host every later host check finds, and the game row points to it. *)
Theorem leaving_host_hands_over (playerId gameId : uuid) (db : DB) (q h : Player.t)
  (rest : list Player.t) (g : Game.t) :
  single (players_by_id playerId gameId db) = Some q ->
  Player.role q = Role.ref ->
  players_of gameId (delete_player playerId gameId db) = h :: rest ->
  game_row gameId db = Some g ->
  let db' := snd (leaveLobbyAction playerId gameId db) in
  host_of gameId db' = Some (Player.set_role Role.ref h)
  /\ game_row gameId db' = Some (Game.set_host_player_id (Some (Player.id h)) g)
  /\ players_by_id playerId gameId db' = [].
Proof.
  intros Hq Href Hrest Hg. unfold leaveLobbyAction. rewrite Hq.
  apply is_ref_true in Href. rewrite Href, Hrest. cbn [snd]. cbv zeta.
  repeat apply conj.
  - unfold host_of. change (players (update_game ?a ?b ?d)) with (players d).
    cbn [players with_players]. apply (promoted_is_found gameId h rest). exact Hrest.
  - rewrite game_row_update_same by setters.
    rewrite (game_row_games gameId _ db)
      by (rewrite games_with_players; apply games_delete_player).
    rewrite Hg. reflexivity.
  - unfold players_by_id. change (players (update_game ?a ?b ?d)) with (players d).
    cbn [players with_players].
    assert (Hmap : forall l,
              filter (fun p => uuid_eqb (Player.id p) playerId
                               && uuid_eqb (Player.game_id p) gameId)
                (map (fun p => if uuid_eqb (Player.id p) (Player.id h)
                               then Player.set_role Role.ref p else p) l)
              = map (fun p => if uuid_eqb (Player.id p) (Player.id h)
                              then Player.set_role Role.ref p else p)
                  (filter (fun p => uuid_eqb (Player.id p) playerId
                                    && uuid_eqb (Player.game_id p) gameId) l)).
    { induction l as [|x l IH]; [reflexivity|]. cbn [map filter].
      assert (Hx : uuid_eqb (Player.id (if uuid_eqb (Player.id x) (Player.id h)
                                        then Player.set_role Role.ref x else x)) playerId
                   && uuid_eqb (Player.game_id (if uuid_eqb (Player.id x) (Player.id h)
                                                then Player.set_role Role.ref x else x))
                        gameId
                   = uuid_eqb (Player.id x) playerId && uuid_eqb (Player.game_id x) gameId)
        by (destruct (uuid_eqb (Player.id x) (Player.id h)); reflexivity).
      rewrite Hx, IH.
      destruct (uuid_eqb (Player.id x) playerId && uuid_eqb (Player.game_id x) gameId);
        reflexivity. }
    rewrite Hmap, players_delete_player.
    rewrite (filter_twice_empty
               (fun p => uuid_eqb (Player.id p) playerId
                         && uuid_eqb (Player.game_id p) gameId)).
    reflexivity.
Qed.

(** The ref leaves before the first snap: Hal, who joined first, is the host. *)
Lemma leaving_host_hands_over_witness :
  option_map Player.id (host_of 1 (snd (leaveLobbyAction 2 1 db_first_snap))) = Some 3%nat
  /\ option_map Game.host_player_id
       (game_row 1 (snd (leaveLobbyAction 2 1 db_first_snap))) = Some (Some 3%nat).
Proof.
  let l := eval vm_compute in (players_of 1 (delete_player 2 1 db_first_snap)) in
  let q := eval vm_compute in (single (players_by_id 2 1 db_first_snap)) in
  let g := eval vm_compute in (game_row 1 db_first_snap) in
  match l with
  | ?h :: ?rest =>
      match q with
      | Some ?q' =>
          match g with
          | Some ?g' =>
              pose proof (leaving_host_hands_over 2 1 db_first_snap q' h rest g'
                            ltac:(vm_compute; reflexivity) ltac:(vm_compute; reflexivity)
                            ltac:(vm_compute; reflexivity) ltac:(vm_compute; reflexivity))
                as H
          end
      end
  end.
  cbv zeta in H. destruct H as (H1 & H2 & _). rewrite H1, H2.
  split; reflexivity.
Defined.

(** ** Starting the game *)

Lemma filter_not_empty {A : Type} (f : A -> bool) (l : list A) :
  Nat.eqb (List.length (filter f l)) 0 = false -> exists x, In x l /\ f x = true.
Proof.
  destruct (filter f l) as [|x rest] eqn:E; [discriminate|]. intros _.
  exists x. apply filter_In. rewrite E. left. reflexivity.
Qed.

Lemma forallb_filter {A : Type} (f r : A -> bool) (l : list A) :
  forallb r (filter f l) = true -> forall x, In x l -> f x = true -> r x = true.
Proof.
  intros H x Hin Hf. rewrite forallb_forall in H. apply H. apply filter_In.
  split; assumption.
Qed.

Lemma on_a_team_true (p : Player.t) : on_a_team p = true <-> Player.side p <> None.
Proof.
  unfold on_a_team, side_is.
  destruct (Player.side p) as [[|]|]; simpl; split; intro H;
    try reflexivity; try discriminate; try congruence.
Qed.

Lemma start_gate_football (row : option Game.t) (roster : list Player.t) :
  option_map Game.mode row <> Some Mode.trivia ->
  start_gate row roster = None -> teams_ready roster.
Proof.
  intros Hmode. unfold start_gate.
  assert (Hnot : match row with
                 | Some g => if Mode.eq_dec (Game.mode g) Mode.trivia then true else false
                 | None => false
                 end = false).
  { destruct row as [g|]; [|reflexivity]. simpl in Hmode.
    destruct (Mode.eq_dec (Game.mode g) Mode.trivia) as [E|]; [|reflexivity].
    rewrite E in Hmode. congruence. }
  rewrite Hnot. cbv zeta.
  destruct (Nat.eqb (List.length (filter _ (filter on_a_team roster))) 0) eqn:Eh;
    [discriminate|].
  destruct (Nat.eqb (List.length
                       (filter (fun p => side_is (Player.side p) Side.away)
                          (filter on_a_team roster))) 0) eqn:Ea; [discriminate|].
  cbn [orb].
  destruct (forallb Player.ready (filter on_a_team roster)) eqn:Er; [|discriminate].
  intros _. unfold teams_ready. repeat apply conj.
  - apply filter_not_empty in Eh. destruct Eh as (p & Hin & Hp).
    apply filter_In in Hin. exists p. split; [apply Hin|]. apply side_is_true, Hp.
  - apply filter_not_empty in Ea. destruct Ea as (p & Hin & Hp).
    apply filter_In in Hin. exists p. split; [apply Hin|]. apply side_is_true, Hp.
  - intros p Hin Hside. apply (forallb_filter _ _ _ Er p Hin).
    apply on_a_team_true. exact Hside.
Qed.

Lemma start_gate_trivia (row : option Game.t) (roster : list Player.t) :
  option_map Game.mode row = Some Mode.trivia ->
  start_gate row roster = None -> contestants_ready roster.
Proof.
  intros Hmode. unfold start_gate.
  destruct row as [g|]; [|discriminate]. simpl in Hmode. injection Hmode as Hmode.
  destruct (Mode.eq_dec (Game.mode g) Mode.trivia) as [_|N]; [|congruence].
  cbv zeta.
  destruct (Nat.eqb (List.length (filter _ roster)) 0) eqn:En; [discriminate|].
  destruct (forallb Player.ready (filter (fun p => negb (is_ref p)) roster)) eqn:Er;
    [|discriminate].
  intros _. unfold contestants_ready. split.
  - apply filter_not_empty in En. destruct En as (p & Hin & Hp).
    exists p. split; [exact Hin|]. intro Href. apply is_ref_true in Href.
    rewrite Href in Hp. discriminate.
  - intros p Hin Hrole. apply (forallb_filter _ _ _ Er p Hin).
    destruct (is_ref p) eqn:E; [|reflexivity]. apply is_ref_true in E. contradiction.
Qed.

(** [startGameAction] changes nothing when it fails.  When it succeeds, the
    requester is the host and the gate of the game's mode held: in the trivia
    mode somebody besides the ref plays and all of them are ready, otherwise
    each team has a player and every player on a team is ready.  It then
    leaves every player of the game not ready, and a game that was in the open
    lobby in progress. *)
Theorem start_game_gate (gameId requesterId : uuid) (db : DB) :
  (forall msg,
     fst (startGameAction gameId requesterId db) = Failure msg ->
     snd (startGameAction gameId requesterId db) = db)
  /\ (forall v,
        fst (startGameAction gameId requesterId db) = Success v ->
        is_host gameId requesterId db = true
        /\ (option_map Game.mode (game_row gameId db) <> Some Mode.trivia ->
            teams_ready (players_of gameId db))
        /\ (option_map Game.mode (game_row gameId db) = Some Mode.trivia ->
            contestants_ready (players_of gameId db))
        /\ (forall p,
              In p (players (snd (startGameAction gameId requesterId db))) ->
              Player.game_id p = gameId -> Player.ready p = false)
        /\ (forall g,
              game_row gameId db = Some g -> Game.status g = Status.lobby_open ->
              option_map Game.status
                (game_row gameId (snd (startGameAction gameId requesterId db)))
              = Some Status.in_progress)).
Proof.
  unfold startGameAction. cbv zeta.
  destruct (is_host gameId requesterId db) eqn:Ehost; cbn [negb];
    [|split; [reflexivity | discriminate]].
  destruct (start_gate (single (games_by_id gameId db)) (players_of gameId db))
    as [msg|] eqn:Egate; [split; [reflexivity | discriminate]|].
  split; [discriminate|]. intros v _. cbn [snd].
  split; [reflexivity|].
  split; [intro Hmode; exact (start_gate_football _ _ Hmode Egate)|].
  split; [intro Hmode; exact (start_gate_trivia _ _ Hmode Egate)|].
  split.
  - intros p Hin Hgame. cbn [players with_players with_games] in Hin.
    apply in_map_iff in Hin. destruct Hin as (q & Hq & _).
    destruct (uuid_eqb (Player.game_id q) gameId) eqn:E.
    + subst p. reflexivity.
    + subst p. unfold uuid_eqb in E. apply Nat.eqb_neq in E. contradiction.
  - intros g Hg Hopen. unfold game_row, games_by_id in *.
    cbn [games with_players with_games].
    rewrite filter_id_map_in.
    + rewrite single_map, Hg. cbn [option_map].
      pose proof (single_In _ _ _ Hg) as [_ Hid]. rewrite Hid. cbn [andb].
      destruct (Status.eq_dec (Game.status g) Status.lobby_open); [reflexivity|].
      contradiction.
    + intros x _.
      destruct (uuid_eqb (Game.id x) gameId
                && (if Status.eq_dec (Game.status x) Status.lobby_open
                    then true else false));
        reflexivity.
Qed.

(** The ref starts the game of two ready players (a lobby is created in the
    trivia mode); Hal, who is not the host, is refused. *)
Lemma start_game_gate_witness :
  contestants_ready (players_of 1 db_ready_lobby)
  /\ snd (startGameAction 1 3 db_ready_lobby) = db_ready_lobby.
Proof.
  split.
  - apply (proj2 (start_game_gate 1 2 db_ready_lobby) (1%nat, EmptyString, 0%nat)).
    + vm_compute. reflexivity.
    + vm_compute. reflexivity.
  - apply (proj1 (start_game_gate 1 3 db_ready_lobby)
             "Only the ref can start the game.").
    vm_compute. reflexivity.
Defined.

(** ** The timeline *)

(** [getRecentEvents] answers with the latest events of the game, oldest
    first: the answer is the end of the game's timeline, and it holds [limit]
    events (50 when no limit is given) or the whole timeline when that is
    shorter. *)
Theorem recent_events_are_the_latest (gameId : uuid) (limit : option nat) (db : DB) :
  (exists older,
     events_of gameId db = (older ++ getRecentEvents gameId limit db)%list)
  /\ List.length (getRecentEvents gameId limit db)
     = Nat.min (JS.nullish limit 50%nat) (List.length (events_of gameId db))
  /\ (forall e, In e (getRecentEvents gameId limit db) -> GameEvent.game_id e = gameId).
Proof.
  unfold getRecentEvents. cbv zeta.
  set (n := JS.nullish limit 50%nat). set (l := events_of gameId db).
  assert (Hrev : rev (firstn n (rev l)) = skipn (List.length l - n) l).
  { rewrite firstn_rev, rev_involutive. reflexivity. }
  rewrite Hrev. repeat apply conj.
  - exists (firstn (List.length l - n) l). symmetry. apply firstn_skipn.
  - rewrite length_skipn. lia.
  - intros e He.
    assert (Hl : In e l).
    { rewrite <- (firstn_skipn (List.length l - n) l). apply in_or_app. right. exact He. }
    unfold l, events_of in Hl. apply filter_In in Hl. destruct Hl as [_ Hl].
    unfold uuid_eqb in Hl. apply Nat.eqb_eq in Hl. exact Hl.
Qed.

Lemma events_of_logGameEvent (gameId : uuid) (type : string) (db : DB) :
  game_exists gameId db = true ->
  events_of gameId (logGameEvent gameId type db)
  = (events_of gameId db
     ++ [ {| GameEvent.game_id := gameId; GameEvent.type := type |} ])%list.
Proof.
  intro H. unfold logGameEvent, events_of. rewrite H. cbn [game_events with_game_events].
  rewrite filter_app. cbn [filter GameEvent.game_id]. unfold uuid_eqb at 2.
  rewrite Nat.eqb_refl. reflexivity.
Qed.

(** An event that [logGameEvent] has just written for a game that exists is the
    last one [getRecentEvents] answers with, under every limit but 0; for a game
    that does not exist nothing is written. *)
Theorem logged_event_is_the_most_recent (gameId : uuid) (type : string)
  (limit : option nat) (db : DB) :
  limit <> Some 0%nat ->
  (game_exists gameId db = true ->
   exists earlier,
     getRecentEvents gameId limit (logGameEvent gameId type db)
     = (earlier ++ [ {| GameEvent.game_id := gameId; GameEvent.type := type |} ])%list)
  /\ (game_exists gameId db = false -> logGameEvent gameId type db = db).
Proof.
  intro Hlimit. split.
  - intro Hex. unfold getRecentEvents. cbv zeta.
    rewrite (events_of_logGameEvent gameId type db Hex).
    rewrite rev_app_distr. cbn [rev app].
    destruct (JS.nullish limit 50%nat) as [|n] eqn:En.
    + destruct limit as [[|k]|]; [congruence | discriminate | discriminate].
    + cbn [firstn rev]. eexists. reflexivity.
  - intro Hno. unfold logGameEvent. rewrite Hno. reflexivity.
Qed.

(** An event logged after the first snap ends the three most recent ones. *)
Lemma logged_event_is_the_most_recent_witness :
  exists earlier,
    getRecentEvents 1 (Some 3%nat) (logGameEvent 1 "drive_reset" db_first_snap)
    = (earlier ++ [ {| GameEvent.game_id := 1; GameEvent.type := "drive_reset" |} ])%list.
Proof.
  apply (proj1 (logged_event_is_the_most_recent 1 "drive_reset" (Some 3%nat)
                  db_first_snap ltac:(discriminate))).
  vm_compute. reflexivity.
Defined.

(** ** From the toss to the first snap *)

Lemma toss_possession_receiver (w : Side.t) (c : Toss.t) :
  toss_possession w c = receiver w c.
Proof. destruct w, c; reflexivity. Qed.

(** Once the toss winner (or the ref) has chosen and the kickoff is a
    touchback, the drive starts: the side that receives (the winner on
    'receive', the other side on 'kick' and on 'defer') is on offense with the
    ball, first and ten at the 25; the other side defends; the second-half
    kickoff goes to the winner on 'defer' and to the other side otherwise; the
    scores and the play counter are as they were. *)
Theorem toss_choice_starts_the_drive (gameId requesterId : uuid) (choice : Toss.t)
  (db : DB) (g : Game.t) (w : Side.t) (p : Player.t) :
  game_row gameId db = Some g ->
  Game.toss_winner_side g = Some w ->
  single (players_by_id requesterId gameId db) = Some p ->
  Player.role p = Role.ref \/ Player.side p = Some w ->
  fst (chooseTossOptionAction gameId requesterId choice db) = Success tt
  /\ fst (resolveKickoffTouchbackAction gameId
            (snd (chooseTossOptionAction gameId requesterId choice db))) = Success tt
  /\ exists g',
       game_row gameId
         (snd (resolveKickoffTouchbackAction gameId
                 (snd (chooseTossOptionAction gameId requesterId choice db))))
       = Some g'
       /\ stage g' = (Phase.drive, Some Sub.play_call)
       /\ Game.down g' = 1 /\ Game.distance g' = 10 /\ Game.yard_line g' = 25
       /\ Game.possession_side g' = Some (receiver w choice)
       /\ Game.offense_side g' = Some (receiver w choice)
       /\ Game.defense_side g' = Some (opposite (receiver w choice))
       /\ Game.second_half_kickoff_side g'
          = Some (match choice with Toss.defer => w | _ => opposite w end)
       /\ Game.toss_choice g' = Some choice
       /\ Game.score_home g' = Game.score_home g
       /\ Game.score_away g' = Game.score_away g
       /\ Game.current_play_seq g' = Game.current_play_seq g.
Proof.
  intros Hg Hw Hp Hallowed.
  assert (Hok : is_ref p || side_is (Player.side p) w = true).
  { apply orb_true_iff. destruct Hallowed as [H|H].
    - left. apply is_ref_true. exact H.
    - right. apply side_is_true. exact H. }
  unfold chooseTossOptionAction. fold (game_row gameId db).
  rewrite Hg. cbn [option_map]. rewrite Hw, Hp, Hok. cbn [negb fst snd]. cbv zeta.
  split; [reflexivity|].
  set (cols := [ Game.set_toss_choice (Some choice);
                 Game.set_possession_side (Some (toss_possession w choice));
                 Game.set_offense_side (Some (toss_possession w choice));
                 Game.set_defense_side (Some (opposite (toss_possession w choice)));
                 Game.set_second_half_kickoff_side (Some (toss_second_half w choice));
                 Game.set_phase Phase.kickoff;
                 Game.set_down 1;
                 Game.set_distance 10;
                 Game.set_yard_line 25;
                 Game.set_clock_seconds 900;
                 Game.set_play_clock_seconds 40;
                 Game.set_play_subphase None ]).
  set (db1 := logGameEvent gameId "coin_toss_choice" (update_game gameId cols db)).
  assert (Hrow1 : game_row gameId db1 = Some (Game.update cols g)).
  { unfold db1. rewrite (game_row_games gameId _ _ (games_logGameEvent _ _ _)).
    rewrite game_row_update_same by (unfold cols; setters). rewrite Hg. reflexivity. }
  unfold resolveKickoffTouchbackAction. fold (game_row gameId db1). rewrite Hrow1.
  assert (Hphase : phase_is (Game.update cols g) Phase.kickoff = true)
    by (apply phase_is_true; reflexivity).
  rewrite Hphase. cbn [negb fst snd]. cbv zeta.
  split; [reflexivity|].
  rewrite (game_row_games gameId _ _ (games_logGameEvent _ _ _)).
  rewrite game_row_update_same by setters. rewrite Hrow1. cbn [option_map].
  eexists. split; [reflexivity|].
  rewrite <- toss_possession_receiver.
  destruct w, choice; repeat apply conj; reflexivity.
Qed.

(** Ann, who won the toss for the away side, chooses to receive. *)
Lemma toss_choice_starts_the_drive_witness :
  fst (chooseTossOptionAction 1 4 Toss.receive db_toss_flipped) = Success tt
  /\ fst (resolveKickoffTouchbackAction 1
            (snd (chooseTossOptionAction 1 4 Toss.receive db_toss_flipped))) = Success tt
  /\ exists g',
       game_row 1
         (snd (resolveKickoffTouchbackAction 1
                 (snd (chooseTossOptionAction 1 4 Toss.receive db_toss_flipped))))
       = Some g'
       /\ stage g' = (Phase.drive, Some Sub.play_call)
       /\ Game.down g' = 1 /\ Game.distance g' = 10 /\ Game.yard_line g' = 25
       /\ Game.possession_side g' = Some Side.away
       /\ Game.offense_side g' = Some Side.away
       /\ Game.defense_side g' = Some Side.home
       /\ Game.second_half_kickoff_side g' = Some Side.home
       /\ Game.toss_choice g' = Some Toss.receive
       /\ Game.score_home g' = Game.score_home (row1 db_toss_flipped)
       /\ Game.score_away g' = Game.score_away (row1 db_toss_flipped)
       /\ Game.current_play_seq g' = Game.current_play_seq (row1 db_toss_flipped).
Proof.
  let q := eval vm_compute in (single (players_by_id 4 1 db_toss_flipped)) in
  match q with
  | Some ?q' =>
      exact (toss_choice_starts_the_drive 1 4 Toss.receive db_toss_flipped
               (row1 db_toss_flipped) Side.away q'
               ltac:(vm_compute; reflexivity) ltac:(vm_compute; reflexivity)
               ltac:(vm_compute; reflexivity) ltac:(right; reflexivity))
  end.
Defined.

(** ** Recording a roll *)

Lemma rollByDifficulty_d20 (difficulty : string) :
  always (between 1 20) (rollByDifficulty difficulty).
Proof.
  unfold rollByDifficulty.
  repeat match goal with
    | |- context [String.eqb ?a ?b] => destruct (String.eqb a b)
    end;
    try (eapply always_weaken;
         [apply randomInt_between; lia | intros v Hv; unfold between in *; lia]).
  apply (always_bind_post (between 1 4)); [apply randomInt_between; lia|].
  intros a Ha.
  apply (always_bind_post (between 1 4)); [apply randomInt_between; lia|].
  intros b Hb. apply always_ret. unfold between in *. lia.
Qed.

Lemma upsert_writes_row (u : Upsert.t) (table : list PlayCall.t) :
  exists c,
    In c (Upsert.run u table)
    /\ Upsert.conflicts u c = true
    /\ PlayCall.role c = Upsert.role u
    /\ (forall a r b, Upsert.progress u = Some (a, r, b) -> PlayCall.roll c = r).
Proof.
  unfold Upsert.run. destruct (existsb (Upsert.conflicts u) table) eqn:E.
  - apply existsb_exists in E. destruct E as (c & Hin & Hc).
    exists (Upsert.overwrite u c). repeat apply conj.
    + apply in_map_iff. exists c. rewrite Hc. split; [reflexivity | exact Hin].
    + apply conflicts_overwrite.
    + reflexivity.
    + intros a r b Hp. cbn [Upsert.overwrite PlayCall.roll]. rewrite Hp. reflexivity.
  - exists (Upsert.inserted u). repeat apply conj.
    + apply in_or_app. right. left. reflexivity.
    + apply conflicts_inserted.
    + reflexivity.
    + intros a r b Hp. cbn [Upsert.inserted PlayCall.roll]. rewrite Hp. reflexivity.
Qed.

Lemma upsert_keeps_others (u : Upsert.t) (table : list PlayCall.t) (c : PlayCall.t) :
  In c table -> Upsert.conflicts u c = false -> In c (Upsert.run u table).
Proof.
  intros Hin Hc. unfold Upsert.run. destruct (existsb (Upsert.conflicts u) table).
  - apply in_map_iff. exists c. rewrite Hc. split; [reflexivity | exact Hin].
  - apply in_or_app. left. exact Hin.
Qed.

(** A roll that [submitRollAction] accepts: a manual roll is taken as it was
    given, a drawn roll lies between 1 and 20 for the offense and between 1
    and 4 for the defense.  When the roll fits the [int] column (a drawn roll
    always does) it is written to the caller's own row of the play, under the
    role it was made for.  When it does not fit, the handler still answers with
    success and the play calls are as they were.  In both cases the rows of the
    other players stay as they were, also when the roll is made on behalf of
    their side. *)
Theorem submitted_roll_is_recorded (gameId playerId : uuid) (manualRoll : option Z)
  (forSide : option PlayRole.t) (tape : list Z) (db : DB) (out : Outcome) :
  fst (submitRollAction gameId playerId manualRoll forSide tape db) = Success out ->
  exists g p v,
    game_row gameId db = Some g
    /\ single (players_by_id playerId gameId db) = Some p
    /\ match manualRoll with
       | Some r => v = r
       | None =>
           int4 v = true
           /\ match targetRoleOf forSide p g with
              | PlayRole.offense => between 1 20 v
              | PlayRole.defense => between 1 4 v
              end
       end
    /\ (int4 v = true ->
        exists c,
          In c (calls_of gameId (seq_of g)
                  (snd (submitRollAction gameId playerId manualRoll forSide tape db)))
          /\ PlayCall.player_id c = playerId
          /\ PlayCall.role c = targetRoleOf forSide p g
          /\ PlayCall.roll c = Some v)
    /\ (int4 v = false ->
        play_calls (snd (submitRollAction gameId playerId manualRoll forSide tape db))
        = play_calls db)
    /\ (forall c',
          In c' (play_calls db) -> PlayCall.player_id c' <> playerId ->
          In c' (play_calls
                   (snd (submitRollAction gameId playerId manualRoll forSide tape db)))).
Proof.
  unfold submitRollAction. fold (game_row gameId db).
  destruct (game_row gameId db) as [g|] eqn:Eg; [|discriminate].
  destruct (negb (phase_is g Phase.drive) || negb (subphase_is g Sub.rolls));
    [discriminate|].
  destruct (single (players_by_id playerId gameId db)) as [p|] eqn:Ep; [|discriminate].
  cbv zeta. fold (seq_of g).
  set (target := targetRoleOf forSide p g).
  set (v := match manualRoll with
            | Some r => r
            | None =>
                match target with
                | PlayRole.offense =>
                    fst (rollByDifficulty
                           (column_or
                              (find (role_is PlayRole.offense)
                                 (calls_of gameId (seq_of g) db))
                              PlayCall.difficulty "easy") tape)
                | PlayRole.defense => fst (randomInt 1 4 tape)
                end
            end).
  assert (Hv : match manualRoll with
               | Some r => v = r
               | None =>
                   int4 v = true
                   /\ match target with
                      | PlayRole.offense => between 1 20 v
                      | PlayRole.defense => between 1 4 v
                      end
               end).
  { unfold v. destruct manualRoll as [r|]; [reflexivity|].
    assert (Hsmall : forall x, between 1 20 x -> int4 x = true).
    { intros x Hx. unfold between in Hx. unfold int4.
      apply andb_true_iff. split; apply Z.leb_le; lia. }
    destruct target.
    - pose proof (rollByDifficulty_d20
                    (column_or
                       (find (role_is PlayRole.offense) (calls_of gameId (seq_of g) db))
                       PlayCall.difficulty "easy") tape) as Hd.
      split; [apply Hsmall; exact Hd | exact Hd].
    - pose proof (randomInt_between 1 4 ltac:(lia) tape) as Hd.
      split; [apply Hsmall; unfold between in *; lia | exact Hd]. }
  clearbody v.
  assert (Hmain : forall a b,
            let u := progress_object gameId playerId p target
                       (find (role_is PlayRole.offense) (calls_of gameId (seq_of g) db))
                       (find (role_is PlayRole.defense) (calls_of gameId (seq_of g) db))
                       (seq_of g) a (Some v) b in
            forall db',
              play_calls db'
              = (if int4 v then Upsert.run u (play_calls db) else play_calls db) ->
              exists g0 p0 v0,
                Some g = Some g0 /\ Some p = Some p0
                /\ match manualRoll with
                   | Some r => v0 = r
                   | None =>
                       int4 v0 = true
                       /\ match targetRoleOf forSide p0 g0 with
                          | PlayRole.offense => between 1 20 v0
                          | PlayRole.defense => between 1 4 v0
                          end
                   end
                /\ (int4 v0 = true ->
                    exists c,
                      In c (calls_of gameId (seq_of g0) db')
                      /\ PlayCall.player_id c = playerId
                      /\ PlayCall.role c = targetRoleOf forSide p0 g0
                      /\ PlayCall.roll c = Some v0)
                /\ (int4 v0 = false -> play_calls db' = play_calls db)
                /\ (forall c',
                      In c' (play_calls db) -> PlayCall.player_id c' <> playerId ->
                      In c' (play_calls db'))).
  { intros a b u db' Hcalls.
    exists g, p, v. split; [reflexivity|]. split; [reflexivity|].
    split; [exact Hv|]. split; [|split].
    - intro Hint. rewrite Hint in Hcalls.
      destruct (upsert_writes_row u (play_calls db)) as (c & Hin & Hc & Hrole & Hroll).
      apply conflicts_key in Hc. unfold PlayCall.key in Hc.
      injection Hc as Hgame Hplayer Hseq.
      exists c. repeat apply conj.
      + unfold calls_of. apply filter_In. split; [rewrite Hcalls; exact Hin|].
        rewrite Hgame, Hseq. cbn [Upsert.game_id Upsert.seq u progress_object].
        unfold uuid_eqb. rewrite Nat.eqb_refl, Z.eqb_refl. reflexivity.
      + exact Hplayer.
      + exact Hrole.
      + apply (Hroll a (Some v) b). reflexivity.
    - intro Hint. rewrite Hint in Hcalls. exact Hcalls.
    - intros c' Hin' Hother. rewrite Hcalls.
      destruct (int4 v); [|exact Hin'].
      apply upsert_keeps_others; [exact Hin'|].
      destruct (Upsert.conflicts u c') eqn:E; [|reflexivity].
      apply conflicts_key in E. unfold PlayCall.key in E. injection E as _ E _.
      contradiction. }
  destruct (find (role_is target) (calls_of gameId (seq_of g) db))
    as [[? ? ? ? ? ? ? ? [r|] ?]|]; [discriminate| |];
    intros _; cbn [snd PlayCall.answer PlayCall.ready_after_roll];
    (eapply Hmain;
     destruct (int4 v);
     repeat match goal with
       | |- context [match ?x with _ => _ end] => destruct x
       end;
     autorewrite with calls; reflexivity).
Qed.

(** The caller rolls a 100 for the offense and the handler stores it; a roll
    of 2^31 is answered with success and stored nowhere. *)
Lemma submitted_roll_is_recorded_witness :
  (exists c,
     In c (calls_of 1 1 (snd (submitRollAction 1 4 (Some 100) None [] db_rolls)))
     /\ PlayCall.player_id c = 4%nat
     /\ PlayCall.roll c = Some 100)
  /\ fst (submitRollAction 1 4 (Some 2147483648) None [] db_rolls)
     = Success {| message := Some "Roll recorded."; game := None |}
  /\ play_calls (snd (submitRollAction 1 4 (Some 2147483648) None [] db_rolls))
     = play_calls db_rolls.
Proof.
  split; [|split].
  - destruct (submitted_roll_is_recorded 1 4 (Some 100) None [] db_rolls
                {| message := Some "Roll recorded."; game := None |}
                ltac:(vm_compute; reflexivity))
      as (g & p & v & Hg & _ & Hv & Hin & _).
    vm_compute in Hg. injection Hg as <-. subst v.
    destruct (Hin ltac:(vm_compute; reflexivity)) as (c & Hc & Hplayer & _ & Hroll).
    exists c. split; [exact Hc|]. split; [exact Hplayer | exact Hroll].
  - vm_compute. reflexivity.
  - destruct (submitted_roll_is_recorded 1 4 (Some 2147483648) None [] db_rolls
                {| message := Some "Roll recorded."; game := None |}
                ltac:(vm_compute; reflexivity))
      as (g & p & v & _ & _ & Hv & _ & Hout & _).
    subst v. apply Hout. vm_compute. reflexivity.
Defined.

(** ** Continuing after the rolls *)

Lemma calls_of_mark_ready (i : uuid) (s : Z) (r : PlayRole.t) (db : DB) :
  calls_of i s (mark_ready i s r db)
  = map (fun c => if role_is r c then PlayCall.set_ready_after_roll true c else c)
      (calls_of i s db).
Proof.
  unfold calls_of, mark_ready. cbn [play_calls with_play_calls].
  induction (play_calls db) as [|c l IH]; [reflexivity|]. cbn [map filter].
  destruct (uuid_eqb (PlayCall.game_id c) i && (PlayCall.seq c =? s)) eqn:E.
  - cbn [andb]. destruct (role_is r c) eqn:Er.
    + cbn [PlayCall.set_ready_after_roll PlayCall.game_id PlayCall.seq].
      rewrite E. cbn [map]. rewrite Er, IH. reflexivity.
    + rewrite E. cbn [map]. rewrite Er, IH. reflexivity.
  - cbn [andb]. rewrite E. exact IH.
Qed.

Lemma role_is_other (r : PlayRole.t) (c : PlayCall.t) :
  role_is r c = true -> role_is (other_role r) c = false.
Proof.
  unfold role_is.
  destruct (PlayRole.eq_dec (PlayCall.role c) r) as [->|]; [|discriminate].
  intros _. destruct r; reflexivity.
Qed.

Lemma ready_for_other (r : PlayRole.t) (l : list PlayCall.t) :
  ready_for (other_role r)
    (map (fun c => if role_is r c then PlayCall.set_ready_after_roll true c else c) l)
  = ready_for (other_role r) l.
Proof.
  unfold ready_for. induction l as [|c l IH]; [reflexivity|]. cbn [map existsb].
  rewrite IH. destruct (role_is r c) eqn:Er; [|reflexivity].
  change (role_is (other_role r) (PlayCall.set_ready_after_roll true c))
    with (role_is (other_role r) c).
  rewrite (role_is_other r c Er). reflexivity.
Qed.

Lemma ready_for_same (r : PlayRole.t) (l : list PlayCall.t) :
  ready_for r
    (map (fun c => if role_is r c then PlayCall.set_ready_after_roll true c else c) l)
  = existsb (role_is r) l.
Proof.
  unfold ready_for. induction l as [|c l IH]; [reflexivity|]. cbn [map existsb].
  rewrite IH. destruct (role_is r c) eqn:Er.
  - change (role_is r (PlayCall.set_ready_after_roll true c)) with (role_is r c).
    rewrite Er. reflexivity.
  - rewrite Er. reflexivity.
Qed.



(** ** Reading a game by its code *)

Lemma code_filter_map (code : string) (F : Game.t -> Game.t) (l : list Game.t) :
  (forall g, Game.code (F g) = Game.code g) ->
  existsb (fun g => String.eqb (Game.code g) code) l = false ->
  filter (fun g => String.eqb (Game.code g) code) (map F l) = [].
Proof.
  intros HF. induction l as [|g l IH]; [reflexivity|]. cbn [existsb map filter].
  intro H. apply orb_false_elim in H. destruct H as [Hg Hl].
  rewrite HF, Hg. apply IH. exact Hl.
Qed.

(** [getGameByCode] finds the game of a lobby that [createLobbyAction] has just
    created, by its code typed in any letter case: the row is in the open
    lobby, in the lobby phase, without a score, and names the creator as its
    host. *)
Theorem created_lobby_is_found (displayName : string) (codes : list string)
  (db db1 : DB) (gameId playerId : uuid) (code typed : string) :
  createLobbyAction displayName codes db = (Success (gameId, code, playerId), db1) ->
  JS.toUpperCase typed = code ->
  exists g,
    getGameByCode typed db1 = Some g
    /\ Game.id g = gameId /\ Game.code g = code
    /\ Game.status g = Status.lobby_open
    /\ Game.phase g = Phase.lobby
    /\ Game.host_player_id g = Some playerId
    /\ Game.lobby_locked g = Some false
    /\ Game.score_home g = 0 /\ Game.score_away g = 0.
Proof.
  intros Hcreate Htyped.
  destruct (createLobby_success _ _ _ _ _ _ _ Hcreate)
    as (_ & _ & Hnew & Hgames & _).
  unfold getGameByCode. rewrite Hgames, Htyped, filter_app.
  rewrite code_filter_map;
    [ | intro g; destruct (uuid_eqb (Game.id g) gameId); reflexivity | exact Hnew ].
  cbn [app filter Game.code Game.set_host_player_id Game.fresh].
  rewrite String.eqb_refl. cbn [single].
  eexists. split; [reflexivity|]. repeat apply conj; reflexivity.
Qed.

(** The lobby of the examples is found under its code in lower case. *)
Lemma created_lobby_is_found_witness :
  exists g,
    getGameByCode "abc123" db_lobby = Some g
    /\ Game.id g = 1%nat /\ Game.code g = "ABC123"
    /\ Game.status g = Status.lobby_open
    /\ Game.phase g = Phase.lobby
    /\ Game.host_player_id g = Some 2%nat
    /\ Game.lobby_locked g = Some false
    /\ Game.score_home g = 0 /\ Game.score_away g = 0.
Proof.
  apply (created_lobby_is_found "Ref" ["ABC123"] empty_db db_lobby 1 2 "ABC123" "abc123").
  - vm_compute. reflexivity.
  - vm_compute. reflexivity.
Defined.

(** ** The toss *)

(** [resolveCoinTossAction] is the toss in one step: on the same draw it
    leaves the game row that [flipCoinAction] followed by
    [chooseTossOptionAction] leaves when the ref makes both calls. *)
Theorem toss_in_one_step_or_two (gameId requesterId : uuid) (awayCall : Coin.t)
  (choice : Toss.t) (tape : list Z) (db : DB) (g : Game.t) (p : Player.t) :
  game_row gameId db = Some g ->
  single (players_by_id requesterId gameId db) = Some p ->
  Player.role p = Role.ref ->
  game_row gameId
    (snd (chooseTossOptionAction gameId requesterId choice
            (snd (flipCoinAction gameId requesterId awayCall tape db))))
  = game_row gameId (snd (resolveCoinTossAction gameId awayCall choice tape db))
  /\ fst (resolveCoinTossAction gameId awayCall choice tape db)
     = Success (toss_coin tape, toss_winner (toss_coin tape) awayCall, choice)
  /\ fst (flipCoinAction gameId requesterId awayCall tape db)
     = Success (toss_coin tape, toss_winner (toss_coin tape) awayCall).
Proof.
  intros Hg Hp Href. apply is_ref_true in Href.
  unfold flipCoinAction. rewrite Hp, Href, orb_true_r. cbn [negb fst snd]. cbv zeta.
  set (coin := toss_coin tape). set (winner := toss_winner coin awayCall).
  set (cols1 := [ Game.set_toss_result (Some coin);
                  Game.set_toss_winner_side (Some winner);
                  Game.set_toss_choice None;
                  Game.set_phase Phase.coin_toss_choice ]).
  set (db1 := logGameEvent gameId "coin_toss_flipped" (update_game gameId cols1 db)).
  assert (Hrow1 : game_row gameId db1 = Some (Game.update cols1 g)).
  { unfold db1. rewrite (game_row_games gameId _ _ (games_logGameEvent _ _ _)).
    rewrite game_row_update_same by (unfold cols1; setters). rewrite Hg. reflexivity. }
  assert (Hp1 : single (players_by_id requesterId gameId db1) = Some p).
  { unfold db1, players_by_id. rewrite players_logGameEvent. exact Hp. }
  split; [|split; reflexivity].
  unfold chooseTossOptionAction. fold (game_row gameId db1). rewrite Hrow1.
  cbn [option_map].
  change (Game.toss_winner_side (Game.update cols1 g)) with (Some winner).
  rewrite Hp1, Href. cbn [orb negb snd]. cbv zeta.
  unfold resolveCoinTossAction. cbv zeta. cbn [snd].
  fold coin. fold winner.
  rewrite !(game_row_games gameId _ _ (games_logGameEvent _ _ _)).
  rewrite !game_row_update_same by setters.
  rewrite Hrow1, Hg. cbn [option_map]. reflexivity.
Qed.

(** The ref tosses for the game of the examples, in two steps and in one. *)
Lemma toss_in_one_step_or_two_witness :
  game_row 1
    (snd (chooseTossOptionAction 1 2 Toss.defer
            (snd (flipCoinAction 1 2 Coin.tails [0] db_started))))
  = game_row 1 (snd (resolveCoinTossAction 1 Coin.tails Toss.defer [0] db_started)).
Proof.
  let q := eval vm_compute in (single (players_by_id 2 1 db_started)) in
  match q with
  | Some ?q' =>
      exact (proj1 (toss_in_one_step_or_two 1 2 Coin.tails Toss.defer [0] db_started
                      (row1 db_started) q'
                      ltac:(vm_compute; reflexivity) ltac:(vm_compute; reflexivity)
                      ltac:(vm_compute; reflexivity)))
  end.
Defined.

Lemma toss_open_map (i : uuid) (F : Game.t -> Game.t) (l : list Game.t) :
  (forall g, Game.id (F g) = Game.id g) ->
  (forall g, Game.id g = i -> Game.toss_winner_side g = None ->
             Game.toss_winner_side (F g) = None) ->
  toss_open i l -> toss_open i (map F l).
Proof.
  intros Hid Htoss H g Hin Hg. apply in_map_iff in Hin.
  destruct Hin as (g0 & <- & Hin0). rewrite Hid in Hg.
  apply Htoss; [exact Hg|]. apply H; assumption.
Qed.

Lemma toss_open_update (i j : uuid) (cols : list (Game.t -> Game.t)) (l : list Game.t) :
  Forall keeps_id cols ->
  (j = i -> forall g, Game.toss_winner_side g = None ->
                      Game.toss_winner_side (Game.update cols g) = None) ->
  toss_open i l ->
  toss_open i (map (fun g => if uuid_eqb (Game.id g) j then Game.update cols g else g) l).
Proof.
  intros Hk Htoss. apply toss_open_map.
  - intro g. destruct (uuid_eqb (Game.id g) j); [|reflexivity].
    apply update_keeps_id. exact Hk.
  - intros g Hg Hnone. destruct (uuid_eqb (Game.id g) j) eqn:E; [|exact Hnone].
    unfold uuid_eqb in E. apply Nat.eqb_eq in E. apply Htoss; [congruence | exact Hnone].
Qed.

Lemma toss_open_app (i : uuid) (l1 l2 : list Game.t) :
  toss_open i l1 -> toss_open i l2 -> toss_open i (l1 ++ l2)%list.
Proof.
  intros H1 H2 g Hin. apply in_app_or in Hin. destruct Hin; [apply H1 | apply H2];
    assumption.
Qed.

(** Walks through the writes of a handler that does not flip the coin. *)
Ltac toss_tac :=
  cbn [snd];
  repeat first
    [ assumption
    | progress autorewrite with games
    | apply toss_open_update;
      [ first [ apply resolved_columns_keep_id | setters ]
      | let Hj := fresh in
        let g := fresh in
        let Hg := fresh in
        intros Hj g Hg;
        first [ exact Hg | reflexivity | contradiction ]
      | ] ].

(** A request that does not flip the coin of a game leaves its toss open. *)
Lemma perform_keeps_toss_open (i : uuid) (a : Action) (tape : list Z) (db : DB) :
  ~ flips i a -> toss_open i (games db) -> toss_open i (games (perform a tape db)).
Proof.
  intros Hflip H. destruct a; unfold perform, handle, respond; cbn [snd];
    cbn [flips] in Hflip.
  - unfold startCoinToss. toss_tac.
  - unfold resolveCoinTossAction. toss_tac.
  - unfold flipCoinAction. break_handler; toss_tac.
  - unfold chooseTossOptionAction. break_handler; toss_tac.
  - unfold resolveKickoffTouchbackAction. break_handler; toss_tac.
  - unfold resetDriveAction. break_handler; toss_tac.
  - unfold submitPlayCallAction. break_handler; toss_tac.
  - unfold submitQuestionAnswerAction. break_handler; toss_tac.
  - unfold submitRollAction. break_handler; toss_tac.
  - unfold continueAfterRollAction, finalizePlayResolution. break_handler; toss_tac.
  - unfold createLobbyAction.
    destruct (JS.is_empty _); [toss_tac|].
    destruct (existsb _ (games db)); [toss_tac|].
    assert (Hnew : forall c,
              toss_open i
                (games db ++ [Game.fresh (next_uuid db) c Status.lobby_open Mode.trivia])).
    { intro c. apply toss_open_app; [exact H|]. intros g [<-|[]] _. reflexivity. }
    destruct (insert_player _ _ _ _ _) as [[u d]|msg] eqn:E.
    + cbn [snd]. rewrite games_update_game, (games_insert_player _ _ _ _ _ _ _ E).
      cbn [games with_next_uuid with_games].
      apply toss_open_update; [setters | intros _ g Hg; exact Hg | apply Hnew].
    + cbn [snd games with_next_uuid with_games]. apply Hnew.
  - unfold joinLobbyAction.
    destruct (JS.is_empty (JS.trim displayName)); [toss_tac|].
    destruct (JS.is_empty (JS.trim code)); [toss_tac|].
    destruct (single _) as [g|]; [|toss_tac].
    destruct (Game.lobby_locked g) as [[|]|]; try toss_tac;
      destruct (insert_player _ _ _ _ _) as [[u d]|msg] eqn:E; try toss_tac;
      cbn [snd]; rewrite (games_insert_player _ _ _ _ _ _ _ E); exact H.
  - unfold updatePlayerSideAction. break_handler; toss_tac.
  - unfold updateTeamNamesAction. break_handler; toss_tac.
  - unfold startGameAction. break_handler; toss_tac.
    cbn [games with_players with_games]. apply toss_open_map; [| |exact H].
    + intro g. destruct (_ && _); reflexivity.
    + intros g _ Hg. destruct (_ && _); exact Hg.
  - unfold leaveLobbyAction. break_handler; toss_tac.
  - unfold setReadyAction. toss_tac.
  - unfold kickPlayerAction. break_handler; toss_tac.
  - unfold setLobbyLockedAction. break_handler; toss_tac.
Qed.

Lemma run_script_keeps_toss_open (i : uuid) (script : list (Action * list Z)) (db : DB) :
  Forall (fun step => ~ flips i (fst step)) script ->
  toss_open i (games db) -> toss_open i (games (run_script script db)).
Proof.
  revert db. induction script as [|step script IH]; intros db Hs H; [exact H|].
  inversion Hs as [|? ? Hstep Hrest]; subst. unfold run_script in *. cbn [fold_left].
  apply IH; [exact Hrest|]. apply perform_keeps_toss_open; assumption.
Qed.

Lemma startCoinToss_opens (i : uuid) (db : DB) :
  toss_open i (games (snd (startCoinToss i db))).
Proof.
  unfold startCoinToss. cbn [snd]. rewrite games_logGameEvent, games_update_game.
  intros g Hin Hg. apply in_map_iff in Hin. destruct Hin as (g0 & <- & _).
  destruct (uuid_eqb (Game.id g0) i) eqn:E; [reflexivity|].
  exfalso. unfold uuid_eqb in E. apply Nat.eqb_neq in E. apply E. exact Hg.
Qed.

(** After [startCoinToss] the choice has to wait for the flip: whatever
    requests follow, as long as none of them is a [flipCoinAction] or a
    [resolveCoinTossAction] for the game, [chooseTossOptionAction] answers
    'Toss not resolved yet.' to everybody and writes nothing. *)
Theorem choice_needs_a_flip (gameId requesterId : uuid) (choice : Toss.t) (db : DB)
  (script : list (Action * list Z)) :
  Forall (fun step => ~ flips gameId (fst step)) script ->
  chooseTossOptionAction gameId requesterId choice
    (run_script script (snd (startCoinToss gameId db)))
  = (Failure "Toss not resolved yet.",
     run_script script (snd (startCoinToss gameId db))).
Proof.
  intro Hs.
  pose proof (run_script_keeps_toss_open gameId script _ Hs
                (startCoinToss_opens gameId db)) as Hopen.
  unfold chooseTossOptionAction.
  destruct (single (games_by_id gameId
                      (run_script script (snd (startCoinToss gameId db)))))
    as [g|] eqn:Eg; [|reflexivity].
  unfold games_by_id in Eg. apply single_In in Eg. destruct Eg as [Hin Hid].
  unfold uuid_eqb in Hid. apply Nat.eqb_eq in Hid.
  cbn [option_map]. rewrite (Hopen g Hin Hid). reflexivity.
Qed.

(** The ref restarts the toss of a game whose toss was already won; other
    requests follow, but no flip: Ann can no longer choose. *)
Lemma choice_needs_a_flip_witness :
  chooseTossOptionAction 1 4 Toss.receive
    (run_script before_the_flip (snd (startCoinToss 1 db_toss_flipped)))
  = (Failure "Toss not resolved yet.",
     run_script before_the_flip (snd (startCoinToss 1 db_toss_flipped))).
Proof.
  apply (choice_needs_a_flip 1 4 Toss.receive db_toss_flipped before_the_flip).
  repeat constructor; intro H; exact H.
Defined.
